(** * Sun lighting, simulated clock and atmosphere shading of the Earth globe

    A shallow embedding of
    - the two GLSL fragment shaders of the earth material factory, in
      the version that has the haze and halo tuning uniforms (surface
      haze and atmosphere shell),
    - the uniform objects of [createEarthMaterial] and its [clone],
    - the sun calculator and the [LightingSystem] controller,
    - the texture loader with its placeholder textures,
    - the two fragment shaders of the earlier version of the factory,
    followed by the properties stated about them.

    Numbers.  JavaScript numbers and GLSL floats are read as real numbers
    (rounding and overflow are not modelled).  What IEEE arithmetic turns
    into NaN or an infinity is kept visible as [None]: a division by zero,
    the normalisation of the null vector, [pow] and [sqrt] outside their
    domain, an Invalid Date. *)

From Stdlib Require Import Reals Lra ZArith Lia.
From stdpp Require Import base option gmap strings.

#[local] Open Scope R_scope.

(** ** GLSL built-ins used by the shaders *)

Module Glsl.

Record vec3 := Vec3 { vx : R; vy : R; vz : R }.
Record vec4 := Vec4 { cr : R; cg : R; cb : R; ca : R }.

Definition vadd (a b : vec3) : vec3 :=
  Vec3 (vx a + vx b) (vy a + vy b) (vz a + vz b).
Definition vsub (a b : vec3) : vec3 :=
  Vec3 (vx a - vx b) (vy a - vy b) (vz a - vz b).
Definition vscale (k : R) (a : vec3) : vec3 :=
  Vec3 (k * vx a) (k * vy a) (k * vz a).
Definition vneg (a : vec3) : vec3 := Vec3 (- vx a) (- vy a) (- vz a).

Definition dot (a b : vec3) : R := vx a * vx b + vy a * vy b + vz a * vz b.
Definition length (a : vec3) : R := sqrt (dot a a).

(** [x / y]: no finite value when [y] is zero. *)
Definition fdiv (x y : R) : option R :=
  if Req_EM_T y 0 then None else Some (x / y).

(** [v / y], component-wise. *)
Definition vdiv (v : vec3) (y : R) : option vec3 :=
  if Req_EM_T y 0 then None
  else Some (Vec3 (vx v / y) (vy v / y) (vz v / y)).

(** [normalize(v)] is [v / length(v)]. *)
Definition normalize (v : vec3) : option vec3 := vdiv v (length v).

(** [sqrt(x)] is undefined for [x < 0]. *)
Definition gsqrt (x : R) : option R :=
  if Rlt_dec x 0 then None else Some (sqrt x).

(** [pow(x, y)] is undefined for [x < 0] and for [x = 0], [y <= 0]. *)
Definition pow (x y : R) : option R :=
  if Rlt_dec x 0 then None
  else if Req_EM_T x 0 then (if Rlt_dec 0 y then Some 0 else None)
  else Some (Rpower x y).

(** [clamp(x, lo, hi) = min(max(x, lo), hi)]. *)
Definition clamp (x lo hi : R) : R := Rmin (Rmax x lo) hi.

(** [mix(a, b, t) = a * (1 - t) + b * t]. *)
Definition mix (a b t : R) : R := a * (1 - t) + b * t.
Definition vmix (a b : vec3) (t : R) : vec3 :=
  Vec3 (mix (vx a) (vx b) t) (mix (vy a) (vy b) t) (mix (vz a) (vz b) t).

(** [smoothstep(e0, e1, x)]: Hermite interpolation of the clamped ratio.
    Every call in the shaders has constant edges with [e0 < e1]. *)
Definition smoothstep (e0 e1 x : R) : R :=
  let t := clamp ((x - e0) / (e1 - e0)) 0 1 in
  t * t * (3 - 2 * t).

End Glsl.

(** ** Surface shader of [createEarthMaterial] *)

Module EarthMaterial.
Import Glsl.

(** Uniforms read by the fragment shader ([cameraPosition] is supplied
    by the renderer). *)
Record Uniforms := {
  useImagery : R;
  sunDirection : vec3;
  atmosphereDayColor : vec3;
  atmosphereTwilightColor : vec3;
  roughnessLow : R;
  roughnessHigh : R;
  atmosphereScale : R;
  hazeStrength : R;
  hazeFalloff : R;
  hazeMax : R;
  cameraPosition : vec3
}.

(** Per-fragment inputs: the four texture samples at [vUv], the
    varyings and the facing flag. *)
Record Fragment := {
  dayTexel : vec3;
  nightTexel : vec3;
  brcTexel : vec4;
  imageryTexel : vec3;
  vWorldNormal : vec3;
  vWorldPosition : vec3;
  gl_FrontFacing : bool
}.

(** Entry distance along ray to sphere (center at origin). *)
Definition raySphereEntryT (ro rd : vec3) (r : R) : option R :=
  let b := dot ro rd in
  let c := dot ro ro - r * r in
  let h := b * b - c in
  if Rle_dec h 0 then Some 0
  else
    s ← gsqrt h;
    let t := - b - s in
    Some (Rmax t 0).

(** Night-side attenuation of the haze. *)
Definition sunFactor (sunOrientation : R) : R :=
  0.25 + 0.75 * smoothstep (-0.15) 0.25 sunOrientation.

(** The values [main] computes, under the names it gives them; [haze]
    and [finalColor] hold their last assignment. *)
Record Locals := {
  cloudsStrength : R;
  baseColor : vec3;
  N : vec3;
  sunDir : vec3;
  sunOrientation : R;
  dayStrength : R;
  atmosphereMix : R;
  atmosphereColor : vec3;
  tSurface : R;
  rd : vec3;
  planetR : R;
  atmR : R;
  tEntry : R;
  pathLen : R;
  haze : R;
  viewDir : vec3;
  mu : R;
  horizon : R;
  finalColor : vec3;
  gl_FragColor : vec4
}.

Definition run (u : Uniforms) (f : Fragment) : option Locals :=
  let dayColor := dayTexel f in
  let nightColor := nightTexel f in
  let brc := brcTexel f in
  let imageryColor := imageryTexel f in
  let clouds := cb brc in
  let cloudsStrength := smoothstep 0.2 1 clouds in
  let actualDayColor := vmix dayColor imageryColor (useImagery u) in
  let baseColor := vmix actualDayColor (Vec3 1 1 1) (cloudsStrength * 2) in
  N0 ← normalize (vWorldNormal f);
  let N := if gl_FrontFacing f then N0 else vscale (-1) N0 in
  sunDir ← normalize (sunDirection u);
  let sunOrientation := dot N sunDir in
  let dayStrength := smoothstep (-0.25) 0.5 sunOrientation in
  let atmosphereMix := smoothstep (-0.25) 0.75 sunOrientation in
  let atmosphereColor :=
    vmix (atmosphereTwilightColor u) (atmosphereDayColor u) atmosphereMix in
  let finalColor0 := vmix nightColor baseColor dayStrength in
  let C := cameraPosition u in
  let toP := vsub (vWorldPosition f) C in
  let tSurface := length toP in
  rd ← vdiv toP (Rmax tSurface 1e-6);
  let planetR := length (vWorldPosition f) in
  let atmR := planetR * atmosphereScale u in
  tEntry ← raySphereEntryT C rd atmR;
  let pathLen := Rmax 0 (tSurface - tEntry) in
  q ← fdiv (- pathLen) (Rmax (hazeFalloff u) 1);
  let haze0 := 1 - exp q in
  let haze1 := haze0 * sunFactor sunOrientation in
  let haze := clamp (haze1 * hazeStrength u) 0 (hazeMax u) in
  let finalColor1 := vmix finalColor0 atmosphereColor haze in
  viewDir ← normalize (vsub C (vWorldPosition f));
  let mu := clamp (dot N viewDir) 0 1 in
  horizon ← pow (1 - mu) 2;
  let finalColor :=
    vadd finalColor1 (vscale (0.08 * horizon * haze) atmosphereColor) in
  Some {| cloudsStrength := cloudsStrength; baseColor := baseColor;
          N := N; sunDir := sunDir; sunOrientation := sunOrientation;
          dayStrength := dayStrength; atmosphereMix := atmosphereMix;
          atmosphereColor := atmosphereColor; tSurface := tSurface;
          rd := rd; planetR := planetR; atmR := atmR; tEntry := tEntry;
          pathLen := pathLen; haze := haze; viewDir := viewDir; mu := mu;
          horizon := horizon; finalColor := finalColor;
          gl_FragColor :=
            Vec4 (vx finalColor) (vy finalColor) (vz finalColor) 1 |}.

(** The fragment colour written by [main]. *)
Definition main (u : Uniforms) (f : Fragment) : option vec4 :=
  gl_FragColor <$> run u f.

(** [uniforms.hazeFalloff.value = x], the other uniforms unchanged. *)
Definition set_hazeFalloff (x : R) (u : Uniforms) : Uniforms :=
  {| useImagery := useImagery u; sunDirection := sunDirection u;
     atmosphereDayColor := atmosphereDayColor u;
     atmosphereTwilightColor := atmosphereTwilightColor u;
     roughnessLow := roughnessLow u; roughnessHigh := roughnessHigh u;
     atmosphereScale := atmosphereScale u; hazeStrength := hazeStrength u;
     hazeFalloff := x; hazeMax := hazeMax u;
     cameraPosition := cameraPosition u |}.

(** [uniforms.hazeMax.value = x], the other uniforms unchanged. *)
Definition set_hazeMax (x : R) (u : Uniforms) : Uniforms :=
  {| useImagery := useImagery u; sunDirection := sunDirection u;
     atmosphereDayColor := atmosphereDayColor u;
     atmosphereTwilightColor := atmosphereTwilightColor u;
     roughnessLow := roughnessLow u; roughnessHigh := roughnessHigh u;
     atmosphereScale := atmosphereScale u; hazeStrength := hazeStrength u;
     hazeFalloff := hazeFalloff u; hazeMax := x;
     cameraPosition := cameraPosition u |}.

(** The uniform values of a material built by [createEarthMaterial]
    with no option overridden, for the given colours, overlay flag,
    sun direction and camera position. *)
Definition defaultUniforms (day twilight : vec3) (useImagery : R)
    (sunDir camera : vec3) : Uniforms :=
  {| useImagery := useImagery; sunDirection := sunDir;
     atmosphereDayColor := day; atmosphereTwilightColor := twilight;
     roughnessLow := 0.25; roughnessHigh := 0.35;
     atmosphereScale := 1.04; hazeStrength := 0.85;
     hazeFalloff := 900000; hazeMax := 0.85;
     cameraPosition := camera |}.

(** A fragment seen from 1000 km above the surface, at the sub-solar
    point: planet of radius 6371000 m centred at the origin, camera,
    fragment and sun on the z axis. *)
Definition zenithFragment : Fragment :=
  {| dayTexel := Vec3 0.2 0.4 0.6;
     nightTexel := Vec3 0.05 0.05 0.1;
     brcTexel := Vec4 0.5 0.5 0.25 1;
     imageryTexel := Vec3 0 0 0;
     vWorldNormal := Vec3 0 0 1;
     vWorldPosition := Vec3 0 0 6371000;
     gl_FrontFacing := true |}.

Definition zenithUniforms : Uniforms :=
  defaultUniforms (Vec3 0.3 0.7 1) (Vec3 0.74 0.29 0.04) 0
                  (Vec3 0 0 1) (Vec3 0 0 7371000).

(** The same view with the sun light left at the origin. *)
Definition sunlessUniforms : Uniforms :=
  defaultUniforms (Vec3 0.3 0.7 1) (Vec3 0.74 0.29 0.04) 0
                  (Vec3 0 0 0) (Vec3 0 0 7371000).

End EarthMaterial.

(** ** Shell shader of [createAtmosphereMaterial] *)

Module AtmosphereMaterial.
Import Glsl.

Record Uniforms := {
  sunDirection : vec3;
  atmosphereDayColor : vec3;
  atmosphereTwilightColor : vec3;
  atmosphereScale : R;
  haloStrength : R;
  haloPower : R;
  heightFade : R;
  cameraPosition : vec3
}.

Record Fragment := {
  vWorldNormal : vec3;
  vWorldPosition : vec3;
  gl_FrontFacing : bool
}.

(** The uniform values of a material built by
    [createAtmosphereMaterial(colors, sunLight)], as the shader sees
    them in a frame: the two colours, the sun direction written by
    [onBeforeRender], the renderer's camera position, and the halo
    tuning constants of the factory. *)
Definition createAtmosphereMaterial
    (day twilight sunDir camera : vec3) : Uniforms :=
  {| sunDirection := sunDir;
     atmosphereDayColor := day;
     atmosphereTwilightColor := twilight;
     atmosphereScale := 1.04;
     haloStrength := 1.35;
     haloPower := 2.2;
     heightFade := 1400000;
     cameraPosition := camera |}.

(** Day/night factor applied to the halo alpha. *)
Definition nightFactor (sunOrientation : R) : R :=
  0.25 + 0.75 * smoothstep (-0.2) 0.25 sunOrientation.

(** The values [main] computes, under the names it gives them; [alpha]
    holds its last assignment, [alphaSum] its value before the
    day/night scaling. *)
Record Locals := {
  N : vec3;
  viewDir : vec3;
  sunDir : vec3;
  sunOrientation : R;
  atmosphereMix : R;
  atmosphereColor : vec3;
  fresnel : R;
  ring : R;
  topR : R;
  planetR : R;
  height : R;
  altFactor : R;
  density : R;
  sunSpot : R;
  alphaSum : R;
  alpha : R;
  gl_FragColor : vec4
}.

Definition run (u : Uniforms) (f : Fragment) : option Locals :=
  N0 ← normalize (vWorldNormal f);
  let N := if gl_FrontFacing f then N0 else vscale (-1) N0 in
  let C := cameraPosition u in
  viewDir ← normalize (vsub C (vWorldPosition f));
  sunDir ← normalize (sunDirection u);
  let sunOrientation := dot N sunDir in
  let atmosphereMix := smoothstep (-0.25) 0.75 sunOrientation in
  let atmosphereColor :=
    vmix (atmosphereTwilightColor u) (atmosphereDayColor u) atmosphereMix in
  let fresnel := 1 - Rabs (dot viewDir N) in
  ring ← pow (clamp fresnel 0 1) (haloPower u);
  let topR := length (vWorldPosition f) in
  planetR ← fdiv topR (Rmax (atmosphereScale u) 1e-6);
  let height := Rmax 0 (length C - planetR) in
  q ← fdiv (- height) (Rmax (heightFade u) 1);
  let altFactor := exp q in
  let density := mix 0.18 1 (clamp altFactor 0 1) in
  sunSpot ← pow (Rmax (dot (vneg viewDir) sunDir) 0) 10;
  let alpha0 := haloStrength u * density * ring in
  let alpha1 := alpha0 + 0.35 * sunSpot * ring in
  let alpha2 := alpha1 * nightFactor sunOrientation in
  let alpha := clamp alpha2 0 1 in
  Some {| N := N; viewDir := viewDir; sunDir := sunDir;
          sunOrientation := sunOrientation; atmosphereMix := atmosphereMix;
          atmosphereColor := atmosphereColor; fresnel := fresnel;
          ring := ring; topR := topR; planetR := planetR; height := height;
          altFactor := altFactor; density := density; sunSpot := sunSpot;
          alphaSum := alpha1; alpha := alpha;
          gl_FragColor :=
            Vec4 (vx atmosphereColor) (vy atmosphereColor)
                 (vz atmosphereColor) alpha |}.

(** The fragment colour written by [main]. *)
Definition main (u : Uniforms) (f : Fragment) : option vec4 :=
  gl_FragColor <$> run u f.

(** [uniforms.haloPower.value = x], the other uniforms unchanged. *)
Definition set_haloPower (x : R) (u : Uniforms) : Uniforms :=
  {| sunDirection := sunDirection u;
     atmosphereDayColor := atmosphereDayColor u;
     atmosphereTwilightColor := atmosphereTwilightColor u;
     atmosphereScale := atmosphereScale u;
     haloStrength := haloStrength u;
     haloPower := x;
     heightFade := heightFade u;
     cameraPosition := cameraPosition u |}.

(** The shell point on the z axis, radius 6371000 * 1.04, rendered from
    its back side. *)
Definition shellFragment : Fragment :=
  {| vWorldNormal := Vec3 0 0 1;
     vWorldPosition := Vec3 0 0 6625840;
     gl_FrontFacing := false |}.

(** Looking straight up at [shellFragment] from 29 km above the ground. *)
Definition overheadUniforms : Uniforms :=
  createAtmosphereMaterial (Vec3 0.3 0.7 1) (Vec3 0.74 0.29 0.04)
                           (Vec3 0 0 1) (Vec3 0 0 6400000).

(** Grazing view of [shellFragment] from 420486 m above the ground (the
    camera is 6791486 m from the centre), for a given sun direction. *)
Definition limbUniforms (sunDir : vec3) : Uniforms :=
  createAtmosphereMaterial (Vec3 0.3 0.7 1) (Vec3 0.74 0.29 0.04)
                           sunDir (Vec3 1490814 0 6625840).

End AtmosphereMaterial.

(** ** JavaScript [Date] and [Math] as the sun calculator uses them *)

Module Js.

(** A [Date] is its time value: whole milliseconds since the epoch, or
    [None] for an Invalid Date (time value NaN). *)
Definition Date := option Z.

(** ToIntegerOrInfinity on a finite number: truncation toward zero. *)
Definition trunc (x : R) : Z :=
  if Rle_dec 0 x then Int_part x else (- Int_part (- x))%Z.

(** TimeClip: out of range gives NaN, otherwise the truncation. *)
Definition TimeClip (x : R) : Date :=
  if Rlt_dec 8.64e15 (Rabs x) then None else Some (trunc x).

(** [new Date(number)] *)
Definition newDate (tv : option R) : Date := tv ≫= TimeClip.

(** [date.getTime()], [date.valueOf()] *)
Definition getTime (d : Date) : option R := IZR <$> d.

Definition msPerDay : Z := 86400000.
Definition msPerHour : Z := 3600000.
Definition msPerMinute : Z := 60000.
Definition msPerSecond : Z := 1000.

Definition getUTCHours (d : Date) : option Z :=
  (λ t, (t / msPerHour) mod 24)%Z <$> d.
Definition getUTCMinutes (d : Date) : option Z :=
  (λ t, (t / msPerMinute) mod 60)%Z <$> d.

(** [date.setUTCHours(hour, min, sec, ms)]: MakeDate(Day(t),
    MakeTime(hour, min, sec, ms)), clipped. *)
Definition setUTCHours (d : Date) (hour min sec ms : R) : Date :=
  t ← d;
  let time := (trunc hour * msPerHour + trunc min * msPerMinute
               + trunc sec * msPerSecond + trunc ms)%Z in
  TimeClip (IZR ((t / msPerDay) * msPerDay + time)).

(** [Math.asin]: NaN outside [-1, 1]. *)
Definition asin (x : R) : option R :=
  if Rle_dec (Rabs x) 1 then Some (Ratan.asin x) else None.

(** [Math.tan] as sine over cosine. *)
Definition tan (x : R) : option R := Glsl.fdiv (sin x) (cos x).

(** [Math.atan2(y, x)] on real arguments (no signed zero). *)
Definition atan2 (y x : R) : R :=
  if Rlt_dec 0 x then atan (y / x)
  else if Rlt_dec x 0 then
    (if Rle_dec 0 y then atan (y / x) + PI else atan (y / x) - PI)
  else if Rlt_dec 0 y then PI / 2
  else if Rlt_dec y 0 then - (PI / 2)
  else 0.

End Js.

(** ** [sun-calculator.js] *)

Module SunCalculator.
Import Glsl.

Definition RAD : R := PI / 180.
Definition DEG : R := 180 / PI.
Definition EARTH_OBLIQUITY : R := 23.4397 * RAD.
Definition J1970 : R := 2440588.
Definition J2000 : R := 2451545.

Definition toJulian (date : Js.Date) : option R :=
  v ← Js.getTime date; Some (v / 86400000 - 0.5 + J1970).

Definition toDays (date : Js.Date) : option R :=
  j ← toJulian date; Some (j - J2000).

Definition solarMeanAnomaly (days : R) : R :=
  (357.5291 + 0.98560028 * days) * RAD.

Definition equationOfCenter (M : R) : R :=
  (1.9148 * sin M + 0.0200 * sin (2 * M) + 0.0003 * sin (3 * M)) * RAD.

Definition eclipticLongitude (M : R) : R :=
  let C := equationOfCenter M in
  let P := 102.9372 * RAD in
  M + C + P + PI.

Definition solarDeclination (days : R) : option R :=
  let L := eclipticLongitude (solarMeanAnomaly days) in
  Js.asin (sin L * sin EARTH_OBLIQUITY).

Definition rightAscension (days : R) : R :=
  let L := eclipticLongitude (solarMeanAnomaly days) in
  Js.atan2 (sin L * cos EARTH_OBLIQUITY) (cos L).

Definition siderealTime (days lng : R) : R :=
  (280.16 + 360.9856235 * days) * RAD - lng.

Record SunPosition := {
  altitude : R;
  azimuth : R;
  declination : R
}.

Definition calculateSunPosition (date : Js.Date) (lat lng : R)
    : option SunPosition :=
  let lngRad := - lng * RAD in
  let phi := lat * RAD in
  days ← toDays date;
  dec ← solarDeclination days;
  let ra := rightAscension days in
  let lmst := siderealTime days lngRad in
  let H := lmst - ra in
  altitude ← Js.asin (sin phi * sin dec + cos phi * cos dec * cos H);
  tdec ← Js.tan dec;
  let azimuth := Js.atan2 (sin H) (cos H * sin phi - tdec * cos phi) in
  Some {| altitude := altitude; azimuth := azimuth; declination := dec |}.

(** [THREE.Vector3.normalize]: [divideScalar(length() || 1)]. *)
Definition normalize3 (v : vec3) : vec3 :=
  let l := length v in
  vscale (1 / (if Req_EM_T l 0 then 1 else l)) v.

Definition getSunDirectionVector (date : Js.Date) (lat lng : R)
    : option vec3 :=
  pos ← calculateSunPosition date lat lng;
  let x := cos (altitude pos) * sin (azimuth pos) in
  let y := sin (altitude pos) in
  let z := cos (altitude pos) * cos (azimuth pos) in
  Some (normalize3 (Vec3 (- x) y (- z))).

Definition getSimplifiedSunDirection (date : Js.Date) : option vec3 :=
  days ← toDays date;
  dec ← solarDeclination days;
  h ← Js.getUTCHours date;
  m ← Js.getUTCMinutes date;
  let hours := IZR h + IZR m / 60 in
  let hourAngle := (hours / 24) * PI * 2 - PI in
  let x := cos dec * sin hourAngle in
  let y := sin dec in
  let z := cos dec * cos hourAngle in
  Some (normalize3 (Vec3 x y z)).

(** [getSolarNoon(date, lng)]: 12:00 UTC of the date's day, moved by
    [(ra - lmst) / (2 * PI)] days. *)
Definition getSolarNoon (date : Js.Date) (lng : R) : Js.Date :=
  days ← toDays date;
  let lngRad := - lng * RAD in
  let ra := rightAscension days in
  let lmst := siderealTime days lngRad in
  let noonOffset := (ra - lmst) / (2 * PI) in
  let noon := Js.setUTCHours date 12 0 0 0 in
  Js.newDate (t ← Js.getTime noon;
              Some (t + noonOffset * 24 * 60 * 60 * 1000)).

End SunCalculator.

(** ** [lighting-system.js] *)

Module LightingSystem.
Import Glsl.

(** The controller's fields.  The two lights are kept by what the
    class reads and writes of them: the sun's position ([None] when
    its components are NaN) and the two intensities.  [currentDate] is
    kept by its time value; that the [Date] object may also be held by
    the caller is not part of this model. *)
Record t := {
  planetRadius : R;
  sunDistance : R;
  sun_position : option vec3;
  sun_intensity : R;
  currentDate : Js.Date;
  useSimplified : bool;
  latitude : R;
  longitude : R;
  timeSpeed : R;
  lastUpdateTime : R;
  ambient_intensity : R
}.

(** [new LightingSystem(scene, planetRadius, sunDistance)], with the
    wall-clock readings [now = new Date()] and
    [perf = performance.now()]. *)
Definition constructor (planetRadius sunDistance : R) (now : Js.Date)
    (perf : R) : t :=
  {| planetRadius := planetRadius;
     sunDistance := sunDistance;
     sun_position := Some (Vec3 0 0 sunDistance);
     sun_intensity := 4;
     currentDate := now;
     useSimplified := true;
     latitude := 0;
     longitude := 0;
     timeSpeed := 0;
     lastUpdateTime := perf;
     ambient_intensity := 0.15 |}.

Definition set_currentDate (d : Js.Date) (s : t) : t :=
  {| planetRadius := planetRadius s; sunDistance := sunDistance s;
     sun_position := sun_position s; sun_intensity := sun_intensity s;
     currentDate := d; useSimplified := useSimplified s;
     latitude := latitude s; longitude := longitude s;
     timeSpeed := timeSpeed s; lastUpdateTime := lastUpdateTime s;
     ambient_intensity := ambient_intensity s |}.

Definition set_sun_position (p : option vec3) (s : t) : t :=
  {| planetRadius := planetRadius s; sunDistance := sunDistance s;
     sun_position := p; sun_intensity := sun_intensity s;
     currentDate := currentDate s; useSimplified := useSimplified s;
     latitude := latitude s; longitude := longitude s;
     timeSpeed := timeSpeed s; lastUpdateTime := lastUpdateTime s;
     ambient_intensity := ambient_intensity s |}.

Definition set_useSimplified (b : bool) (s : t) : t :=
  {| planetRadius := planetRadius s; sunDistance := sunDistance s;
     sun_position := sun_position s; sun_intensity := sun_intensity s;
     currentDate := currentDate s; useSimplified := b;
     latitude := latitude s; longitude := longitude s;
     timeSpeed := timeSpeed s; lastUpdateTime := lastUpdateTime s;
     ambient_intensity := ambient_intensity s |}.

Definition set_location (lat lng : R) (s : t) : t :=
  {| planetRadius := planetRadius s; sunDistance := sunDistance s;
     sun_position := sun_position s; sun_intensity := sun_intensity s;
     currentDate := currentDate s; useSimplified := useSimplified s;
     latitude := lat; longitude := lng;
     timeSpeed := timeSpeed s; lastUpdateTime := lastUpdateTime s;
     ambient_intensity := ambient_intensity s |}.

Definition set_timeSpeed (v : R) (s : t) : t :=
  {| planetRadius := planetRadius s; sunDistance := sunDistance s;
     sun_position := sun_position s; sun_intensity := sun_intensity s;
     currentDate := currentDate s; useSimplified := useSimplified s;
     latitude := latitude s; longitude := longitude s;
     timeSpeed := v; lastUpdateTime := lastUpdateTime s;
     ambient_intensity := ambient_intensity s |}.

Definition set_sun_intensity (v : R) (s : t) : t :=
  {| planetRadius := planetRadius s; sunDistance := sunDistance s;
     sun_position := sun_position s; sun_intensity := v;
     currentDate := currentDate s; useSimplified := useSimplified s;
     latitude := latitude s; longitude := longitude s;
     timeSpeed := timeSpeed s; lastUpdateTime := lastUpdateTime s;
     ambient_intensity := ambient_intensity s |}.

Definition set_ambient_intensity (v : R) (s : t) : t :=
  {| planetRadius := planetRadius s; sunDistance := sunDistance s;
     sun_position := sun_position s; sun_intensity := sun_intensity s;
     currentDate := currentDate s; useSimplified := useSimplified s;
     latitude := latitude s; longitude := longitude s;
     timeSpeed := timeSpeed s; lastUpdateTime := lastUpdateTime s;
     ambient_intensity := v |}.

(** The direction the active model gives for the state's date. *)
Definition direction (s : t) : option vec3 :=
  if useSimplified s then
    SunCalculator.getSimplifiedSunDirection (currentDate s)
  else
    SunCalculator.getSunDirectionVector
      (currentDate s) (latitude s) (longitude s).

(** [updateSunPosition(date = null)]: [date] is [None] when the
    argument is absent or null; a [Date] object is always truthy. *)
Definition updateSunPosition (date : option Js.Date) (s : t) : t :=
  let s1 := match date with
            | Some d => set_currentDate d s
            | None => s
            end in
  set_sun_position (vscale (sunDistance s1) <$> direction s1) s1.

Definition setTimeOfDay (hours minutes : R) (s : t) : t :=
  updateSunPosition None
    (set_currentDate (Js.setUTCHours (currentDate s) hours minutes 0 0) s).

Definition setDate (date : Js.Date) (s : t) : t :=
  updateSunPosition None (set_currentDate date s).

Definition setLocation (lat lng : R) (s : t) : t :=
  updateSunPosition None (set_useSimplified false (set_location lat lng s)).

Definition setSimplifiedMode (enabled : bool) (s : t) : t :=
  updateSunPosition None (set_useSimplified enabled s).

Definition setTimeSpeed (speed : R) (s : t) : t := set_timeSpeed speed s.

Definition update (deltaTime : R) (s : t) : t :=
  if Req_EM_T (timeSpeed s) 0 then s
  else
    let millisecondsElapsed := deltaTime * 1000 * timeSpeed s in
    let d := Js.newDate (t ← Js.getTime (currentDate s);
                         Some (t + millisecondsElapsed)) in
    updateSunPosition None (set_currentDate d s).

Definition setIntensity (intensity : R) (s : t) : t :=
  set_sun_intensity intensity s.

Definition setAmbientIntensity (intensity : R) (s : t) : t :=
  set_ambient_intensity intensity s.

(** [getSunDirection()]: the normalised sun position. *)
Definition getSunDirection (s : t) : option vec3 :=
  SunCalculator.normalize3 <$> sun_position s.

Record TimeInfo := {
  date : Js.Date;
  hours : option Z;
  minutes : option Z;
  timeOfDay : option R
}.

Definition getTimeInfo (s : t) : TimeInfo :=
  {| date := currentDate s;
     hours := Js.getUTCHours (currentDate s);
     minutes := Js.getUTCMinutes (currentDate s);
     timeOfDay :=
       h ← Js.getUTCHours (currentDate s);
       m ← Js.getUTCMinutes (currentDate s);
       Some (IZR h + IZR m / 60) |}.

(** The states a controller goes through: the constructor's, followed
    by calls of its methods. *)
Inductive reachable : t → Prop :=
| reach_constructor (planetRadius sunDistance : R) (now : Js.Date) (perf : R) :
    reachable (constructor planetRadius sunDistance now perf)
| reach_updateSunPosition (date : option Js.Date) (s : t) :
    reachable s → reachable (updateSunPosition date s)
| reach_setTimeOfDay (hours minutes : R) (s : t) :
    reachable s → reachable (setTimeOfDay hours minutes s)
| reach_setDate (date : Js.Date) (s : t) :
    reachable s → reachable (setDate date s)
| reach_setLocation (lat lng : R) (s : t) :
    reachable s → reachable (setLocation lat lng s)
| reach_setSimplifiedMode (enabled : bool) (s : t) :
    reachable s → reachable (setSimplifiedMode enabled s)
| reach_setTimeSpeed (speed : R) (s : t) :
    reachable s → reachable (setTimeSpeed speed s)
| reach_update (deltaTime : R) (s : t) :
    reachable s → reachable (update deltaTime s)
| reach_setIntensity (intensity : R) (s : t) :
    reachable s → reachable (setIntensity intensity s)
| reach_setAmbientIntensity (intensity : R) (s : t) :
    reachable s → reachable (setAmbientIntensity intensity s).

End LightingSystem.

(** ** The uniform objects of [createEarthMaterial] and [clone]

    JavaScript objects live in a store: a uniform holder [{ value: v }]
    and a [THREE.Vector3] are objects with an identity, so that two
    uniform tables can hold the very same holder. *)

Module MaterialFactory.
Import Glsl.

Definition loc := positive.
Definition Texture := string.

Inductive value :=
| Null
| Num (x : R)
| Tex (t : Texture)
| Ref (l : loc).

Inductive object :=
| Holder (v : value)
| Vector3 (v : vec3).

(** Store-passing computations; [None] is a thrown TypeError. *)
Definition JS (A : Type) : Type :=
  gmap loc object → option (A * gmap loc object).

#[export] Instance JS_ret : MRet JS := λ A a h, Some (a, h).
#[export] Instance JS_bind : MBind JS := λ A B f m h,
  match m h with
  | Some (a, h') => f a h'
  | None => None
  end.

(** Allocation of a new object. *)
Definition new (o : object) : JS loc := λ h,
  let l := fresh (dom h) in Some (l, <[l := o]> h).

(** [{ value: v }] *)
Definition holder (v : value) : JS loc := new (Holder v).

(** [new THREE.Vector3(x, y, z)] behind a reference. *)
Definition newVector3 (v : vec3) : JS value :=
  l ← new (Vector3 v); mret (Ref l).

(** [o.k] where the result is used as an object. *)
Definition prop (o : gmap string loc) (k : string) : JS loc := λ h,
  (λ l, (l, h)) <$> o !! k.

(** [l.value] *)
Definition get_value (l : loc) : JS value := λ h,
  match h !! l with
  | Some (Holder v) => Some (v, h)
  | _ => None
  end.

(** [l.value = v] *)
Definition set_value (l : loc) (v : value) : JS unit := λ h,
  match h !! l with
  | Some (Holder _) => Some ((), <[l := Holder v]> h)
  | _ => None
  end.

(** [v.copy(p).normalize()] on a [THREE.Vector3] reference. *)
Definition copy_normalize (v : value) (p : vec3) : JS unit := λ h,
  match v with
  | Ref l =>
      match h !! l with
      | Some (Vector3 _) =>
          Some ((), <[l := Vector3 (SunCalculator.normalize3 p)]> h)
      | _ => None
      end
  | _ => None
  end.

(** JavaScript truthiness of a texture argument. *)
Definition truthy (v : value) : bool :=
  match v with
  | Null => false
  | Num x => if Req_EM_T x 0 then false else true
  | Tex _ => true
  | Ref _ => true
  end.

Inductive Side := FrontSide | BackSide | DoubleSide.

(** A [THREE.ShaderMaterial] made by this factory: its uniform table
    (also exposed as [userData.uniforms]), its side, and the uniform
    tables captured by the closures stored on it: the one [clone]
    copies from, and the one [onBeforeRender] writes the sun direction
    to (absent on a clone, whose [onBeforeRender] is the default). *)
Record Material := {
  uniforms : gmap string loc;
  side : Side;
  clone_uniforms : gmap string loc;
  render_uniforms : option (gmap string loc)
}.

Record Textures := {
  day : value;
  night : value;
  bumpRoughnessClouds : value
}.

(** [options] after destructuring: the two colours as the
    [THREE.Color] the factory ends up with (the caller's, or the parsed
    default), the scalars as given or absent. *)
Record Options := {
  atmosphereDayColor : vec3;
  atmosphereTwilightColor : vec3;
  roughnessLow : option R;
  roughnessHigh : option R;
  atmosphereScale : option R;
  hazeStrength : option R;
  hazeFalloff : option R;
  hazeMax : option R
}.

Definition createEarthMaterial (textures : Textures) (options : Options)
    : JS Material :=
  dayTexture ← holder (day textures);
  nightTexture ← holder (night textures);
  bumpRoughnessCloudsTexture ← holder (bumpRoughnessClouds textures);
  imageryTexture ← holder Null;
  useImagery ← holder (Num 0);
  v ← newVector3 (Vec3 0 0 0);
  sunDirection ← holder v;
  v ← newVector3 (atmosphereDayColor options);
  atmosphereDayColor ← holder v;
  v ← newVector3 (atmosphereTwilightColor options);
  atmosphereTwilightColor ← holder v;
  roughnessLow ← holder (Num (default 0.25 (roughnessLow options)));
  roughnessHigh ← holder (Num (default 0.35 (roughnessHigh options)));
  atmosphereScale ← holder (Num (default 1.04 (atmosphereScale options)));
  hazeStrength ← holder (Num (default 0.85 (hazeStrength options)));
  hazeFalloff ← holder (Num (default 900000 (hazeFalloff options)));
  hazeMax ← holder (Num (default 0.85 (hazeMax options)));
  let uniforms : gmap string loc :=
    list_to_map
      [("dayTexture", dayTexture);
       ("nightTexture", nightTexture);
       ("bumpRoughnessCloudsTexture", bumpRoughnessCloudsTexture);
       ("imageryTexture", imageryTexture);
       ("useImagery", useImagery);
       ("sunDirection", sunDirection);
       ("atmosphereDayColor", atmosphereDayColor);
       ("atmosphereTwilightColor", atmosphereTwilightColor);
       ("roughnessLow", roughnessLow);
       ("roughnessHigh", roughnessHigh);
       ("atmosphereScale", atmosphereScale);
       ("hazeStrength", hazeStrength);
       ("hazeFalloff", hazeFalloff);
       ("hazeMax", hazeMax)] in
  mret {| uniforms := uniforms;
          side := DoubleSide;
          clone_uniforms := uniforms;
          render_uniforms := Some uniforms |}.

(** [{ value: uniforms.k.value }] *)
Definition copy_holder (uniforms : gmap string loc) (k : string) : JS loc :=
  l ← prop uniforms k;
  v ← get_value l;
  holder v.

(** [material.clone]: [uniforms] is the table of the closure, [this]
    the material the method is called on. *)
Definition clone (this : Material) : JS Material :=
  let uniforms := clone_uniforms this in
  dayTexture ← copy_holder uniforms "dayTexture";
  nightTexture ← copy_holder uniforms "nightTexture";
  bumpRoughnessCloudsTexture ←
    copy_holder uniforms "bumpRoughnessCloudsTexture";
  imageryTexture ← holder Null;
  useImagery ← holder (Num 0);
  sunDirection ← prop uniforms "sunDirection";
  atmosphereDayColor ← prop uniforms "atmosphereDayColor";
  atmosphereTwilightColor ← prop uniforms "atmosphereTwilightColor";
  roughnessLow ← copy_holder uniforms "roughnessLow";
  roughnessHigh ← copy_holder uniforms "roughnessHigh";
  let clonedUniforms : gmap string loc :=
    list_to_map
      [("dayTexture", dayTexture);
       ("nightTexture", nightTexture);
       ("bumpRoughnessCloudsTexture", bumpRoughnessCloudsTexture);
       ("imageryTexture", imageryTexture);
       ("useImagery", useImagery);
       ("sunDirection", sunDirection);
       ("atmosphereDayColor", atmosphereDayColor);
       ("atmosphereTwilightColor", atmosphereTwilightColor);
       ("roughnessLow", roughnessLow);
       ("roughnessHigh", roughnessHigh)] in
  mret {| uniforms := clonedUniforms;
          side := side this;
          clone_uniforms := uniforms;
          render_uniforms := None |}.

(** The [map] accessor pair defined on a material and on its clones. *)
Definition get_map (m : Material) : JS value :=
  l ← prop (uniforms m) "imageryTexture";
  get_value l.

Definition set_map (m : Material) (texture : value) : JS unit :=
  l ← prop (uniforms m) "imageryTexture";
  _ ← set_value l texture;
  l ← prop (uniforms m) "useImagery";
  set_value l (Num (if truthy texture then 1 else 0)).

(** [material.onBeforeRender()], reading [sunLight.position]. *)
Definition onBeforeRender (m : Material) (sunPosition : vec3) : JS unit :=
  match render_uniforms m with
  | None => mret ()
  | Some uniforms =>
      l ← prop uniforms "sunDirection";
      v ← get_value l;
      copy_normalize v sunPosition
  end.

(** The scalar entries of [updates]; an absent entry is [undefined].
    The two colour entries are not part of this model. *)
Record Updates := {
  upd_roughnessLow : option R;
  upd_roughnessHigh : option R;
  upd_atmosphereScale : option R;
  upd_hazeStrength : option R;
  upd_hazeFalloff : option R;
  upd_hazeMax : option R
}.

(** [if (x !== undefined) uniforms.k.value = x] *)
Definition assign (uniforms : gmap string loc) (k : string) (x : option R)
    : JS unit :=
  match x with
  | None => mret ()
  | Some x => l ← prop uniforms k; set_value l (Num x)
  end.

Definition updateEarthMaterialUniforms (material : Material)
    (updates : Updates) : JS unit :=
  let uniforms := uniforms material in
  _ ← assign uniforms "roughnessLow" (upd_roughnessLow updates);
  _ ← assign uniforms "roughnessHigh" (upd_roughnessHigh updates);
  _ ← assign uniforms "atmosphereScale" (upd_atmosphereScale updates);
  _ ← assign uniforms "hazeStrength" (upd_hazeStrength updates);
  _ ← assign uniforms "hazeFalloff" (upd_hazeFalloff updates);
  assign uniforms "hazeMax" (upd_hazeMax updates).

(** [material.uniforms.k.value], as the renderer reads it. *)
Definition uniform_value (m : Material) (k : string) : JS value :=
  l ← prop (uniforms m) k;
  get_value l.

(** The names of the shading parameters held in the uniform table,
    the overlay slot ([imageryTexture], [useImagery]) apart. *)
Definition shading_parameters : list string :=
  ["dayTexture"; "nightTexture"; "bumpRoughnessCloudsTexture";
   "sunDirection"; "atmosphereDayColor"; "atmosphereTwilightColor";
   "roughnessLow"; "roughnessHigh"; "atmosphereScale"; "hazeStrength";
   "hazeFalloff"; "hazeMax"].

(** The entries [clone] takes over as the very same holder, and the
    entries it copies by value into a holder of its own. *)
Definition shared_uniforms : list string :=
  ["sunDirection"; "atmosphereDayColor"; "atmosphereTwilightColor"].

Definition copied_uniforms : list string :=
  ["dayTexture"; "nightTexture"; "bumpRoughnessCloudsTexture";
   "roughnessLow"; "roughnessHigh"].

(** Sample arguments of the factory. *)
Definition sampleTextures : Textures :=
  {| day := Tex "earth_day_4096.jpg";
     night := Tex "earth_night_4096.jpg";
     bumpRoughnessClouds := Tex "earth_bump_roughness_clouds_4096.jpg" |}.

Definition sampleOptions : Options :=
  {| atmosphereDayColor := Vec3 0.3 0.7 1;
     atmosphereTwilightColor := Vec3 0.74 0.29 0.04;
     roughnessLow := None; roughnessHigh := None;
     atmosphereScale := None; hazeStrength := None;
     hazeFalloff := None; hazeMax := None |}.

(** [{ roughnessLow: x }] *)
Definition roughnessLowUpdate (x : R) : Updates :=
  {| upd_roughnessLow := Some x; upd_roughnessHigh := None;
     upd_atmosphereScale := None; upd_hazeStrength := None;
     upd_hazeFalloff := None; upd_hazeMax := None |}.

(** [v.x, v.y, v.z] of a [THREE.Vector3] reference. *)
Definition get_vector (v : value) : JS vec3 := λ h,
  match v with
  | Ref l =>
      match h !! l with
      | Some (Vector3 p) => Some (p, h)
      | _ => None
      end
  | _ => None
  end.

(** A base material and a per-tile clone; the base then gets a new
    [roughnessLow], and both materials are read back. *)
Definition roughnessScenario : JS (value * value) :=
  base ← createEarthMaterial sampleTextures sampleOptions;
  tile ← clone base;
  _ ← updateEarthMaterialUniforms base (roughnessLowUpdate 0.9);
  b ← uniform_value base "roughnessLow";
  t ← uniform_value tile "roughnessLow";
  mret (b, t).

(** A base material and a per-tile clone; the base is rendered with the
    sun light at the given position, and the sun direction is read back
    through the clone. *)
Definition sunScenario (sunPosition : vec3) : JS vec3 :=
  base ← createEarthMaterial sampleTextures sampleOptions;
  tile ← clone base;
  _ ← onBeforeRender base sunPosition;
  v ← uniform_value tile "sunDirection";
  get_vector v.

(** A base material and a per-tile clone; the clone gets an imagery
    texture through its [map] setter, and the overlay slots of both
    materials are read back. *)
Definition overlayScenario : JS (value * value * value * value) :=
  base ← createEarthMaterial sampleTextures sampleOptions;
  tile ← clone base;
  _ ← set_map tile (Tex "tile_12_654_1583.png");
  mb ← get_map base;
  mt ← get_map tile;
  ub ← uniform_value base "useImagery";
  ut ← uniform_value tile "useImagery";
  mret (mb, mt, ub, ut).

End MaterialFactory.

(** ** [texture-loader.js]

    A load that resolves is [Some], a rejected one is [None]; which
    URLs resolve, and to what, is given by the environment [fetch]. *)

Module TextureLoader.

Inductive ColorSpace := NoColorSpace | SRGBColorSpace | LinearSRGBColorSpace.

(** What a texture shows: a file, a filled canvas, or a byte array. *)
Inductive Image :=
| File (url : string)
| Canvas (width height : Z) (fillStyle : string)
| DataArray (data : list Z) (width height : Z).

(** The texture fields this module writes. *)
Record Texture := {
  image : Image;
  colorSpace : ColorSpace;
  anisotropy : Z;
  wrapS : Z;
  wrapT : Z;
  minFilter : Z;
  magFilter : Z;
  needsUpdate : bool
}.

(** The [options] of [loadTexture]; an absent entry is [None]. *)
Record Options := {
  opt_colorSpace : option string;
  opt_anisotropy : option Z;
  opt_wrapS : option Z;
  opt_wrapT : option Z;
  opt_minFilter : option Z;
  opt_magFilter : option Z
}.

Definition noOptions : Options :=
  {| opt_colorSpace := None; opt_anisotropy := None; opt_wrapS := None;
     opt_wrapT := None; opt_minFilter := None; opt_magFilter := None |}.

(** [if (options.k) texture.k = options.k] for a numeric entry: absent
    and 0 are falsy. *)
Definition pick (o : option Z) (current : Z) : Z :=
  match o with
  | Some v => if Z.eqb v 0 then current else v
  | None => current
  end.

(** The [onLoad] callback of [loadTexture]. *)
Definition configure (options : Options) (texture : Texture) : Texture :=
  {| image := image texture;
     colorSpace :=
       match opt_colorSpace options with
       | Some c =>
           if String.eqb c "" then colorSpace texture
           else if String.eqb c "srgb" then SRGBColorSpace
           else LinearSRGBColorSpace
       | None => colorSpace texture
       end;
     anisotropy := pick (opt_anisotropy options) (anisotropy texture);
     wrapS := pick (opt_wrapS options) (wrapS texture);
     wrapT := pick (opt_wrapT options) (wrapT texture);
     minFilter := pick (opt_minFilter options) (minFilter texture);
     magFilter := pick (opt_magFilter options) (magFilter texture);
     needsUpdate := needsUpdate texture |}.

Definition loadTexture (fetch : string → option Texture) (url : string)
    (options : Options) : option Texture :=
  texture ← fetch url;
  Some (configure options texture).

Record EarthTextures := {
  day : Texture;
  night : Texture;
  bumpRoughnessClouds : Texture
}.

Definition srgb8 : Options :=
  {| opt_colorSpace := Some "srgb"; opt_anisotropy := Some 8%Z;
     opt_wrapS := None; opt_wrapT := None;
     opt_minFilter := None; opt_magFilter := None |}.

Definition linear8 : Options :=
  {| opt_colorSpace := Some "linear"; opt_anisotropy := Some 8%Z;
     opt_wrapS := None; opt_wrapT := None;
     opt_minFilter := None; opt_magFilter := None |}.

Definition dayUrl (basePath resolution : string) : string :=
  (basePath ++ "earth_day_" ++ resolution ++ ".jpg")%string.
Definition nightUrl (basePath resolution : string) : string :=
  (basePath ++ "earth_night_" ++ resolution ++ ".jpg")%string.
Definition bumpUrl (basePath resolution : string) : string :=
  (basePath ++ "earth_bump_roughness_clouds_" ++ resolution ++ ".jpg")%string.

(** [loadEarthTextures]: the three loads of [Promise.all]. *)
Definition loadEarthTextures (fetch : string → option Texture)
    (basePath resolution : string) : option EarthTextures :=
  d ← loadTexture fetch (dayUrl basePath resolution) srgb8;
  n ← loadTexture fetch (nightUrl basePath resolution) srgb8;
  b ← loadTexture fetch (bumpUrl basePath resolution) linear8;
  Some {| day := d; night := n; bumpRoughnessClouds := b |}.

(** The loop of [createDataTexture]: [fuel] bounds the number of
    iterations, [i] is the loop index. *)
Fixpoint fillRGB (fuel i : nat) (r g b : Z) (data : list Z) : list Z :=
  match fuel with
  | O => data
  | S fuel' =>
      if Nat.ltb i (List.length data) then
        fillRGB fuel' (i + 3) r g b
          (<[(i + 2)%nat := (b mod 256)%Z]>
             (<[(i + 1)%nat := (g mod 256)%Z]>
                (<[i := (r mod 256)%Z]> data)))
      else data
  end.

(** [new Uint8Array(n)] filled by the loop. *)
Definition rgbData (n : nat) (r g b : Z) : list Z :=
  fillRGB n 0 r g b (replicate n 0%Z).

Section Fallback.
(** [new THREE.CanvasTexture(canvas)] and [new THREE.DataTexture(...)]
    before this module touches them. *)
Variable newTexture : Image → Texture.

Definition createColorTexture (color : string) : Texture :=
  let texture := newTexture (Canvas 512 512 color) in
  {| image := image texture; colorSpace := SRGBColorSpace;
     anisotropy := anisotropy texture; wrapS := wrapS texture;
     wrapT := wrapT texture; minFilter := minFilter texture;
     magFilter := magFilter texture; needsUpdate := needsUpdate texture |}.

Definition createDataTexture (r g b : Z) : Texture :=
  let size := 512%nat in
  let data := rgbData (size * size * 3) r g b in
  let texture := newTexture (DataArray data 512 512) in
  {| image := image texture; colorSpace := colorSpace texture;
     anisotropy := anisotropy texture; wrapS := wrapS texture;
     wrapT := wrapT texture; minFilter := minFilter texture;
     magFilter := magFilter texture; needsUpdate := true |}.

Definition createFallbackTextures : EarthTextures :=
  {| day := createColorTexture "#4488aa";
     night := createColorTexture "#0a0a0a";
     bumpRoughnessClouds := createDataTexture 128 180 0 |}.

Record LoadedTextures := {
  textures : EarthTextures;
  usingFallback : bool
}.

Definition loadEarthTexturesWithFallback (fetch : string → option Texture)
    (basePath resolution : string) : LoadedTextures :=
  match loadEarthTextures fetch basePath resolution with
  | Some t => {| textures := t; usingFallback := false |}
  | None => {| textures := createFallbackTextures; usingFallback := true |}
  end.

End Fallback.

(** [Promise.all(urls.map(url => loadTexture(url)))] *)
Definition preloadTextures (fetch : string → option Texture)
    (urls : list string) : option (list Texture) :=
  mapM (λ url, loadTexture fetch url noOptions) urls.

(** [x || d] on numbers: absent and 0 are falsy. *)
Definition orDefault (x : option R) (d : R) : R :=
  match x with
  | Some v => if Req_EM_T v 0 then d else v
  | None => d
  end.

(** [x >= y] *)
Definition geb (x y : R) : bool := if Rle_dec y x then true else false.

(** [getRecommendedResolution]: [maxTextureSize] is
    [renderer.capabilities?.maxTextureSize], [devicePixelRatio] the
    window's. *)
Definition getRecommendedResolution (maxTextureSize devicePixelRatio : option R)
    : string :=
  let maxTextureSize := orDefault maxTextureSize 4096 in
  let pixelRatio := orDefault devicePixelRatio 1 in
  if geb maxTextureSize 8192 && geb pixelRatio 2 then "8k"
  else if geb maxTextureSize 4096 then "4096"
  else "2k".

End TextureLoader.

(** ** Further views used as examples *)

Module Views.
Import Glsl.

(** The zenith view with the surface haze switched off. *)
Definition hazelessUniforms : EarthMaterial.Uniforms :=
  {| EarthMaterial.useImagery := 0;
     EarthMaterial.sunDirection := Vec3 0 0 1;
     EarthMaterial.atmosphereDayColor := Vec3 0.3 0.7 1;
     EarthMaterial.atmosphereTwilightColor := Vec3 0.74 0.29 0.04;
     EarthMaterial.roughnessLow := 0.25;
     EarthMaterial.roughnessHigh := 0.35;
     EarthMaterial.atmosphereScale := 1.04;
     EarthMaterial.hazeStrength := 0;
     EarthMaterial.hazeFalloff := 900000;
     EarthMaterial.hazeMax := 0.85;
     EarthMaterial.cameraPosition := Vec3 0 0 7371000 |}.

(** The zenith fragment under full cloud cover. *)
Definition overcastFragment : EarthMaterial.Fragment :=
  {| EarthMaterial.dayTexel := Vec3 0.2 0.4 0.6;
     EarthMaterial.nightTexel := Vec3 0.05 0.05 0.1;
     EarthMaterial.brcTexel := Vec4 0.5 0.5 1 1;
     EarthMaterial.imageryTexel := Vec3 0 0 0;
     EarthMaterial.vWorldNormal := Vec3 0 0 1;
     EarthMaterial.vWorldPosition := Vec3 0 0 6371000;
     EarthMaterial.gl_FrontFacing := true |}.

(** A texture as built around an image, every other field at the
    default of [THREE.Texture]. *)
Definition plainTexture (i : TextureLoader.Image) : TextureLoader.Texture :=
  {| TextureLoader.image := i;
     TextureLoader.colorSpace := TextureLoader.NoColorSpace;
     TextureLoader.anisotropy := 1;
     TextureLoader.wrapS := 1001;
     TextureLoader.wrapT := 1001;
     TextureLoader.minFilter := 1008;
     TextureLoader.magFilter := 1006;
     TextureLoader.needsUpdate := false |}.

End Views.

(** ** The earlier shaders of [earth/modules/earth-material.js] *)

(** Surface shader without haze.  Its inputs per fragment are those of
    the later version. *)
Module LegacyEarthMaterial.
Import Glsl.

Record Uniforms := {
  useImagery : R;
  sunDirection : vec3;
  atmosphereDayColor : vec3;
  atmosphereTwilightColor : vec3;
  roughnessLow : R;
  roughnessHigh : R
}.

Record Locals := {
  cloudsStrength : R;
  baseColor : vec3;
  normalizedSunDir : vec3;
  N : vec3;
  sunOrientation : R;
  dayStrength : R;
  finalColor : vec3;
  gl_FragColor : vec4
}.

Definition run (u : Uniforms) (f : EarthMaterial.Fragment) : option Locals :=
  let dayColor := EarthMaterial.dayTexel f in
  let nightColor := EarthMaterial.nightTexel f in
  let bumpRoughnessClouds := EarthMaterial.brcTexel f in
  let imageryColor := EarthMaterial.imageryTexel f in
  let clouds := cb bumpRoughnessClouds in
  let cloudsStrength := smoothstep 0.2 1 clouds in
  let actualDayColor := vmix dayColor imageryColor (useImagery u) in
  let baseColor := vmix actualDayColor (Vec3 1 1 1) (cloudsStrength * 2) in
  normalizedSunDir ← normalize (sunDirection u);
  N0 ← normalize (EarthMaterial.vWorldNormal f);
  let N := if EarthMaterial.gl_FrontFacing f then N0 else vscale (-1) N0 in
  let sunOrientation := dot N normalizedSunDir in
  let dayStrength := smoothstep (-0.25) 0.5 sunOrientation in
  let finalColor := vmix nightColor baseColor dayStrength in
  Some {| cloudsStrength := cloudsStrength; baseColor := baseColor;
          normalizedSunDir := normalizedSunDir; N := N;
          sunOrientation := sunOrientation; dayStrength := dayStrength;
          finalColor := finalColor;
          gl_FragColor :=
            Vec4 (vx finalColor) (vy finalColor) (vz finalColor) 1 |}.

Definition main (u : Uniforms) (f : EarthMaterial.Fragment) : option vec4 :=
  gl_FragColor <$> run u f.

(** The uniforms the two versions have in common. *)
Definition common (u : EarthMaterial.Uniforms) : Uniforms :=
  {| useImagery := EarthMaterial.useImagery u;
     sunDirection := EarthMaterial.sunDirection u;
     atmosphereDayColor := EarthMaterial.atmosphereDayColor u;
     atmosphereTwilightColor := EarthMaterial.atmosphereTwilightColor u;
     roughnessLow := EarthMaterial.roughnessLow u;
     roughnessHigh := EarthMaterial.roughnessHigh u |}.

End LegacyEarthMaterial.

(** Shell shader with the remapped fresnel alpha. *)
Module LegacyAtmosphereMaterial.
Import Glsl.

Record Uniforms := {
  sunDirection : vec3;
  atmosphereDayColor : vec3;
  atmosphereTwilightColor : vec3;
  cameraPosition : vec3
}.

Record Locals := {
  N : vec3;
  normalizedSunDir : vec3;
  sunOrientation : R;
  atmosphereMix : R;
  atmosphereColor : vec3;
  viewDirection : vec3;
  fresnel : R;
  fresnelRemapped : R;
  alpha : R;
  gl_FragColor : vec4
}.

Definition run (u : Uniforms) (f : AtmosphereMaterial.Fragment)
    : option Locals :=
  N0 ← normalize (AtmosphereMaterial.vWorldNormal f);
  let N := if AtmosphereMaterial.gl_FrontFacing f then N0
           else vscale (-1) N0 in
  normalizedSunDir ← normalize (sunDirection u);
  let sunOrientation := dot N normalizedSunDir in
  let atmosphereMix := smoothstep (-0.25) 0.75 sunOrientation in
  let atmosphereColor :=
    vmix (atmosphereTwilightColor u) (atmosphereDayColor u) atmosphereMix in
  viewDirection ←
    normalize (vsub (cameraPosition u) (AtmosphereMaterial.vWorldPosition f));
  let fresnel := 1 - Rabs (dot viewDirection N) in
  let fresnelRemapped0 := 1 - ((fresnel - 0.73) / (1 - 0.73)) in
  let fresnelRemapped := clamp fresnelRemapped0 0 1 in
  alpha0 ← pow fresnelRemapped 3;
  let alpha := alpha0 * smoothstep (-0.5) 1 sunOrientation in
  Some {| N := N; normalizedSunDir := normalizedSunDir;
          sunOrientation := sunOrientation; atmosphereMix := atmosphereMix;
          atmosphereColor := atmosphereColor; viewDirection := viewDirection;
          fresnel := fresnel; fresnelRemapped := fresnelRemapped;
          alpha := alpha;
          gl_FragColor :=
            Vec4 (vx atmosphereColor) (vy atmosphereColor)
                 (vz atmosphereColor) alpha |}.

Definition main (u : Uniforms) (f : AtmosphereMaterial.Fragment)
    : option vec4 :=
  gl_FragColor <$> run u f.

(** The uniforms the two versions have in common. *)
Definition common (u : AtmosphereMaterial.Uniforms) : Uniforms :=
  {| sunDirection := AtmosphereMaterial.sunDirection u;
     atmosphereDayColor := AtmosphereMaterial.atmosphereDayColor u;
     atmosphereTwilightColor := AtmosphereMaterial.atmosphereTwilightColor u;
     cameraPosition := AtmosphereMaterial.cameraPosition u |}.

End LegacyAtmosphereMaterial.

Import Glsl.

(** ** Facts about the built-ins *)

Lemma dot_self_nonneg (v : vec3) : 0 <= dot v v.
Proof. unfold dot. nra. Qed.

Lemma length_nonneg (v : vec3) : 0 <= length v.
Proof. apply sqrt_pos. Qed.

Lemma gsqrt_pos (x : R) : 0 <= x → gsqrt x = Some (sqrt x).
Proof. intros Hx. unfold gsqrt. destruct (Rlt_dec x 0); [lra | reflexivity]. Qed.

(** ** Clamp, mix and smoothstep *)

Lemma clamp_bounds (x lo hi : R) : lo <= hi → lo <= clamp x lo hi <= hi.
Proof.
  intros H. unfold clamp, Rmin, Rmax.
  destruct (Rle_dec x lo); destruct (Rle_dec _ hi); lra.
Qed.

Lemma clamp_mono (x y lo hi : R) : x <= y → clamp x lo hi <= clamp y lo hi.
Proof.
  intros H. unfold clamp. apply Rle_min_compat_r, Rle_max_compat_r, H.
Qed.

Lemma clamp_id (x lo hi : R) : lo <= x <= hi → clamp x lo hi = x.
Proof.
  intros [H1 H2]. unfold clamp.
  rewrite (Rmax_left x lo) by lra. apply Rmin_left. lra.
Qed.

Lemma clamp_low (x lo hi : R) : lo <= hi → x <= lo → clamp x lo hi = lo.
Proof.
  intros H1 H2. unfold clamp.
  rewrite (Rmax_right x lo) by lra. apply Rmin_left. lra.
Qed.

Lemma clamp_high (x lo hi : R) : lo <= hi → hi <= x → clamp x lo hi = hi.
Proof.
  intros H1 H2. unfold clamp.
  rewrite (Rmax_left x lo) by lra. apply Rmin_right. lra.
Qed.

(** The Hermite polynomial [t * t * (3 - 2 * t)] on the unit interval. *)
Lemma hermite_bounds (t : R) : 0 <= t <= 1 → 0 <= t * t * (3 - 2 * t) <= 1.
Proof.
  intros [H0 H1]. split.
  - apply Rmult_le_pos; [apply Rmult_le_pos |]; lra.
  - assert (H : 0 <= (1 - t) * (1 - t) * (1 + 2 * t)).
    { apply Rmult_le_pos; [apply Rmult_le_pos |]; lra. }
    lra.
Qed.

Lemma hermite_strict (a b : R) :
  0 <= a → a < b → b <= 1 → a * a * (3 - 2 * a) < b * b * (3 - 2 * b).
Proof.
  intros Ha Hab Hb.
  assert (H : 0 < (b - a) * (a * (3 - 2 * a - b) + b * (3 - 2 * b - a))).
  { apply Rmult_lt_0_compat; [lra |]. 
    assert (0 <= a * (3 - 2 * a - b)) by (apply Rmult_le_pos; lra).
    assert (0 < b * (3 - 2 * b - a)) by (apply Rmult_lt_0_compat; lra).
    lra. }
  nra.
Qed.

Lemma hermite_mono (a b : R) :
  0 <= a → a <= b → b <= 1 → a * a * (3 - 2 * a) <= b * b * (3 - 2 * b).
Proof.
  intros Ha Hab Hb. destruct (Req_dec a b) as [-> | Hne]; [lra |].
  left. apply hermite_strict; lra.
Qed.

Section Smoothstep.
Variables e0 e1 : R.
Hypothesis edges : e0 < e1.

Lemma smoothstep_below (x : R) : x <= e0 → smoothstep e0 e1 x = 0.
Proof.
  intros Hx. unfold smoothstep. rewrite clamp_low; [lra | lra |].
  apply Rmult_le_reg_r with (e1 - e0); [lra |].
  unfold Rdiv. rewrite Rmult_assoc, Rinv_l by lra. lra.
Qed.

Lemma smoothstep_above (x : R) : e1 <= x → smoothstep e0 e1 x = 1.
Proof.
  intros Hx. unfold smoothstep. rewrite clamp_high; [lra | lra |].
  apply Rmult_le_reg_r with (e1 - e0); [lra |].
  unfold Rdiv. rewrite Rmult_assoc, Rinv_l by lra. lra.
Qed.

Lemma smoothstep_bounds (x : R) : 0 <= smoothstep e0 e1 x <= 1.
Proof. unfold smoothstep. apply hermite_bounds, clamp_bounds. lra. Qed.



End Smoothstep.

(** ** Partial built-ins: when they are defined *)

Lemma length_zero : length (Vec3 0 0 0) = 0.
Proof.
  unfold length, dot. simpl.
  replace (0 * 0 + 0 * 0 + 0 * 0) with 0 by lra. apply sqrt_0.
Qed.

Lemma length_pos (v : vec3) : 0 < dot v v → 0 < length v.
Proof. intros H. unfold length. apply sqrt_lt_R0, H. Qed.

Lemma fdiv_some (x y : R) : y ≠ 0 → fdiv x y = Some (x / y).
Proof. intros H. unfold fdiv. destruct (Req_EM_T y 0); [contradiction | reflexivity]. Qed.

Lemma fdiv_inv (x y q : R) : fdiv x y = Some q → y ≠ 0 ∧ q = x / y.
Proof.
  unfold fdiv. destruct (Req_EM_T y 0); [discriminate |].
  intros [= <-]. split; [assumption | reflexivity].
Qed.

Lemma vdiv_some (v : vec3) (y : R) :
  y ≠ 0 → vdiv v y = Some (Vec3 (vx v / y) (vy v / y) (vz v / y)).
Proof. intros H. unfold vdiv. destruct (Req_EM_T y 0); [contradiction | reflexivity]. Qed.

Lemma normalize_some (v : vec3) :
  length v ≠ 0 →
  normalize v =
    Some (Vec3 (vx v / length v) (vy v / length v) (vz v / length v)).
Proof. intros H. unfold normalize. apply vdiv_some, H. Qed.

Lemma normalize_none (v : vec3) : length v = 0 → normalize v = None.
Proof.
  intros H. unfold normalize, vdiv. rewrite H.
  destruct (Req_EM_T 0 0); [reflexivity | contradiction].
Qed.

Lemma normalize_inv (v n : vec3) : normalize v = Some n → length v ≠ 0.
Proof.
  unfold normalize, vdiv. destruct (Req_EM_T (length v) 0); [discriminate | auto].
Qed.

Lemma pow_defined (x y : R) :
  0 <= x → 0 < y → ∃ r, pow x y = Some r ∧ 0 <= r.
Proof.
  intros Hx Hy. unfold pow.
  destruct (Rlt_dec x 0); [lra |].
  destruct (Req_EM_T x 0).
  - destruct (Rlt_dec 0 y); [| lra]. exists 0. split; [reflexivity | lra].
  - exists (Rpower x y). split; [reflexivity |].
    left. unfold Rpower. apply exp_pos.
Qed.

Lemma pow_zero_nonpos (y : R) : y <= 0 → pow 0 y = None.
Proof.
  intros Hy. unfold pow.
  destruct (Rlt_dec 0 0); [lra |].
  destruct (Req_EM_T 0 0); [| contradiction].
  destruct (Rlt_dec 0 y); [lra | reflexivity].
Qed.

Lemma pow_inv (x y r : R) :
  pow x y = Some r → 0 <= x ∧ 0 <= r ∧ (x = 0 → r = 0 ∧ 0 < y).
Proof.
  unfold pow. destruct (Rlt_dec x 0); [discriminate |].
  destruct (Req_EM_T x 0).
  - destruct (Rlt_dec 0 y); [| discriminate]. intros [= <-]. 
    split; [lra | split; [lra | intros _; split; [reflexivity | assumption]]].
  - intros [= <-]. split; [lra | split; [| contradiction]].
    left. unfold Rpower. apply exp_pos.
Qed.

(** The four guarded denominators. *)
Lemma guard_small (x : R) : 0 < Rmax x 1e-6.
Proof. pose proof (Rmax_r x 1e-6). lra. Qed.

Lemma guard_one (x : R) : 1 <= Rmax x 1.
Proof. apply Rmax_r. Qed.

Lemma raySphereEntryT_defined (ro rd : vec3) (r : R) :
  ∃ t, EarthMaterial.raySphereEntryT ro rd r = Some t ∧ 0 <= t.
Proof.
  unfold EarthMaterial.raySphereEntryT.
  destruct (Rle_dec _ 0) as [Hh | Hh].
  - exists 0. split; [reflexivity | lra].
  - rewrite gsqrt_pos by lra. simpl.
    eexists; split; [reflexivity | apply Rmax_r].
Qed.

(** ** The surface shader, step by step *)

Ltac bind_inv H :=
  repeat match type of H with
         | mbind _ ?m = Some _ =>
             let E := fresh "E" in
             destruct m eqn:E; simpl in H; [| discriminate H]
         end.

Lemma earth_run_defined (u : EarthMaterial.Uniforms) (f : EarthMaterial.Fragment) :
  length (EarthMaterial.vWorldNormal f) ≠ 0 →
  length (EarthMaterial.sunDirection u) ≠ 0 →
  length (vsub (EarthMaterial.cameraPosition u) (EarthMaterial.vWorldPosition f)) ≠ 0 →
  ∃ l, EarthMaterial.run u f = Some l.
Proof.
  intros HN HS HV. unfold EarthMaterial.run.
  rewrite (normalize_some _ HN). simpl.
  rewrite (normalize_some _ HS). simpl.
  rewrite vdiv_some by (pose proof (guard_small (length (vsub (EarthMaterial.vWorldPosition f) (EarthMaterial.cameraPosition u)))); lra).
  simpl.
  match goal with
  | |- context [EarthMaterial.raySphereEntryT ?a ?b ?c] =>
      destruct (raySphereEntryT_defined a b c) as (te & -> & Hte)
  end.
  simpl.
  rewrite fdiv_some by (pose proof (guard_one (EarthMaterial.hazeFalloff u)); lra).
  simpl.
  rewrite (normalize_some _ HV). simpl.
  match goal with
  | |- context [pow ?a 2] =>
      destruct (pow_defined a 2) as (hz & -> & Hhz)
  end.
  - match goal with |- 0 <= 1 - clamp ?a 0 1 => pose proof (clamp_bounds a 0 1) end.
    lra.
  - lra.
  - simpl. eexists. reflexivity.
Qed.

Lemma earth_run_undefined_sun (u : EarthMaterial.Uniforms) (f : EarthMaterial.Fragment) :
  length (EarthMaterial.sunDirection u) = 0 → EarthMaterial.run u f = None.
Proof.
  intros HS. unfold EarthMaterial.run.
  rewrite (normalize_none _ HS).
  destruct (normalize (EarthMaterial.vWorldNormal f)); reflexivity.
Qed.

(** What a completed run of the surface shader holds in its locals. *)
Lemma earth_run_shading (u : EarthMaterial.Uniforms) (f : EarthMaterial.Fragment)
    (l : EarthMaterial.Locals) :
  EarthMaterial.run u f = Some l →
  0 <= EarthMaterial.pathLen l ∧
  EarthMaterial.dayStrength l =
    smoothstep (-0.25) 0.5 (EarthMaterial.sunOrientation l) ∧
  EarthMaterial.haze l =
    clamp ((1 - exp (- EarthMaterial.pathLen l / Rmax (EarthMaterial.hazeFalloff u) 1))
           * EarthMaterial.sunFactor (EarthMaterial.sunOrientation l)
           * EarthMaterial.hazeStrength u)
          0 (EarthMaterial.hazeMax u).
Proof.
  intros H. unfold EarthMaterial.run in H. bind_inv H.
  injection H as <-. simpl.
  match goal with E : fdiv _ _ = Some _ |- _ => apply fdiv_inv in E; destruct E as [_ ->] end.
  split; [apply Rmax_l | split; reflexivity].
Qed.

(** The geometry of a fragment does not depend on [hazeFalloff]. *)
Lemma earth_run_falloff_geometry (u : EarthMaterial.Uniforms)
    (f : EarthMaterial.Fragment) (a b : R) (la lb : EarthMaterial.Locals) :
  EarthMaterial.run (EarthMaterial.set_hazeFalloff a u) f = Some la →
  EarthMaterial.run (EarthMaterial.set_hazeFalloff b u) f = Some lb →
  EarthMaterial.pathLen la = EarthMaterial.pathLen lb ∧
  EarthMaterial.sunOrientation la = EarthMaterial.sunOrientation lb.
Proof.
  intros Ha. unfold EarthMaterial.run in Ha. simpl in Ha. bind_inv Ha.
  unfold EarthMaterial.run. simpl.
  repeat match goal with
         | E : ?m = Some _ |- context [?m] => rewrite E; simpl
         end.
  intros Hb. bind_inv Hb.
  injection Ha as <-. injection Hb as <-. simpl.
  split; reflexivity.
Qed.

Lemma sunFactor_bounds (s : R) : 0.25 <= EarthMaterial.sunFactor s <= 1.
Proof.
  unfold EarthMaterial.sunFactor.
  assert (H := smoothstep_bounds (-0.15) 0.25 s). lra.
Qed.

(** The haze amount as a function of path length, falloff, sun
    orientation, strength and cap. *)
Lemma haze_mono_falloff (p fa fb sf hs hm : R) :
  0 <= p → 1 <= fa → fa <= fb → 0 <= sf →
  clamp ((1 - exp (- p / fb)) * sf * hs) 0 hm
  <= clamp ((1 - exp (- p / fa)) * sf * hs) 0 hm.
Proof.
  intros Hp Hfa Hfab Hsf.
  assert (Hq : - p / fa <= - p / fb).
  { unfold Rdiv. assert (/ fb <= / fa) by (apply Rinv_le_contravar; lra).
    nra. }
  assert (He : exp (- p / fa) <= exp (- p / fb)).
  { destruct Hq as [Hq | Hq]; [left; apply exp_increasing, Hq | rewrite Hq; lra]. }
  assert (Hb : exp (- p / fb) <= 1).
  { rewrite <- exp_0. 
    assert (Hn : - p / fb <= 0).
    { unfold Rdiv. assert (0 < / fb) by (apply Rinv_0_lt_compat; lra). nra. }
    destruct Hn as [Hn | Hn]; [left; apply exp_increasing, Hn | rewrite Hn; lra]. }
  destruct (Rle_dec 0 hs) as [Hhs | Hhs].
  - apply clamp_mono. apply Rmult_le_compat_r; [assumption |].
    apply Rmult_le_compat_r; [assumption | lra].
  - unfold clamp. 
    assert (H1 : (1 - exp (- p / fb)) * sf * hs <= 0).
    { assert (0 <= (1 - exp (- p / fb)) * sf) by (apply Rmult_le_pos; lra). nra. }
    assert (H2 : (1 - exp (- p / fa)) * sf * hs <= 0).
    { assert (0 <= (1 - exp (- p / fa)) * sf) by (apply Rmult_le_pos; lra). nra. }
    rewrite !Rmax_right by assumption. lra.
Qed.

Lemma haze_strict_falloff (p fa fb sf hs hm : R) :
  0 < p → 1 <= fa → fa < fb → 0 < sf → 0 < hs →
  clamp ((1 - exp (- p / fb)) * sf * hs) 0 hm < hm →
  clamp ((1 - exp (- p / fb)) * sf * hs) 0 hm
  < clamp ((1 - exp (- p / fa)) * sf * hs) 0 hm.
Proof.
  intros Hp Hfa Hfab Hsf Hhs Hcap.
  assert (Hq : - p / fa < - p / fb).
  { unfold Rdiv. assert (/ fb < / fa) by (apply Rinv_lt_contravar; nra).
    nra. }
  assert (He : exp (- p / fa) < exp (- p / fb)) by (apply exp_increasing, Hq).
  assert (Hb : exp (- p / fb) < 1).
  { rewrite <- exp_0. apply exp_increasing.
    unfold Rdiv. assert (0 < / fb) by (apply Rinv_0_lt_compat; lra). nra. }
  set (xb := (1 - exp (- p / fb)) * sf * hs) in *.
  set (xa := (1 - exp (- p / fa)) * sf * hs) in *.
  assert (Hxb : 0 < xb).
  { unfold xb. apply Rmult_lt_0_compat; [apply Rmult_lt_0_compat |]; lra. }
  assert (Hxab : xb < xa).
  { unfold xa, xb. apply Rmult_lt_compat_r; [assumption |].
    apply Rmult_lt_compat_r; [assumption | lra]. }
  unfold clamp in *.
  rewrite (Rmax_left xb 0) in * by lra.
  rewrite (Rmax_left xa 0) by lra.
  unfold Rmin in *.
  destruct (Rle_dec xb hm); destruct (Rle_dec xa hm); lra.
Qed.

Lemma zenith_run_defined (x : R) :
  ∃ l, EarthMaterial.run
         (EarthMaterial.set_hazeFalloff x EarthMaterial.zenithUniforms)
         EarthMaterial.zenithFragment = Some l.
Proof.
  apply earth_run_defined; apply Rgt_not_eq, length_pos;
    unfold dot; simpl; lra.
Qed.

(** ** Day/night blend *)



(** ** Evaluating the shaders on axis-aligned inputs *)

Lemma length_unit_multiple (n v : vec3) (k : R) :
  dot n n = 1 → 0 <= k → v = vscale k n → length v = k.
Proof.
  intros Hn Hk ->. unfold length.
  replace (dot (vscale k n) (vscale k n)) with (k * k * dot n n)
    by (unfold dot, vscale; simpl; ring).
  rewrite Hn, Rmult_1_r. apply sqrt_square, Hk.
Qed.

Lemma normalize_unit_multiple (n v : vec3) (k : R) :
  dot n n = 1 → 0 < k → v = vscale k n → normalize v = Some n.
Proof.
  intros Hn Hk Hv. unfold normalize.
  rewrite (length_unit_multiple n v k Hn (Rlt_le _ _ Hk) Hv).
  rewrite vdiv_some by lra. subst v. destruct n as [x y z].
  unfold vscale. simpl. f_equal. f_equal; field; lra.
Qed.

Lemma raySphereEntryT_eval (ro rd : vec3) (r s : R) :
  0 < s →
  dot ro rd * dot ro rd - (dot ro ro - r * r) = s * s →
  EarthMaterial.raySphereEntryT ro rd r = Some (Rmax (- dot ro rd - s) 0).
Proof.
  intros Hs Hh. unfold EarthMaterial.raySphereEntryT. rewrite Hh.
  destruct (Rle_dec (s * s) 0) as [Hle | _]; [nra |].
  rewrite gsqrt_pos by nra. rewrite sqrt_square by lra. reflexivity.
Qed.

Lemma earth_run_geometry (u : EarthMaterial.Uniforms) (f : EarthMaterial.Fragment)
    (l : EarthMaterial.Locals) :
  EarthMaterial.run u f = Some l →
  ∃ N0 sd rd te,
    normalize (EarthMaterial.vWorldNormal f) = Some N0 ∧
    normalize (EarthMaterial.sunDirection u) = Some sd ∧
    vdiv (vsub (EarthMaterial.vWorldPosition f) (EarthMaterial.cameraPosition u))
         (Rmax (length (vsub (EarthMaterial.vWorldPosition f)
                             (EarthMaterial.cameraPosition u))) 1e-6)
      = Some rd ∧
    EarthMaterial.raySphereEntryT (EarthMaterial.cameraPosition u) rd
      (length (EarthMaterial.vWorldPosition f) * EarthMaterial.atmosphereScale u)
      = Some te ∧
    EarthMaterial.sunOrientation l =
      dot (if EarthMaterial.gl_FrontFacing f then N0 else vscale (-1) N0) sd ∧
    EarthMaterial.pathLen l =
      Rmax 0 (length (vsub (EarthMaterial.vWorldPosition f)
                           (EarthMaterial.cameraPosition u)) - te).
Proof.
  intros H. unfold EarthMaterial.run in H. bind_inv H.
  injection H as <-. simpl.
  repeat eexists; eassumption.
Qed.

(** The zenith view: 254840 m of the ray lie inside the atmosphere
    sphere, and the sun is overhead. *)
Lemma zenith_run_geometry (x : R) (l : EarthMaterial.Locals) :
  EarthMaterial.run
    (EarthMaterial.set_hazeFalloff x EarthMaterial.zenithUniforms)
    EarthMaterial.zenithFragment = Some l →
  EarthMaterial.pathLen l = 254840 ∧ EarthMaterial.sunOrientation l = 1.
Proof.
  intros H. apply earth_run_geometry in H.
  destruct H as (N0 & sd & rd & te & HN & HS & Hrd & Hte & -> & ->).
  simpl in *.
  rewrite (normalize_unit_multiple (Vec3 0 0 1) _ 1) in HN;
    [| unfold dot; simpl; lra | lra | unfold vscale; simpl; f_equal; lra].
  rewrite (normalize_unit_multiple (Vec3 0 0 1) _ 1) in HS;
    [| unfold dot; simpl; lra | lra | unfold vscale; simpl; f_equal; lra].
  injection HN as <-. injection HS as <-.
  assert (HL : length (vsub (Vec3 0 0 6371000) (Vec3 0 0 7371000)) = 1000000).
  { apply (length_unit_multiple (Vec3 0 0 (-1))).
    - unfold dot; simpl; lra.
    - lra.
    - unfold vsub, vscale; simpl; f_equal; lra. }
  rewrite HL in *.
  assert (HP : length (Vec3 0 0 6371000) = 6371000).
  { apply (length_unit_multiple (Vec3 0 0 1)).
    - unfold dot; simpl; lra.
    - lra.
    - unfold vscale; simpl; f_equal; lra. }
  rewrite HP in Hte.
  rewrite (Rmax_left 1000000 1e-6) in Hrd by lra.
  rewrite vdiv_some in Hrd by lra. injection Hrd as <-.
  rewrite (raySphereEntryT_eval _ _ _ 6625840) in Hte;
    [| lra | unfold dot, vsub; simpl; lra].
  injection Hte as <-.
  split.
  - unfold dot, vsub. simpl.
    rewrite (Rmax_left _ 0) by lra. rewrite Rmax_right by lra. lra.
  - unfold dot. simpl. lra.
Qed.

(** ** Ray-sphere entry distance *)

(** C8. For every ray origin, ray direction and radius the entry distance
    is defined and non-negative, and it is exactly 0 whenever the origin
    lies strictly inside the sphere ([length ro < r]). *)
Theorem raySphereEntryT_nonneg_inside (ro rd : vec3) (r : R) :
  ∃ t, EarthMaterial.raySphereEntryT ro rd r = Some t ∧ 0 <= t ∧
       (length ro < r → t = 0).
Proof.
  unfold EarthMaterial.raySphereEntryT.
  destruct (Rle_dec _ 0) as [Hh | Hh].
  - exists 0. split; [reflexivity | split; [lra | reflexivity]].
  - rewrite gsqrt_pos by lra. simpl.
    eexists; split; [reflexivity | split].
    + apply Rmax_r.
    + intros Hin.
      assert (Hl : 0 <= length ro) by apply length_nonneg.
      assert (Hsq : dot ro ro < r * r).
      { rewrite <- (sqrt_sqrt (dot ro ro)) by apply dot_self_nonneg.
        fold (length ro). nra. }
      set (b := dot ro rd) in *. set (c := dot ro ro - r * r) in *.
      assert (Hc : c < 0) by (unfold c; lra).
      assert (Hs : Rabs b < sqrt (b * b - c)).
      { rewrite <- sqrt_Rsqr_abs. apply sqrt_lt_1_alt. unfold Rsqr. nra. }
      apply Rmax_right.
      pose proof (Rle_abs (- b)) as Hab. rewrite Rabs_Ropp in Hab. lra.
Qed.

Lemma raySphereEntryT_nonneg_inside_witness :
  ∃ t, EarthMaterial.raySphereEntryT (Vec3 0 0 6400000) (Vec3 0 0 (-1)) 6625840
         = Some t ∧ 0 <= t ∧ t = 0.
Proof.
  destruct (raySphereEntryT_nonneg_inside
              (Vec3 0 0 6400000) (Vec3 0 0 (-1)) 6625840)
    as (t & Ht & Hpos & Hin).
  exists t. split; [exact Ht | split; [exact Hpos |]].
  apply Hin.
  rewrite (length_unit_multiple (Vec3 0 0 1) _ 6400000).
  - lra.
  - unfold dot; simpl; lra.
  - lra.
  - unfold vscale; simpl; f_equal; lra.
Defined.

(** ** Surface haze *)

Lemma clamp_lt_high (x lo hi : R) : lo < hi → x < hi → clamp x lo hi < hi.
Proof.
  intros H1 H2. unfold clamp, Rmin, Rmax.
  destruct (Rle_dec x lo); destruct (Rle_dec _ hi); lra.
Qed.

Lemma zenith_haze_below_cap (x : R) (l : EarthMaterial.Locals) :
  EarthMaterial.run
    (EarthMaterial.set_hazeFalloff x EarthMaterial.zenithUniforms)
    EarthMaterial.zenithFragment = Some l →
  0 < EarthMaterial.haze l < 0.85.
Proof.
  intros H.
  destruct (zenith_run_geometry x l H) as [Hp Hs].
  destruct (earth_run_shading _ _ l H) as (_ & _ & Hh).
  rewrite Hh, Hp, Hs. simpl.
  set (e := exp (- (254840) / Rmax x 1)).
  assert (He : 0 < e < 1).
  { split; [apply exp_pos |]. unfold e.
    assert (Hlt : exp (- (254840) / Rmax x 1) < exp 0).
    { apply exp_increasing. pose proof (guard_one x). unfold Rdiv.
      assert (0 < / Rmax x 1) by (apply Rinv_0_lt_compat; lra). nra. }
    rewrite exp_0 in Hlt. exact Hlt. }
  assert (Hsf : EarthMaterial.sunFactor 1 = 1).
  { unfold EarthMaterial.sunFactor. rewrite smoothstep_above by lra. lra. }
  rewrite Hsf. rewrite clamp_id by nra. nra.
Qed.

(** C2, as stated, fails on the code.  With [hazeFalloff] raised from
    0.25 to 0.5 the zenith fragment keeps the same positive haze (both
    values are replaced by the floor 1.0 of [max(hazeFalloff, 1.0)]); and
    with a negative [hazeMax] the haze is that negative cap, outside
    [0, hazeMax]. *)
Lemma haze_counterexample :
  (∃ la lb,
     EarthMaterial.run
       (EarthMaterial.set_hazeFalloff 0.25 EarthMaterial.zenithUniforms)
       EarthMaterial.zenithFragment = Some la ∧
     EarthMaterial.run
       (EarthMaterial.set_hazeFalloff 0.5 EarthMaterial.zenithUniforms)
       EarthMaterial.zenithFragment = Some lb ∧
     EarthMaterial.pathLen la = EarthMaterial.pathLen lb ∧
     0 < EarthMaterial.haze la ∧
     ¬ (EarthMaterial.haze lb < EarthMaterial.haze la)) ∧
  (∃ l,
     EarthMaterial.run
       (EarthMaterial.set_hazeMax (-1) EarthMaterial.zenithUniforms)
       EarthMaterial.zenithFragment = Some l ∧
     ¬ (0 <= EarthMaterial.haze l)).
Proof.
  split.
  - destruct (zenith_run_defined 0.25) as [la Ha].
    destruct (zenith_run_defined 0.5) as [lb Hb].
    exists la, lb. split; [exact Ha | split; [exact Hb |]].
    destruct (zenith_run_geometry _ _ Ha) as [Hpa Hsa].
    destruct (zenith_run_geometry _ _ Hb) as [Hpb Hsb].
    split; [congruence |].
    split; [apply (zenith_haze_below_cap _ _ Ha) |].
    destruct (earth_run_shading _ _ _ Ha) as (_ & _ & Hha).
    destruct (earth_run_shading _ _ _ Hb) as (_ & _ & Hhb).
    rewrite Hha, Hhb, Hpa, Hpb, Hsa, Hsb. simpl.
    rewrite (Rmax_right 0.25 1), (Rmax_right 0.5 1) by lra. lra.
  - destruct (earth_run_defined
                (EarthMaterial.set_hazeMax (-1) EarthMaterial.zenithUniforms)
                EarthMaterial.zenithFragment) as [l Hl];
      try (apply Rgt_not_eq, length_pos; unfold dot; simpl; lra).
    exists l. split; [exact Hl |].
    destruct (earth_run_shading _ _ _ Hl) as (_ & _ & Hh).
    rewrite Hh. simpl. unfold clamp.
    pose proof (Rmin_r (Rmax ((1 - exp (- EarthMaterial.pathLen l / Rmax 900000 1))
                               * EarthMaterial.sunFactor (EarthMaterial.sunOrientation l)
                               * 0.85) 0) (-1)).
    lra.
Qed.

(** C2, amended.  The surface shader runs on every fragment whose
    normal, sun direction and camera-to-fragment vector are not null.
    In every run with a non-negative [hazeMax] the haze lies in
    [0, hazeMax].  For one
    fragment and two values of [hazeFalloff] the path length is the same
    and the haze under the larger falloff is never above the haze under
    the smaller one.  It is strictly below when the larger falloff
    exceeds the floor 1.0, the path length and [hazeStrength] are
    positive, and the haze under the larger falloff is below the cap
    [hazeMax]. *)
Theorem haze_range_and_falloff :
  (∀ u f,
     length (EarthMaterial.vWorldNormal f) ≠ 0 →
     length (EarthMaterial.sunDirection u) ≠ 0 →
     length (vsub (EarthMaterial.cameraPosition u)
                  (EarthMaterial.vWorldPosition f)) ≠ 0 →
     ∃ l, EarthMaterial.run u f = Some l) ∧
  (∀ u f l, EarthMaterial.run u f = Some l →
     0 <= EarthMaterial.hazeMax u →
     0 <= EarthMaterial.haze l <= EarthMaterial.hazeMax u) ∧
  (∀ u f a b la lb,
     EarthMaterial.run (EarthMaterial.set_hazeFalloff a u) f = Some la →
     EarthMaterial.run (EarthMaterial.set_hazeFalloff b u) f = Some lb →
     a <= b →
     EarthMaterial.pathLen la = EarthMaterial.pathLen lb ∧
     EarthMaterial.haze lb <= EarthMaterial.haze la) ∧
  (∀ u f a b la lb,
     EarthMaterial.run (EarthMaterial.set_hazeFalloff a u) f = Some la →
     EarthMaterial.run (EarthMaterial.set_hazeFalloff b u) f = Some lb →
     a < b → 1 < b →
     0 < EarthMaterial.pathLen la →
     0 < EarthMaterial.hazeStrength u →
     EarthMaterial.haze lb < EarthMaterial.hazeMax u →
     EarthMaterial.haze lb < EarthMaterial.haze la).
Proof.
  split; [| split; [| split]].
  - intros u f. apply earth_run_defined.
  - intros u f l H Hm.
    destruct (earth_run_shading u f l H) as (_ & _ & ->).
    apply clamp_bounds, Hm.
  - intros u f a b la lb Ha Hb Hab.
    destruct (earth_run_falloff_geometry u f a b la lb Ha Hb) as [Hp Hs].
    split; [exact Hp |].
    destruct (earth_run_shading _ _ _ Ha) as (Hpa & _ & ->).
    destruct (earth_run_shading _ _ _ Hb) as (_ & _ & ->).
    rewrite <- Hp, <- Hs. simpl.
    apply haze_mono_falloff.
    + exact Hpa.
    + apply guard_one.
    + apply Rle_max_compat_r, Hab.
    + pose proof (sunFactor_bounds (EarthMaterial.sunOrientation la)). lra.
  - intros u f a b la lb Ha Hb Hab Hb1 Hpos Hhs Hcap.
    destruct (earth_run_falloff_geometry u f a b la lb Ha Hb) as [Hp Hs].
    destruct (earth_run_shading _ _ _ Ha) as (_ & _ & Hha).
    destruct (earth_run_shading _ _ _ Hb) as (_ & _ & Hhb).
    rewrite Hhb in Hcap |- *. rewrite Hha.
    rewrite <- Hp, <- Hs in *. simpl in *.
    apply haze_strict_falloff.
    + exact Hpos.
    + apply guard_one.
    + rewrite (Rmax_left b 1) by lra. apply Rmax_lub_lt; lra.
    + pose proof (sunFactor_bounds (EarthMaterial.sunOrientation la)). lra.
    + exact Hhs.
    + exact Hcap.
Qed.

Lemma haze_range_and_falloff_witness :
  ∃ la lb,
    EarthMaterial.run
      (EarthMaterial.set_hazeFalloff 600000 EarthMaterial.zenithUniforms)
      EarthMaterial.zenithFragment = Some la ∧
    EarthMaterial.run
      (EarthMaterial.set_hazeFalloff 1400000 EarthMaterial.zenithUniforms)
      EarthMaterial.zenithFragment = Some lb ∧
    0 <= EarthMaterial.haze la <= 0.85 ∧
    EarthMaterial.pathLen la = EarthMaterial.pathLen lb ∧
    EarthMaterial.haze lb <= EarthMaterial.haze la ∧
    EarthMaterial.haze lb < EarthMaterial.haze la.
Proof.
  destruct haze_range_and_falloff as (Hdef & Hrange & Hmono & Hstrict).
  destruct (Hdef (EarthMaterial.set_hazeFalloff 600000
                    EarthMaterial.zenithUniforms)
                 EarthMaterial.zenithFragment) as [la Ha];
    try (apply Rgt_not_eq, length_pos; unfold dot; simpl; lra).
  destruct (Hdef (EarthMaterial.set_hazeFalloff 1400000
                    EarthMaterial.zenithUniforms)
                 EarthMaterial.zenithFragment) as [lb Hb];
    try (apply Rgt_not_eq, length_pos; unfold dot; simpl; lra).
  exists la, lb.
  split; [exact Ha | split; [exact Hb |]].
  split.
  { apply (Hrange _ _ la Ha). simpl. lra. }
  destruct (Hmono EarthMaterial.zenithUniforms EarthMaterial.zenithFragment
              600000 1400000 la lb Ha Hb ltac:(lra)) as [Hp Hle].
  split; [exact Hp | split; [exact Hle |]].
  apply (Hstrict EarthMaterial.zenithUniforms EarthMaterial.zenithFragment
           600000 1400000 la lb Ha Hb); simpl; try lra.
  - destruct (zenith_run_geometry _ _ Ha) as [-> _]. lra.
  - apply (zenith_haze_below_cap _ _ Hb).
Defined.

(** ** The shell shader, step by step *)

Lemma shell_run_defined (u : AtmosphereMaterial.Uniforms)
    (f : AtmosphereMaterial.Fragment) :
  length (AtmosphereMaterial.vWorldNormal f) ≠ 0 →
  length (vsub (AtmosphereMaterial.cameraPosition u)
               (AtmosphereMaterial.vWorldPosition f)) ≠ 0 →
  length (AtmosphereMaterial.sunDirection u) ≠ 0 →
  0 < AtmosphereMaterial.haloPower u →
  ∃ l, AtmosphereMaterial.run u f = Some l.
Proof.
  intros HN HV HS HP. unfold AtmosphereMaterial.run.
  rewrite (normalize_some _ HN). simpl.
  rewrite (normalize_some _ HV). simpl.
  rewrite (normalize_some _ HS). simpl.
  match goal with
  | |- context [pow (clamp ?a 0 1) ?p] =>
      destruct (pow_defined (clamp a 0 1) p) as (ring & -> & Hring);
        [pose proof (clamp_bounds a 0 1); lra | assumption |]
  end.
  simpl.
  rewrite fdiv_some
    by (pose proof (guard_small (AtmosphereMaterial.atmosphereScale u)); lra).
  simpl.
  rewrite fdiv_some
    by (pose proof (guard_one (AtmosphereMaterial.heightFade u)); lra).
  simpl.
  match goal with
  | |- context [pow (Rmax ?a 0) 10] =>
      destruct (pow_defined (Rmax a 0) 10) as (spot & -> & Hspot);
        [apply Rmax_r | lra |]
  end.
  simpl. eexists. reflexivity.
Qed.

Lemma shell_run_undefined_sun (u : AtmosphereMaterial.Uniforms)
    (f : AtmosphereMaterial.Fragment) :
  length (AtmosphereMaterial.sunDirection u) = 0 →
  AtmosphereMaterial.run u f = None.
Proof.
  intros HS. unfold AtmosphereMaterial.run.
  rewrite (normalize_none _ HS).
  destruct (normalize (AtmosphereMaterial.vWorldNormal f)); simpl;
    [| reflexivity].
  destruct (normalize _); reflexivity.
Qed.

(** A completed run of the shell shader, statement by statement. *)
Lemma shell_run_inv (u : AtmosphereMaterial.Uniforms)
    (f : AtmosphereMaterial.Fragment) (l : AtmosphereMaterial.Locals) :
  AtmosphereMaterial.run u f = Some l →
  (∃ N0, normalize (AtmosphereMaterial.vWorldNormal f) = Some N0 ∧
         AtmosphereMaterial.N l =
           if AtmosphereMaterial.gl_FrontFacing f then N0
           else vscale (-1) N0) ∧
  normalize (vsub (AtmosphereMaterial.cameraPosition u)
                  (AtmosphereMaterial.vWorldPosition f))
    = Some (AtmosphereMaterial.viewDir l) ∧
  normalize (AtmosphereMaterial.sunDirection u)
    = Some (AtmosphereMaterial.sunDir l) ∧
  AtmosphereMaterial.sunOrientation l =
    dot (AtmosphereMaterial.N l) (AtmosphereMaterial.sunDir l) ∧
  AtmosphereMaterial.fresnel l =
    1 - Rabs (dot (AtmosphereMaterial.viewDir l) (AtmosphereMaterial.N l)) ∧
  pow (clamp (AtmosphereMaterial.fresnel l) 0 1) (AtmosphereMaterial.haloPower u)
    = Some (AtmosphereMaterial.ring l) ∧
  AtmosphereMaterial.topR l = length (AtmosphereMaterial.vWorldPosition f) ∧
  fdiv (AtmosphereMaterial.topR l)
       (Rmax (AtmosphereMaterial.atmosphereScale u) 1e-6)
    = Some (AtmosphereMaterial.planetR l) ∧
  AtmosphereMaterial.height l =
    Rmax 0 (length (AtmosphereMaterial.cameraPosition u)
            - AtmosphereMaterial.planetR l) ∧
  AtmosphereMaterial.altFactor l =
    exp (- AtmosphereMaterial.height l
         / Rmax (AtmosphereMaterial.heightFade u) 1) ∧
  AtmosphereMaterial.density l =
    mix 0.18 1 (clamp (AtmosphereMaterial.altFactor l) 0 1) ∧
  pow (Rmax (dot (vneg (AtmosphereMaterial.viewDir l))
                 (AtmosphereMaterial.sunDir l)) 0) 10
    = Some (AtmosphereMaterial.sunSpot l) ∧
  AtmosphereMaterial.alphaSum l =
    AtmosphereMaterial.haloStrength u * AtmosphereMaterial.density l
      * AtmosphereMaterial.ring l
    + 0.35 * AtmosphereMaterial.sunSpot l * AtmosphereMaterial.ring l ∧
  AtmosphereMaterial.alpha l =
    clamp (AtmosphereMaterial.alphaSum l
           * AtmosphereMaterial.nightFactor (AtmosphereMaterial.sunOrientation l))
          0 1 ∧
  ca (AtmosphereMaterial.gl_FragColor l) = AtmosphereMaterial.alpha l.
Proof.
  intros H. unfold AtmosphereMaterial.run in H. bind_inv H.
  injection H as <-. simpl.
  repeat match goal with
         | E : fdiv _ _ = Some _ |- _ =>
             let E' := fresh in
             pose proof (fdiv_inv _ _ _ E) as [_ E']; rewrite E' in *; clear E'
         end.
  split; [eexists; split; [reflexivity | reflexivity] |].
  repeat (split; [first [assumption | reflexivity] |]).
  reflexivity.
Qed.

Lemma density_bounds (a : R) : 0.18 <= mix 0.18 1 (clamp a 0 1) <= 1.
Proof.
  unfold mix. pose proof (clamp_bounds a 0 1). lra.
Qed.

Lemma nightFactor_bounds (s : R) : 0.25 <= AtmosphereMaterial.nightFactor s <= 1.
Proof.
  unfold AtmosphereMaterial.nightFactor.
  assert (H := smoothstep_bounds (-0.2) 0.25 s). lra.
Qed.

Lemma pow_one (y : R) : pow 1 y = Some 1.
Proof.
  unfold pow. destruct (Rlt_dec 1 0); [lra |].
  destruct (Req_EM_T 1 0); [lra |].
  unfold Rpower. rewrite ln_1, Rmult_0_r, exp_0. reflexivity.
Qed.

Lemma pow_zero (y : R) : 0 < y → pow 0 y = Some 0.
Proof.
  intros Hy. unfold pow. destruct (Rlt_dec 0 0); [lra |].
  destruct (Req_EM_T 0 0); [| contradiction].
  destruct (Rlt_dec 0 y); [reflexivity | contradiction].
Qed.

(** Looking straight up through the shell: the fresnel ring vanishes and
    so does the alpha. *)
Lemma overhead_run :
  ∃ l, AtmosphereMaterial.run AtmosphereMaterial.overheadUniforms
         AtmosphereMaterial.shellFragment = Some l ∧
       AtmosphereMaterial.ring l = 0 ∧
       AtmosphereMaterial.alpha l = 0.
Proof.
  destruct (shell_run_defined AtmosphereMaterial.overheadUniforms
              AtmosphereMaterial.shellFragment) as [l Hl];
    try (apply Rgt_not_eq, length_pos; unfold dot; simpl; lra);
    try (simpl; lra).
  exists l. split; [exact Hl |].
  destruct (shell_run_inv _ _ _ Hl)
    as ((N0 & HN0 & HN) & HV & _ & _ & HF & HR & _ & _ & _ & _ & _ & _ & HA & HAl & _).
  simpl in *.
  rewrite (normalize_unit_multiple (Vec3 0 0 1) _ 1) in HN0;
    [| unfold dot; simpl; lra | lra | unfold vscale; simpl; f_equal; lra].
  injection HN0 as <-.
  rewrite (normalize_unit_multiple (Vec3 0 0 (-1)) _ 225840) in HV;
    [| unfold dot; simpl; lra | lra | unfold vsub, vscale; simpl; f_equal; lra].
  injection HV as HV.
  assert (Hring : AtmosphereMaterial.ring l = 0).
  { rewrite HF, <- HV, HN in HR. unfold dot, vscale in HR. simpl in HR.
    replace (0 * (-1 * 0) + 0 * (-1 * 0) + -1 * (-1 * 1)) with 1 in HR by lra.
    rewrite Rabs_R1 in HR.
    rewrite clamp_low in HR by lra.
    rewrite pow_zero in HR by lra. congruence. }
  split; [exact Hring |].
  rewrite HAl, HA, Hring.
  rewrite clamp_id; lra.
Qed.

(** The grazing view, for a unit sun direction in the y-z plane: full
    ring, no forward-scatter spot, camera 420486 m above the ground. *)
Lemma limb_run (sun : vec3) :
  dot sun sun = 1 → vx sun = 0 →
  ∃ l, AtmosphereMaterial.run (AtmosphereMaterial.limbUniforms sun)
         AtmosphereMaterial.shellFragment = Some l ∧
       AtmosphereMaterial.sunOrientation l = - vz sun ∧
       AtmosphereMaterial.ring l = 1 ∧
       AtmosphereMaterial.sunSpot l = 0 ∧
       AtmosphereMaterial.height l = 420486 ∧
       0.75 <= AtmosphereMaterial.density l <= 1 ∧
       AtmosphereMaterial.alphaSum l = 1.35 * AtmosphereMaterial.density l.
Proof.
  intros Hunit Hx.
  assert (Hsun : normalize sun = Some sun).
  { apply (normalize_unit_multiple sun sun 1); [assumption | lra |].
    destruct sun; unfold vscale; simpl; f_equal; lra. }
  destruct (shell_run_defined (AtmosphereMaterial.limbUniforms sun)
              AtmosphereMaterial.shellFragment) as [l Hl].
  { apply Rgt_not_eq, length_pos; unfold dot; simpl; lra. }
  { apply Rgt_not_eq, length_pos; unfold dot; simpl; lra. }
  { simpl. intros H0. apply normalize_none in H0. congruence. }
  { simpl; lra. }
  exists l. split; [exact Hl |].
  destruct (shell_run_inv _ _ _ Hl)
    as ((N0 & HN0 & HN) & HV & HS & HO & HF & HR & HT & HP & HH & HAF & HD & HSp & HA & _ & _).
  simpl in *.
  rewrite (normalize_unit_multiple (Vec3 0 0 1) _ 1) in HN0;
    [| unfold dot; simpl; lra | lra | unfold vscale; simpl; f_equal; lra].
  injection HN0 as <-.
  rewrite (normalize_unit_multiple (Vec3 1 0 0) _ 1490814) in HV;
    [| unfold dot; simpl; lra | lra | unfold vsub, vscale; simpl; f_equal; lra].
  injection HV as HV.
  rewrite Hsun in HS. injection HS as HS.
  assert (Hor : AtmosphereMaterial.sunOrientation l = - vz sun).
  { rewrite HO, HN, <- HS. unfold dot, vscale. simpl. lra. }
  assert (Hring : AtmosphereMaterial.ring l = 1).
  { rewrite HF, <- HV, HN in HR. unfold dot, vscale in HR. simpl in HR.
    replace (1 * (-1 * 0) + 0 * (-1 * 0) + 0 * (-1 * 1)) with 0 in HR by lra.
    rewrite Rabs_R0 in HR.
    rewrite clamp_high in HR by lra.
    rewrite pow_one in HR. congruence. }
  assert (Hspot : AtmosphereMaterial.sunSpot l = 0).
  { rewrite <- HV, <- HS in HSp. unfold dot, vneg in HSp. simpl in HSp.
    rewrite Hx in HSp.
    rewrite Rmax_right in HSp by lra.
    rewrite pow_zero in HSp by lra. congruence. }
  assert (Hheight : AtmosphereMaterial.height l = 420486).
  { rewrite HT in HP.
    rewrite (length_unit_multiple (Vec3 0 0 1) _ 6625840) in HP;
      [| unfold dot; simpl; lra | lra | unfold vscale; simpl; f_equal; lra].
    rewrite (Rmax_left 1.04 1e-6) in HP by lra.
    rewrite fdiv_some in HP by lra. injection HP as HP.
    rewrite HH, <- HP.
    assert (HC : length (Vec3 1490814 0 6625840) = 6791486).
    { unfold length.
      replace (dot (Vec3 1490814 0 6625840) (Vec3 1490814 0 6625840))
        with (6791486 * 6791486) by (unfold dot; simpl; lra).
      apply sqrt_square. lra. }
    rewrite HC. rewrite Rmax_right by lra. lra. }
  assert (Hdens : 0.75 <= AtmosphereMaterial.density l <= 1).
  { rewrite HD. split; [| apply density_bounds].
    rewrite HAF, Hheight. rewrite (Rmax_left 1400000 1) by lra.
    pose proof (exp_ineq1_le (- (420486) / 1400000)) as Hlow.
    assert (Hup : exp (- (420486) / 1400000) <= 1).
    { assert (Hlt : exp (- (420486) / 1400000) < exp 0)
        by (apply exp_increasing; lra).
      rewrite exp_0 in Hlt. lra. }
    rewrite clamp_id by lra. unfold mix. lra. }
  repeat split; try assumption; try lra.
  rewrite HA, Hring, Hspot. lra.
Qed.

(** ** Halo alpha *)

Lemma smoothstep_edges_order (s : R) :
  smoothstep (-0.15) 0.25 s <= smoothstep (-0.2) 0.25 s.
Proof.
  destruct (Rle_dec 0.25 s) as [Hs | Hs].
  - rewrite !smoothstep_above by lra. lra.
  - unfold smoothstep. apply hermite_mono.
    + apply clamp_bounds; lra.
    + apply clamp_mono. lra.
    + apply clamp_bounds; lra.
Qed.

(** C4, as stated, fails on the code: on the grazing view with the sun
    at right angles to the normal ([sunOrientation = 0]) the alpha
    differs from the clamped sum scaled by the surface factor
    [0.25 + 0.75 * smoothstep(-0.15, 0.25, sunOrientation)], whether
    that factor is applied after or before the clamp. *)
Lemma halo_alpha_counterexample :
  ∃ l, AtmosphereMaterial.run
         (AtmosphereMaterial.limbUniforms (Vec3 0 1 0))
         AtmosphereMaterial.shellFragment = Some l ∧
       AtmosphereMaterial.alpha l ≠
         clamp (AtmosphereMaterial.alphaSum l) 0 1
         * EarthMaterial.sunFactor (AtmosphereMaterial.sunOrientation l) ∧
       AtmosphereMaterial.alpha l ≠
         clamp (AtmosphereMaterial.alphaSum l
                * EarthMaterial.sunFactor (AtmosphereMaterial.sunOrientation l))
               0 1.
Proof.
  destruct (limb_run (Vec3 0 1 0)) as (l & Hl & Hs & Hr & Hsp & Hh & Hd & Ha);
    [unfold dot; simpl; lra | reflexivity |].
  exists l. split; [exact Hl |].
  destruct (shell_run_inv _ _ _ Hl)
    as (_ & _ & _ & _ & _ & _ & _ & _ & _ & _ & _ & _ & _ & HAl & _).
  rewrite HAl, Hs, Ha. simpl.
  replace (- 0) with 0 by lra.
  assert (Hn : AtmosphereMaterial.nightFactor 0 = 0.25 + 0.75 * (304 / 729)).
  { unfold AtmosphereMaterial.nightFactor, smoothstep.
    rewrite clamp_id by lra. lra. }
  assert (Hf : EarthMaterial.sunFactor 0 = 0.25 + 0.75 * (81 / 256)).
  { unfold EarthMaterial.sunFactor, smoothstep.
    rewrite clamp_id by lra. lra. }
  rewrite Hn, Hf.
  set (d := AtmosphereMaterial.density l) in *.
  rewrite (clamp_id (1.35 * d * _)) by lra.
  rewrite (clamp_id (1.35 * d * _)) by lra.
  pose proof (clamp_bounds (1.35 * d) 0 1 ltac:(lra)) as Hc.
  assert (Hle : clamp (1.35 * d) 0 1 <= 1.35 * d).
  { unfold clamp. rewrite (Rmax_left (1.35 * d) 0) by lra. apply Rmin_l. }
  split; intros Heq; nra.
Qed.

(** C4, amended.  The shell shader runs on every fragment whose normal,
    camera-to-fragment vector and sun direction are not null when
    [haloPower] is positive.  In every run the output alpha is
    [clamp((haloStrength * density * ring + 0.35 * sunSpot * ring)
           * (0.25 + 0.75 * smoothstep(-0.2, 0.25, sunOrientation)), 0, 1)]:
    the day/night factor is applied before the clamp, and its lower edge
    is -0.2.  That factor equals the surface haze factor (lower edge
    -0.15) for [sunOrientation <= -0.2] and for [sunOrientation >= 0.25],
    and is never below it. *)
Theorem halo_alpha_formula :
  (∀ u f,
     length (AtmosphereMaterial.vWorldNormal f) ≠ 0 →
     length (vsub (AtmosphereMaterial.cameraPosition u)
                  (AtmosphereMaterial.vWorldPosition f)) ≠ 0 →
     length (AtmosphereMaterial.sunDirection u) ≠ 0 →
     0 < AtmosphereMaterial.haloPower u →
     ∃ l, AtmosphereMaterial.run u f = Some l) ∧
  (∀ u f l, AtmosphereMaterial.run u f = Some l →
     AtmosphereMaterial.alpha l =
       clamp ((AtmosphereMaterial.haloStrength u * AtmosphereMaterial.density l
                 * AtmosphereMaterial.ring l
               + 0.35 * AtmosphereMaterial.sunSpot l * AtmosphereMaterial.ring l)
              * (0.25 + 0.75 * smoothstep (-0.2) 0.25
                                 (AtmosphereMaterial.sunOrientation l)))
             0 1 ∧
     ca (AtmosphereMaterial.gl_FragColor l) = AtmosphereMaterial.alpha l) ∧
  (∀ s, s <= -0.2 ∨ 0.25 <= s →
     AtmosphereMaterial.nightFactor s = EarthMaterial.sunFactor s) ∧
  (∀ s, EarthMaterial.sunFactor s <= AtmosphereMaterial.nightFactor s).
Proof.
  split; [| split; [| split]].
  - intros u f. apply shell_run_defined.
  - intros u f l H.
    destruct (shell_run_inv _ _ _ H)
      as (_ & _ & _ & _ & _ & _ & _ & _ & _ & _ & _ & _ & HA & HAl & HC).
    rewrite HC, HAl, HA. split; reflexivity.
  - intros s [Hs | Hs];
      unfold AtmosphereMaterial.nightFactor, EarthMaterial.sunFactor.
    + rewrite !smoothstep_below by lra. reflexivity.
    + rewrite !smoothstep_above by lra. reflexivity.
  - intros s. unfold AtmosphereMaterial.nightFactor, EarthMaterial.sunFactor.
    pose proof (smoothstep_edges_order s). lra.
Qed.

Lemma halo_alpha_formula_witness :
  (∃ l, AtmosphereMaterial.run
          (AtmosphereMaterial.limbUniforms (Vec3 0 1 0))
          AtmosphereMaterial.shellFragment = Some l ∧
        AtmosphereMaterial.alpha l =
          clamp ((1.35 * AtmosphereMaterial.density l * AtmosphereMaterial.ring l
                  + 0.35 * AtmosphereMaterial.sunSpot l * AtmosphereMaterial.ring l)
                 * (0.25 + 0.75 * smoothstep (-0.2) 0.25
                                    (AtmosphereMaterial.sunOrientation l)))
                0 1) ∧
  AtmosphereMaterial.nightFactor 0.5 = EarthMaterial.sunFactor 0.5.
Proof.
  destruct halo_alpha_formula as (Hdef & Hrun & Hsame & _).
  split.
  - destruct (Hdef (AtmosphereMaterial.limbUniforms (Vec3 0 1 0))
                   AtmosphereMaterial.shellFragment) as [l Hl];
      try (apply Rgt_not_eq, length_pos; unfold dot; simpl; lra);
      try (simpl; lra).
    exists l. split; [exact Hl |].
    apply (Hrun _ _ l Hl).
  - apply Hsame. right. lra.
Defined.

(** C5, as stated, fails on the code: looking straight up through the
    shell the alpha is 0, and on the sunlit grazing view it is 1. *)
Lemma halo_alpha_extremes :
  (∃ l, AtmosphereMaterial.run AtmosphereMaterial.overheadUniforms
          AtmosphereMaterial.shellFragment = Some l ∧
        AtmosphereMaterial.alpha l = 0) ∧
  (∃ l, AtmosphereMaterial.run
          (AtmosphereMaterial.limbUniforms (Vec3 0 0 (-1)))
          AtmosphereMaterial.shellFragment = Some l ∧
        AtmosphereMaterial.alpha l = 1).
Proof.
  split.
  - destruct overhead_run as (l & Hl & _ & Ha). exists l. split; assumption.
  - destruct (limb_run (Vec3 0 0 (-1)))
      as (l & Hl & Hs & Hr & Hsp & Hh & Hd & Ha);
      [unfold dot; simpl; lra | reflexivity |].
    exists l. split; [exact Hl |].
    destruct (shell_run_inv _ _ _ Hl)
      as (_ & _ & _ & _ & _ & _ & _ & _ & _ & _ & _ & _ & _ & HAl & _).
    rewrite HAl, Hs, Ha. simpl.
    assert (Hn : AtmosphereMaterial.nightFactor (- -1) = 1).
    { unfold AtmosphereMaterial.nightFactor.
      rewrite smoothstep_above by lra. lra. }
    rewrite Hn. apply clamp_high; lra.
Qed.

(** C5, amended.  The shell shader runs on every fragment whose normal,
    camera-to-fragment vector and sun direction are not null when
    [haloPower] is positive.  In every run the output alpha lies in the
    closed interval [0, 1]; it is 0 exactly when the sum
    [haloStrength * density * ring + 0.35 * sunSpot * ring] is not
    positive, and 1 exactly when that sum times the day/night factor
    reaches 1. *)
Theorem halo_alpha_range :
  (∀ u f,
     length (AtmosphereMaterial.vWorldNormal f) ≠ 0 →
     length (vsub (AtmosphereMaterial.cameraPosition u)
                  (AtmosphereMaterial.vWorldPosition f)) ≠ 0 →
     length (AtmosphereMaterial.sunDirection u) ≠ 0 →
     0 < AtmosphereMaterial.haloPower u →
     ∃ l, AtmosphereMaterial.run u f = Some l) ∧
  (∀ u f l,
     AtmosphereMaterial.run u f = Some l →
     0 <= AtmosphereMaterial.alpha l <= 1 ∧
     (AtmosphereMaterial.alpha l = 0 ↔ AtmosphereMaterial.alphaSum l <= 0) ∧
     (AtmosphereMaterial.alpha l = 1 ↔
        1 <= AtmosphereMaterial.alphaSum l
             * AtmosphereMaterial.nightFactor
                 (AtmosphereMaterial.sunOrientation l))).
Proof.
  split; [intros u f; apply shell_run_defined |].
  intros u f l H.
  destruct (shell_run_inv _ _ _ H)
    as (_ & _ & _ & _ & _ & _ & _ & _ & _ & _ & _ & _ & _ & HAl & _).
  rewrite HAl.
  pose proof (nightFactor_bounds (AtmosphereMaterial.sunOrientation l)) as Hn.
  set (a := AtmosphereMaterial.alphaSum l) in *.
  set (n := AtmosphereMaterial.nightFactor _) in *.
  split; [apply clamp_bounds; lra |].
  unfold clamp, Rmin, Rmax.
  destruct (Rle_dec (a * n) 0); destruct (Rle_dec _ 1); split; split;
    intros; try lra; try nra.
Qed.

Lemma halo_alpha_range_witness :
  ∃ l, AtmosphereMaterial.run AtmosphereMaterial.overheadUniforms
         AtmosphereMaterial.shellFragment = Some l ∧
       0 <= AtmosphereMaterial.alpha l <= 1.
Proof.
  destruct halo_alpha_range as (Hdef & Hrange).
  destruct (Hdef AtmosphereMaterial.overheadUniforms
                 AtmosphereMaterial.shellFragment) as [l Hl];
    try (apply Rgt_not_eq, length_pos; unfold dot; simpl; lra);
    try (simpl; lra).
  exists l. split; [exact Hl |].
  apply (Hrange _ _ l Hl).
Defined.

(** ** Totality of the two shaders *)

Lemma earth_run_lengths (u : EarthMaterial.Uniforms) (f : EarthMaterial.Fragment)
    (l : EarthMaterial.Locals) :
  EarthMaterial.run u f = Some l →
  length (EarthMaterial.vWorldNormal f) ≠ 0 ∧
  length (EarthMaterial.sunDirection u) ≠ 0 ∧
  length (vsub (EarthMaterial.cameraPosition u) (EarthMaterial.vWorldPosition f)) ≠ 0.
Proof.
  intros H. unfold EarthMaterial.run in H. bind_inv H.
  repeat split; eapply normalize_inv; eassumption.
Qed.

Lemma shell_run_lengths (u : AtmosphereMaterial.Uniforms)
    (f : AtmosphereMaterial.Fragment) (l : AtmosphereMaterial.Locals) :
  AtmosphereMaterial.run u f = Some l →
  length (AtmosphereMaterial.vWorldNormal f) ≠ 0 ∧
  length (vsub (AtmosphereMaterial.cameraPosition u)
               (AtmosphereMaterial.vWorldPosition f)) ≠ 0 ∧
  length (AtmosphereMaterial.sunDirection u) ≠ 0.
Proof.
  intros H. unfold AtmosphereMaterial.run in H. bind_inv H.
  repeat split; eapply normalize_inv; eassumption.
Qed.

(** C9, as stated, fails on the code: with the sun direction uniform
    left at the null vector neither shader has a finite output
    ([normalize(sunDirection)] divides by a zero length), and with
    [haloPower = 0] the overhead fragment of the shell has none either
    ([pow(0.0, 0.0)]). *)
Lemma shaders_not_total :
  EarthMaterial.main EarthMaterial.sunlessUniforms EarthMaterial.zenithFragment
    = None ∧
  AtmosphereMaterial.main
    (AtmosphereMaterial.createAtmosphereMaterial
       (Vec3 0.3 0.7 1) (Vec3 0.74 0.29 0.04) (Vec3 0 0 0) (Vec3 0 0 6400000))
    AtmosphereMaterial.shellFragment = None ∧
  AtmosphereMaterial.main
    (AtmosphereMaterial.set_haloPower 0 AtmosphereMaterial.overheadUniforms)
    AtmosphereMaterial.shellFragment = None.
Proof.
  split; [| split].
  - unfold EarthMaterial.main.
    rewrite earth_run_undefined_sun; [reflexivity | apply length_zero].
  - unfold AtmosphereMaterial.main.
    rewrite shell_run_undefined_sun; [reflexivity | apply length_zero].
  - unfold AtmosphereMaterial.main.
    destruct (AtmosphereMaterial.run _ _) as [l |] eqn:Hl; [exfalso | reflexivity].
    destruct (shell_run_inv _ _ _ Hl)
      as ((N0 & HN0 & HN) & HV & _ & _ & HF & HR & _).
    simpl in *.
    rewrite (normalize_unit_multiple (Vec3 0 0 1) _ 1) in HN0;
      [| unfold dot; simpl; lra | lra | unfold vscale; simpl; f_equal; lra].
    injection HN0 as <-.
    rewrite (normalize_unit_multiple (Vec3 0 0 (-1)) _ 225840) in HV;
      [| unfold dot; simpl; lra | lra | unfold vsub, vscale; simpl; f_equal; lra].
    injection HV as HV.
    rewrite HF, <- HV, HN in HR. unfold dot, vscale in HR. simpl in HR.
    replace (0 * (-1 * 0) + 0 * (-1 * 0) + -1 * (-1 * 1)) with 1 in HR by lra.
    rewrite Rabs_R1 in HR.
    rewrite clamp_low in HR by lra.
    rewrite pow_zero_nonpos in HR by lra. discriminate.
Qed.

(** C9, amended.  The four guarded divisions never fail, whatever the
    values of [hazeFalloff], [heightFade] and [atmosphereScale]: a
    denominator [max(t, 1e-6)] or [max(t, 1.0)] is strictly positive for
    every [t].  The surface shader produces a colour exactly when the world normal, the
    sun direction and the camera-to-fragment vector are not null, and the
    shell shader produces a colour and alpha whenever these three vectors
    are not null and [haloPower] is positive (and only if the three
    vectors are not null). *)
Theorem shaders_total_on_nonnull_vectors :
  (∀ (v : vec3) (x t : R),
     is_Some (vdiv v (Rmax t 1e-6)) ∧ is_Some (fdiv x (Rmax t 1e-6)) ∧
     is_Some (fdiv x (Rmax t 1)) ∧ 0 < Rmax t 1e-6 ∧ 0 < Rmax t 1) ∧
  (∀ u f,
     is_Some (EarthMaterial.main u f) ↔
     length (EarthMaterial.vWorldNormal f) ≠ 0 ∧
     length (EarthMaterial.sunDirection u) ≠ 0 ∧
     length (vsub (EarthMaterial.cameraPosition u)
                  (EarthMaterial.vWorldPosition f)) ≠ 0) ∧
  (∀ u f,
     length (AtmosphereMaterial.vWorldNormal f) ≠ 0 →
     length (vsub (AtmosphereMaterial.cameraPosition u)
                  (AtmosphereMaterial.vWorldPosition f)) ≠ 0 →
     length (AtmosphereMaterial.sunDirection u) ≠ 0 →
     0 < AtmosphereMaterial.haloPower u →
     is_Some (AtmosphereMaterial.main u f)) ∧
  (∀ u f,
     is_Some (AtmosphereMaterial.main u f) →
     length (AtmosphereMaterial.vWorldNormal f) ≠ 0 ∧
     length (vsub (AtmosphereMaterial.cameraPosition u)
                  (AtmosphereMaterial.vWorldPosition f)) ≠ 0 ∧
     length (AtmosphereMaterial.sunDirection u) ≠ 0).
Proof.
  split; [| split; [| split]].
  - intros v x t.
    pose proof (guard_small t) as Hs. pose proof (guard_one t) as Ho.
    rewrite vdiv_some, !fdiv_some by lra.
    repeat split; try (eexists; reflexivity); lra.
  - intros u f. unfold EarthMaterial.main. rewrite fmap_is_Some. split.
    + intros [l Hl]. exact (earth_run_lengths u f l Hl).
    + intros (HN & HS & HV). apply earth_run_defined; assumption.
  - intros u f HN HV HS HP. unfold AtmosphereMaterial.main.
    rewrite fmap_is_Some. apply shell_run_defined; assumption.
  - intros u f. unfold AtmosphereMaterial.main. rewrite fmap_is_Some.
    intros [l Hl]. exact (shell_run_lengths u f l Hl).
Qed.

Lemma shaders_total_on_nonnull_vectors_witness :
  is_Some (EarthMaterial.main
             (EarthMaterial.set_hazeFalloff (-3) EarthMaterial.zenithUniforms)
             EarthMaterial.zenithFragment) ∧
  is_Some (AtmosphereMaterial.main
             {| AtmosphereMaterial.sunDirection := Vec3 0 0 1;
                AtmosphereMaterial.atmosphereDayColor := Vec3 0.3 0.7 1;
                AtmosphereMaterial.atmosphereTwilightColor := Vec3 0.74 0.29 0.04;
                AtmosphereMaterial.atmosphereScale := 0;
                AtmosphereMaterial.haloStrength := 1.35;
                AtmosphereMaterial.haloPower := 2.2;
                AtmosphereMaterial.heightFade := -1;
                AtmosphereMaterial.cameraPosition := Vec3 0 0 6400000 |}
             AtmosphereMaterial.shellFragment).
Proof.
  destruct shaders_total_on_nonnull_vectors as (_ & Hearth & Hshell & _).
  split.
  - apply Hearth. simpl.
    repeat split; apply Rgt_not_eq, length_pos; unfold dot; simpl; lra.
  - apply Hshell; simpl;
      try (apply Rgt_not_eq, length_pos; unfold dot; simpl; lra).
    lra.
Defined.

(** ** Dates *)

Lemma Int_part_IZR (z : Z) : Int_part (IZR z) = z.
Proof. symmetry. apply Int_part_spec. lra. Qed.

Lemma trunc_IZR (z : Z) : Js.trunc (IZR z) = z.
Proof.
  unfold Js.trunc. destruct (Rle_dec 0 (IZR z)).
  - apply Int_part_IZR.
  - rewrite <- opp_IZR, Int_part_IZR. lia.
Qed.

Lemma trunc_close (x : R) : Rabs (IZR (Js.trunc x) - x) < 1.
Proof.
  unfold Js.trunc. destruct (Rle_dec 0 x).
  - destruct (base_Int_part x) as [H1 H2].
    apply Rabs_def1; lra.
  - destruct (base_Int_part (- x)) as [H1 H2].
    rewrite opp_IZR. apply Rabs_def1; lra.
Qed.



Lemma TimeClip_in_range (x : R) :
  Rabs x <= 8.64e15 → Js.TimeClip x = Some (Js.trunc x).
Proof.
  intros H. unfold Js.TimeClip.
  destruct (Rlt_dec 8.64e15 (Rabs x)); [lra | reflexivity].
Qed.

Lemma TimeClip_IZR (z : Z) :
  Rabs (IZR z) <= 8.64e15 → Js.TimeClip (IZR z) = Some z.
Proof. intros H. rewrite TimeClip_in_range by assumption. f_equal. apply trunc_IZR. Qed.

(** ** The lighting controller's clock *)

Lemma update_paused (d : R) (st : LightingSystem.t) :
  LightingSystem.timeSpeed st = 0 → LightingSystem.update d st = st.
Proof.
  intros H. unfold LightingSystem.update.
  destruct (Req_EM_T _ 0); [reflexivity | contradiction].
Qed.

Lemma update_running (d : R) (st : LightingSystem.t) :
  LightingSystem.timeSpeed st ≠ 0 →
  LightingSystem.update d st =
    LightingSystem.updateSunPosition None
      (LightingSystem.set_currentDate
         (Js.newDate (t ← Js.getTime (LightingSystem.currentDate st);
                      Some (t + d * 1000 * LightingSystem.timeSpeed st)))
         st).
Proof.
  intros H. unfold LightingSystem.update.
  destruct (Req_EM_T _ 0); [contradiction | reflexivity].
Qed.





(** ** Sun model switch *)

(** The sun position of a reachable state is the one its date, mode and
    location give, as soon as the full model is active. *)
Lemma reachable_full_model_coherent (st : LightingSystem.t) :
  LightingSystem.reachable st →
  LightingSystem.useSimplified st = false →
  LightingSystem.sun_position st =
    vscale (LightingSystem.sunDistance st) <$> LightingSystem.direction st.
Proof.
  induction 1 as [| d s _ _ | hh mm s _ _ | d s _ _ | la lo s _ _
                  | en s _ _ | v s _ IH | dt s _ IH | v s _ IH | v s _ IH];
    intros Hfull; try reflexivity.
  - discriminate Hfull.
  - apply IH, Hfull.
  - unfold LightingSystem.update in *.
    destruct (Req_EM_T (LightingSystem.timeSpeed s) 0);
      [apply IH, Hfull | reflexivity].
  - apply IH, Hfull.
  - apply IH, Hfull.
Qed.

(** C6. For every controller state in which the full model is active
    ([useSimplified = false]), [setSimplifiedMode(true)] followed by
    [setSimplifiedMode(false)] leaves latitude and longitude unchanged,
    leaves the full model active, and sets the sun position to the
    full-model direction for the state's date and location, scaled by
    the sun distance.  The result is the state that recomputing the sun
    position would give directly; for every state reached from the
    constructor by method calls it is the state before the switch, with
    the same sun direction. *)
Theorem simplified_mode_round_trip (st : LightingSystem.t) :
  LightingSystem.useSimplified st = false →
  let st' := LightingSystem.setSimplifiedMode false
               (LightingSystem.setSimplifiedMode true st) in
  LightingSystem.latitude st' = LightingSystem.latitude st ∧
  LightingSystem.longitude st' = LightingSystem.longitude st ∧
  LightingSystem.useSimplified st' = false ∧
  LightingSystem.sun_position st' =
    vscale (LightingSystem.sunDistance st)
      <$> SunCalculator.getSunDirectionVector
            (LightingSystem.currentDate st)
            (LightingSystem.latitude st) (LightingSystem.longitude st) ∧
  st' = LightingSystem.updateSunPosition None st ∧
  (LightingSystem.reachable st →
     st' = st ∧
     LightingSystem.getSunDirection st' = LightingSystem.getSunDirection st).
Proof.
  intros Hfull st'.
  assert (Hst' : st' = LightingSystem.updateSunPosition None st).
  { subst st'. destruct st as [pr sd sp si cd us la lo ts lu ai].
    simpl in Hfull. subst us. reflexivity. }
  assert (Hpos : LightingSystem.sun_position st' =
                   vscale (LightingSystem.sunDistance st)
                     <$> SunCalculator.getSunDirectionVector
                           (LightingSystem.currentDate st)
                           (LightingSystem.latitude st)
                           (LightingSystem.longitude st)).
  { rewrite Hst'. unfold LightingSystem.updateSunPosition,
      LightingSystem.direction. simpl. rewrite Hfull. reflexivity. }
  split; [rewrite Hst'; reflexivity |].
  split; [rewrite Hst'; reflexivity |].
  split; [rewrite Hst'; exact Hfull |].
  split; [exact Hpos |].
  split; [exact Hst' |].
  intros Hreach.
  assert (Heq : st' = st).
  { rewrite Hst'.
    pose proof (reachable_full_model_coherent st Hreach Hfull) as Hco.
    destruct st as [pr sd sp si cd us la lo ts lu ai].
    unfold LightingSystem.updateSunPosition, LightingSystem.set_sun_position.
    simpl in *. rewrite <- Hco. reflexivity. }
  split; [exact Heq | rewrite Heq; reflexivity].
Qed.

Lemma simplified_mode_round_trip_witness :
  let st := LightingSystem.setLocation 40.7128 (-74.0060)
              (LightingSystem.constructor 6371000 149597870700
                 (Some 1700000000000%Z) 0) in
  let st' := LightingSystem.setSimplifiedMode false
               (LightingSystem.setSimplifiedMode true st) in
  LightingSystem.latitude st' = 40.7128 ∧
  LightingSystem.longitude st' = -74.0060 ∧
  st' = st.
Proof.
  simpl.
  destruct (simplified_mode_round_trip
              (LightingSystem.setLocation 40.7128 (-74.0060)
                 (LightingSystem.constructor 6371000 149597870700
                    (Some 1700000000000%Z) 0)) eq_refl)
    as (Hlat & Hlng & _ & _ & _ & Hsame).
  split; [exact Hlat | split; [exact Hlng |]].
  apply Hsame.
  apply LightingSystem.reach_setLocation, LightingSystem.reach_constructor.
Defined.

(** ** [updateSunPosition] and the stored date *)

(** C10. [updateSunPosition(date)] with a date stores that date as the
    controller's [currentDate]: the time info reports it and the next
    [update] advances from it; it changes no other field than
    [currentDate] and the sun position.  [updateSunPosition()] with no
    argument recomputes the sun position from the stored [currentDate]
    and changes no field other than the sun position. *)
Theorem updateSunPosition_frame :
  (∀ d st,
     let st' := LightingSystem.updateSunPosition (Some d) st in
     LightingSystem.currentDate st' = d ∧
     LightingSystem.date (LightingSystem.getTimeInfo st') = d ∧
     LightingSystem.hours (LightingSystem.getTimeInfo st') = Js.getUTCHours d ∧
     LightingSystem.minutes (LightingSystem.getTimeInfo st') = Js.getUTCMinutes d ∧
     (∀ dt, LightingSystem.timeSpeed st ≠ 0 →
        LightingSystem.currentDate (LightingSystem.update dt st')
          = Js.newDate (t ← Js.getTime d;
                        Some (t + dt * 1000 * LightingSystem.timeSpeed st))) ∧
     LightingSystem.sun_position st' =
       vscale (LightingSystem.sunDistance st)
         <$> LightingSystem.direction (LightingSystem.set_currentDate d st) ∧
     LightingSystem.planetRadius st' = LightingSystem.planetRadius st ∧
     LightingSystem.sunDistance st' = LightingSystem.sunDistance st ∧
     LightingSystem.sun_intensity st' = LightingSystem.sun_intensity st ∧
     LightingSystem.useSimplified st' = LightingSystem.useSimplified st ∧
     LightingSystem.latitude st' = LightingSystem.latitude st ∧
     LightingSystem.longitude st' = LightingSystem.longitude st ∧
     LightingSystem.timeSpeed st' = LightingSystem.timeSpeed st ∧
     LightingSystem.lastUpdateTime st' = LightingSystem.lastUpdateTime st ∧
     LightingSystem.ambient_intensity st' = LightingSystem.ambient_intensity st) ∧
  (∀ st,
     let st' := LightingSystem.updateSunPosition None st in
     LightingSystem.sun_position st' =
       vscale (LightingSystem.sunDistance st) <$> LightingSystem.direction st ∧
     LightingSystem.currentDate st' = LightingSystem.currentDate st ∧
     LightingSystem.planetRadius st' = LightingSystem.planetRadius st ∧
     LightingSystem.sunDistance st' = LightingSystem.sunDistance st ∧
     LightingSystem.sun_intensity st' = LightingSystem.sun_intensity st ∧
     LightingSystem.useSimplified st' = LightingSystem.useSimplified st ∧
     LightingSystem.latitude st' = LightingSystem.latitude st ∧
     LightingSystem.longitude st' = LightingSystem.longitude st ∧
     LightingSystem.timeSpeed st' = LightingSystem.timeSpeed st ∧
     LightingSystem.lastUpdateTime st' = LightingSystem.lastUpdateTime st ∧
     LightingSystem.ambient_intensity st' = LightingSystem.ambient_intensity st).
Proof.
  split.
  - intros d st st'. subst st'.
    repeat (split; [reflexivity |]).
    split.
    + intros dt Hs. rewrite update_running by exact Hs. reflexivity.
    + repeat split.
  - intros st st'. subst st'. repeat split.
Qed.

Lemma updateSunPosition_frame_witness :
  let st := LightingSystem.setTimeSpeed 60
              (LightingSystem.constructor 6371000 149597870700
                 (Some 1700000000000%Z) 0) in
  let d : Js.Date := Some 1718971200000%Z in
  LightingSystem.currentDate
    (LightingSystem.update 1 (LightingSystem.updateSunPosition (Some d) st))
    = Js.newDate (t ← Js.getTime d; Some (t + 1 * 1000 * 60)).
Proof.
  simpl.
  destruct updateSunPosition_frame as (Hset & _).
  destruct (Hset (Some 1718971200000%Z)
              (LightingSystem.setTimeSpeed 60
                 (LightingSystem.constructor 6371000 149597870700
                    (Some 1700000000000%Z) 0)))
    as (_ & _ & _ & _ & Hnext & _).
  apply Hnext. simpl. lra.
Defined.

(** ** Uniform tables: allocation and sharing *)

Import MaterialFactory.

Lemma js_bind_inv {A B : Type} (m : JS A) (f : A → JS B)
    (h h' : gmap loc object) (b : B) :
  (m ≫= f) h = Some (b, h') →
  ∃ a h1, m h = Some (a, h1) ∧ f a h1 = Some (b, h').
Proof.
  unfold mbind, JS_bind. destruct (m h) as [[a h1] |]; [| discriminate].
  intros H. exists a, h1. split; [reflexivity | exact H].
Qed.

Lemma holder_inv (v : value) (h h1 : gmap loc object) (l : loc) :
  holder v h = Some (l, h1) →
  h !! l = None ∧ h1 !! l = Some (Holder v) ∧ h ⊆ h1.
Proof.
  unfold holder, new. intros [= <- <-].
  assert (Hn : h !! fresh (dom h) = None)
    by (apply not_elem_of_dom, is_fresh).
  split; [exact Hn | split].
  - apply lookup_insert_eq.
  - apply insert_subseteq, Hn.
Qed.

Lemma prop_inv (U : gmap string loc) (k : string) (h h1 : gmap loc object)
    (l : loc) :
  prop U k h = Some (l, h1) → U !! k = Some l ∧ h1 = h.
Proof.
  unfold prop. destruct (U !! k) as [l' |]; [| discriminate].
  simpl. intros [= <- <-]. split; reflexivity.
Qed.

Lemma copy_holder_inv (U : gmap string loc) (k : string)
    (h h1 : gmap loc object) (l : loc) :
  copy_holder U k h = Some (l, h1) →
  ∃ l0 v, U !! k = Some l0 ∧ h !! l0 = Some (Holder v) ∧ l ≠ l0 ∧
          h !! l = None ∧ h1 !! l = Some (Holder v) ∧ h ⊆ h1.
Proof.
  unfold copy_holder. intros H.
  apply js_bind_inv in H as (l0 & h0 & H0 & H).
  apply js_bind_inv in H as (v & h0' & Hv & H).
  apply prop_inv in H0 as [HU ->].
  unfold get_value in Hv.
  destruct (h !! l0) as [[v' | ?] |] eqn:Hh; try discriminate.
  injection Hv as <- <-.
  apply holder_inv in H as (Hn & Hl & Hsub).
  exists l0, v'. repeat split; try assumption.
  intros ->. congruence.
Qed.

(** What [clone] returns, entry by entry. *)
Lemma clone_inv (m c : Material) (h h' : gmap loc object) :
  clone m h = Some (c, h') →
  h ⊆ h' ∧
  clone_uniforms c = clone_uniforms m ∧
  side c = side m ∧
  render_uniforms c = None ∧
  (∀ k, k ∈ shared_uniforms →
     is_Some (uniforms c !! k) ∧ uniforms c !! k = clone_uniforms m !! k) ∧
  (∀ k, k ∈ copied_uniforms →
     ∃ l0 l v, clone_uniforms m !! k = Some l0 ∧ uniforms c !! k = Some l ∧
               l ≠ l0 ∧ h !! l = None ∧
               h' !! l0 = Some (Holder v) ∧ h' !! l = Some (Holder v)) ∧
  (∃ l, uniforms c !! "imageryTexture" = Some l ∧ h !! l = None ∧
        h' !! l = Some (Holder Null)) ∧
  (∃ l, uniforms c !! "useImagery" = Some l ∧ h !! l = None ∧
        h' !! l = Some (Holder (Num 0))) ∧
  (∀ k, k ∈ ["atmosphereScale"; "hazeStrength"; "hazeFalloff"; "hazeMax"] →
     uniforms c !! k = None).
Proof.
  unfold clone. intros H.
  apply js_bind_inv in H as (l1 & h1 & H1 & H).
  apply copy_holder_inv in H1 as (b1 & v1 & Hb1 & Hv1 & Hd1 & Hn1 & Hl1 & S1).
  apply js_bind_inv in H as (l2 & h2 & H2 & H).
  apply copy_holder_inv in H2 as (b2 & v2 & Hb2 & Hv2 & Hd2 & Hn2 & Hl2 & S2).
  apply js_bind_inv in H as (l3 & h3 & H3 & H).
  apply copy_holder_inv in H3 as (b3 & v3 & Hb3 & Hv3 & Hd3 & Hn3 & Hl3 & S3).
  apply js_bind_inv in H as (l4 & h4 & H4 & H).
  apply holder_inv in H4 as (Hn4 & Hl4 & S4).
  apply js_bind_inv in H as (l5 & h5 & H5 & H).
  apply holder_inv in H5 as (Hn5 & Hl5 & S5).
  apply js_bind_inv in H as (s1 & h5a & P1 & H). apply prop_inv in P1 as [Hs1 ->].
  apply js_bind_inv in H as (s2 & h5b & P2 & H). apply prop_inv in P2 as [Hs2 ->].
  apply js_bind_inv in H as (s3 & h5c & P3 & H). apply prop_inv in P3 as [Hs3 ->].
  apply js_bind_inv in H as (l6 & h6 & H6 & H).
  apply copy_holder_inv in H6 as (b6 & v6 & Hb6 & Hv6 & Hd6 & Hn6 & Hl6 & S6).
  apply js_bind_inv in H as (l7 & h7 & H7 & H).
  apply copy_holder_inv in H7 as (b7 & v7 & Hb7 & Hv7 & Hd7 & Hn7 & Hl7 & S7).
  injection H as <- <-. simpl.
  assert (T1 : h ⊆ h7) by (repeat (etrans; [eassumption |]); reflexivity).
  assert (T2 : h1 ⊆ h7) by (repeat (etrans; [eassumption |]); reflexivity).
  assert (T3 : h2 ⊆ h7) by (repeat (etrans; [eassumption |]); reflexivity).
  assert (T4 : h3 ⊆ h7) by (repeat (etrans; [eassumption |]); reflexivity).
  assert (T5 : h4 ⊆ h7) by (repeat (etrans; [eassumption |]); reflexivity).
  assert (T6 : h5 ⊆ h7) by (repeat (etrans; [eassumption |]); reflexivity).
  assert (U1 : h ⊆ h1) by assumption.
  assert (U2 : h ⊆ h2) by (etrans; eassumption).
  assert (U3 : h ⊆ h3) by (etrans; eassumption).
  assert (U4 : h ⊆ h4) by (etrans; eassumption).
  assert (U5 : h ⊆ h5) by (etrans; eassumption).
  assert (U6 : h ⊆ h6) by (etrans; eassumption).
  split; [exact T1 |].
  do 3 (split; [reflexivity |]).
  split; [| split; [| split; [| split]]].
  - intros k Hk. unfold shared_uniforms in Hk.
    rewrite !elem_of_cons, elem_of_nil in Hk.
    destruct Hk as [-> | [-> | [-> | []]]].
    + rewrite Hs1. split; [eexists |]; reflexivity.
    + rewrite Hs2. split; [eexists |]; reflexivity.
    + rewrite Hs3. split; [eexists |]; reflexivity.
  - intros k Hk. unfold copied_uniforms in Hk.
    rewrite !elem_of_cons, elem_of_nil in Hk.
    destruct Hk as [-> | [-> | [-> | [-> | [-> | []]]]]].
    + exists b1, l1, v1. repeat split; try assumption; try reflexivity.
      * eapply lookup_weaken; [exact Hv1 | exact T1].
      * eapply lookup_weaken; [exact Hl1 | exact T2].
    + exists b2, l2, v2. repeat split; try assumption; try reflexivity.
      * eapply lookup_weaken_None; [exact Hn2 | exact U1].
      * eapply lookup_weaken; [exact Hv2 | exact T2].
      * eapply lookup_weaken; [exact Hl2 | exact T3].
    + exists b3, l3, v3. repeat split; try assumption; try reflexivity.
      * eapply lookup_weaken_None; [exact Hn3 | exact U2].
      * eapply lookup_weaken; [exact Hv3 | exact T3].
      * eapply lookup_weaken; [exact Hl3 | exact T4].
    + exists b6, l6, v6. repeat split; try assumption; try reflexivity.
      * eapply lookup_weaken_None; [exact Hn6 | exact U5].
      * eapply lookup_weaken; [exact Hv6 | exact T6].
      * eapply lookup_weaken; [exact Hl6 | exact S7].
    + exists b7, l7, v7. repeat split; try assumption; try reflexivity.
      * eapply lookup_weaken_None; [exact Hn7 | exact U6].
      * eapply lookup_weaken; [exact Hv7 | exact S7].
  - exists l4. split; [reflexivity | split].
    + eapply lookup_weaken_None; [exact Hn4 | exact U3].
    + eapply lookup_weaken; [exact Hl4 | exact T5].
  - exists l5. split; [reflexivity | split].
    + eapply lookup_weaken_None; [exact Hn5 | exact U4].
    + eapply lookup_weaken; [exact Hl5 | exact T6].
  - intros k Hk. rewrite !elem_of_cons, elem_of_nil in Hk.
    destruct Hk as [-> | [-> | [-> | [-> | []]]]]; reflexivity.
Qed.

Lemma js_bind_some {A B : Type} (m : JS A) (f : A → JS B)
    (h h1 : gmap loc object) (a : A) :
  m h = Some (a, h1) → (m ≫= f) h = f a h1.
Proof. intros H. unfold mbind, JS_bind. rewrite H. reflexivity. Qed.

Lemma newVector3_inv (v : vec3) (h h1 : gmap loc object) (r : value) :
  newVector3 v h = Some (r, h1) →
  ∃ l, r = Ref l ∧ h !! l = None ∧ h1 !! l = Some (Vector3 v) ∧ h ⊆ h1.
Proof.
  unfold newVector3, new. intros H.
  apply js_bind_inv in H as (l & h' & Hnew & H).
  injection Hnew as <- <-. injection H as <- <-.
  assert (Hn : h !! fresh (dom h) = None)
    by (apply not_elem_of_dom, is_fresh).
  exists (fresh (dom h)). split; [reflexivity | split; [exact Hn | split]].
  - apply lookup_insert_eq.
  - apply insert_subseteq, Hn.
Qed.

Lemma copy_holder_defined (U : gmap string loc) (k : string)
    (h : gmap loc object) :
  (∃ l0 v, U !! k = Some l0 ∧ h !! l0 = Some (Holder v)) →
  ∃ l h1, copy_holder U k h = Some (l, h1) ∧ h ⊆ h1.
Proof.
  intros (l0 & v & HU & Hv). unfold copy_holder.
  rewrite (js_bind_some _ _ h h l0) by (unfold prop; rewrite HU; reflexivity).
  rewrite (js_bind_some _ _ h h v) by (unfold get_value; rewrite Hv; reflexivity).
  destruct (holder v h) as [[l h1] |] eqn:E; [| discriminate E].
  exists l, h1. split; [reflexivity |].
  apply holder_inv in E. apply E.
Qed.

Lemma live_weaken (U : gmap string loc) (k : string) (h h1 : gmap loc object) :
  h ⊆ h1 →
  (∃ l0 v, U !! k = Some l0 ∧ h !! l0 = Some (Holder v)) →
  ∃ l0 v, U !! k = Some l0 ∧ h1 !! l0 = Some (Holder v).
Proof.
  intros Hs (l0 & v & HU & Hv). exists l0, v.
  split; [exact HU | eapply lookup_weaken; eassumption].
Qed.

Ltac in_list :=
  unfold copied_uniforms, shared_uniforms; simpl;
  repeat first [apply list_elem_of_here | apply list_elem_of_further].

(** [clone] returns a material whenever the eight entries it reads are
    holders of the store. *)
Lemma clone_defined (m : Material) (h : gmap loc object) :
  (∀ k, k ∈ copied_uniforms ++ shared_uniforms →
     ∃ l0 v, clone_uniforms m !! k = Some l0 ∧ h !! l0 = Some (Holder v)) →
  ∃ c h', clone m h = Some (c, h').
Proof.
  intros Hlive.
  assert (Hk : ∀ k, k ∈ copied_uniforms ++ shared_uniforms →
               ∀ h1, h ⊆ h1 →
               ∃ l0 v, clone_uniforms m !! k = Some l0 ∧
                       h1 !! l0 = Some (Holder v)).
  { intros k Hin h1 Hs. eapply live_weaken; [exact Hs | apply Hlive, Hin]. }
  assert (Hp : ∀ k, k ∈ copied_uniforms ++ shared_uniforms →
               ∀ h1, ∃ l0, prop (clone_uniforms m) k h1 = Some (l0, h1)).
  { intros k Hin h1. destruct (Hlive k Hin) as (l0 & v & HU & _).
    exists l0. unfold prop. rewrite HU. reflexivity. }
  unfold clone.
  destruct (copy_holder_defined (clone_uniforms m) "dayTexture" h)
    as (l1 & h1 & E1 & S1); [apply Hk; [in_list | reflexivity] |].
  rewrite (js_bind_some _ _ _ _ _ E1).
  destruct (copy_holder_defined (clone_uniforms m) "nightTexture" h1)
    as (l2 & h2 & E2 & S2); [apply Hk; [in_list | assumption] |].
  rewrite (js_bind_some _ _ _ _ _ E2).
  assert (S02 : h ⊆ h2) by (etrans; eassumption).
  destruct (copy_holder_defined (clone_uniforms m)
              "bumpRoughnessCloudsTexture" h2)
    as (l3 & h3 & E3 & S3); [apply Hk; [in_list | assumption] |].
  rewrite (js_bind_some _ _ _ _ _ E3).
  assert (S03 : h ⊆ h3) by (etrans; eassumption).
  destruct (holder Null h3) as [[l4 h4] |] eqn:E4; [| discriminate E4].
  rewrite (js_bind_some _ _ _ _ _ E4).
  apply holder_inv in E4 as (_ & _ & S4).
  assert (S04 : h ⊆ h4) by (etrans; eassumption).
  destruct (holder (Num 0) h4) as [[l5 h5] |] eqn:E5; [| discriminate E5].
  rewrite (js_bind_some _ _ _ _ _ E5).
  apply holder_inv in E5 as (_ & _ & S5).
  assert (S05 : h ⊆ h5) by (etrans; eassumption).
  destruct (Hp "sunDirection" ltac:(in_list) h5) as [s1 P1].
  rewrite (js_bind_some _ _ _ _ _ P1).
  destruct (Hp "atmosphereDayColor" ltac:(in_list) h5) as [s2 P2].
  rewrite (js_bind_some _ _ _ _ _ P2).
  destruct (Hp "atmosphereTwilightColor" ltac:(in_list) h5) as [s3 P3].
  rewrite (js_bind_some _ _ _ _ _ P3).
  destruct (copy_holder_defined (clone_uniforms m) "roughnessLow" h5)
    as (l6 & h6 & E6 & S6); [apply Hk; [in_list | assumption] |].
  rewrite (js_bind_some _ _ _ _ _ E6).
  assert (S06 : h ⊆ h6) by (etrans; eassumption).
  destruct (copy_holder_defined (clone_uniforms m) "roughnessHigh" h6)
    as (l7 & h7 & E7 & S7); [apply Hk; [in_list | assumption] |].
  rewrite (js_bind_some _ _ _ _ _ E7).
  eexists _, _. reflexivity.
Qed.

Ltac chain := first [reflexivity | etrans; [eassumption | chain]].

(** What [createEarthMaterial] builds: fourteen holders and three
    vectors, all new, with the values of the arguments and defaults. *)
Lemma createEarthMaterial_inv (textures : Textures) (options : Options)
    (h0 h : gmap loc object) (m : Material) :
  createEarthMaterial textures options h0 = Some (m, h) →
  h0 ⊆ h ∧
  clone_uniforms m = uniforms m ∧
  render_uniforms m = Some (uniforms m) ∧
  side m = DoubleSide ∧
  (∀ k v,
     (k, v) ∈ [("dayTexture", day textures);
               ("nightTexture", night textures);
               ("bumpRoughnessCloudsTexture", bumpRoughnessClouds textures);
               ("imageryTexture", Null);
               ("useImagery", Num 0);
               ("roughnessLow", Num (default 0.25 (roughnessLow options)));
               ("roughnessHigh", Num (default 0.35 (roughnessHigh options)));
               ("atmosphereScale", Num (default 1.04 (atmosphereScale options)));
               ("hazeStrength", Num (default 0.85 (hazeStrength options)));
               ("hazeFalloff", Num (default 900000 (hazeFalloff options)));
               ("hazeMax", Num (default 0.85 (hazeMax options)))] →
     ∃ l, uniforms m !! k = Some l ∧ h0 !! l = None ∧
          h !! l = Some (Holder v)) ∧
  (∀ k p,
     (k, p) ∈ [("sunDirection", Vec3 0 0 0);
               ("atmosphereDayColor", atmosphereDayColor options);
               ("atmosphereTwilightColor", atmosphereTwilightColor options)] →
     ∃ l lv, uniforms m !! k = Some l ∧ h0 !! l = None ∧
             h !! l = Some (Holder (Ref lv)) ∧
             h !! lv = Some (Vector3 p)).
Proof.
  unfold createEarthMaterial. intros H.
  apply js_bind_inv in H as (l1 & h1 & E1 & H).
  apply holder_inv in E1 as (N1 & L1 & S1).
  apply js_bind_inv in H as (l2 & h2 & E2 & H).
  apply holder_inv in E2 as (N2 & L2 & S2).
  apply js_bind_inv in H as (l3 & h3 & E3 & H).
  apply holder_inv in E3 as (N3 & L3 & S3).
  apply js_bind_inv in H as (l4 & h4 & E4 & H).
  apply holder_inv in E4 as (N4 & L4 & S4).
  apply js_bind_inv in H as (l5 & h5 & E5 & H).
  apply holder_inv in E5 as (N5 & L5 & S5).
  apply js_bind_inv in H as (r6 & h6 & E6 & H).
  apply newVector3_inv in E6 as (p6 & -> & N6 & L6 & S6).
  apply js_bind_inv in H as (l7 & h7 & E7 & H).
  apply holder_inv in E7 as (N7 & L7 & S7).
  apply js_bind_inv in H as (r8 & h8 & E8 & H).
  apply newVector3_inv in E8 as (p8 & -> & N8 & L8 & S8).
  apply js_bind_inv in H as (l9 & h9 & E9 & H).
  apply holder_inv in E9 as (N9 & L9 & S9).
  apply js_bind_inv in H as (r10 & h10 & E10 & H).
  apply newVector3_inv in E10 as (p10 & -> & N10 & L10 & S10).
  apply js_bind_inv in H as (l11 & h11 & E11 & H).
  apply holder_inv in E11 as (N11 & L11 & S11).
  apply js_bind_inv in H as (l12 & h12 & E12 & H).
  apply holder_inv in E12 as (N12 & L12 & S12).
  apply js_bind_inv in H as (l13 & h13 & E13 & H).
  apply holder_inv in E13 as (N13 & L13 & S13).
  apply js_bind_inv in H as (l14 & h14 & E14 & H).
  apply holder_inv in E14 as (N14 & L14 & S14).
  apply js_bind_inv in H as (l15 & h15 & E15 & H).
  apply holder_inv in E15 as (N15 & L15 & S15).
  apply js_bind_inv in H as (l16 & h16 & E16 & H).
  apply holder_inv in E16 as (N16 & L16 & S16).
  apply js_bind_inv in H as (l17 & h17 & E17 & H).
  apply holder_inv in E17 as (N17 & L17 & S17).
  injection H as <- <-. simpl.
  split; [chain |].
  do 3 (split; [reflexivity |]).
  split.
  - intros k v Hk.
    repeat match type of Hk with
           | _ ∈ _ :: _ =>
               let Heq := fresh "Heq" in
               apply elem_of_cons in Hk as [Heq | Hk];
                 [injection Heq as -> ->;
                  eexists; split; [reflexivity | split];
                  [eapply lookup_weaken_None; [eassumption | chain]
                  | eapply lookup_weaken; [eassumption | chain]] |]
           end.
    apply elem_of_nil in Hk. contradiction.
  - intros k p Hk.
    repeat match type of Hk with
           | _ ∈ _ :: _ =>
               let Heq := fresh "Heq" in
               apply elem_of_cons in Hk as [Heq | Hk];
                 [injection Heq as -> ->;
                  eexists _, _; split; [reflexivity | split; [| split]];
                  [eapply lookup_weaken_None; [eassumption | chain]
                  | eapply lookup_weaken; [eassumption | chain]
                  | eapply lookup_weaken; [eassumption | chain]] |]
           end.
    apply elem_of_nil in Hk. contradiction.
Qed.

Lemma holder_defined (v : value) (h : gmap loc object) :
  ∃ l h1, holder v h = Some (l, h1).
Proof. eexists _, _. reflexivity. Qed.

Lemma newVector3_defined (v : vec3) (h : gmap loc object) :
  ∃ r h1, newVector3 v h = Some (r, h1).
Proof. eexists _, _. reflexivity. Qed.

Lemma createEarthMaterial_defined (textures : Textures) (options : Options)
    (h0 : gmap loc object) :
  ∃ m h, createEarthMaterial textures options h0 = Some (m, h).
Proof.
  unfold createEarthMaterial.
  match goal with |- context [holder ?v ≫= _] =>
    destruct (holder_defined v h0) as (l1 & h1 & E1) end.
  rewrite (js_bind_some _ _ _ _ _ E1).
  match goal with |- context [holder ?v ≫= _] =>
    destruct (holder_defined v h1) as (l2 & h2 & E2) end.
  rewrite (js_bind_some _ _ _ _ _ E2).
  match goal with |- context [holder ?v ≫= _] =>
    destruct (holder_defined v h2) as (l3 & h3 & E3) end.
  rewrite (js_bind_some _ _ _ _ _ E3).
  match goal with |- context [holder ?v ≫= _] =>
    destruct (holder_defined v h3) as (l4 & h4 & E4) end.
  rewrite (js_bind_some _ _ _ _ _ E4).
  match goal with |- context [holder ?v ≫= _] =>
    destruct (holder_defined v h4) as (l5 & h5 & E5) end.
  rewrite (js_bind_some _ _ _ _ _ E5).
  match goal with |- context [newVector3 ?v ≫= _] =>
    destruct (newVector3_defined v h5) as (l6 & h6 & E6) end.
  rewrite (js_bind_some _ _ _ _ _ E6).
  match goal with |- context [holder ?v ≫= _] =>
    destruct (holder_defined v h6) as (l7 & h7 & E7) end.
  rewrite (js_bind_some _ _ _ _ _ E7).
  match goal with |- context [newVector3 ?v ≫= _] =>
    destruct (newVector3_defined v h7) as (l8 & h8 & E8) end.
  rewrite (js_bind_some _ _ _ _ _ E8).
  match goal with |- context [holder ?v ≫= _] =>
    destruct (holder_defined v h8) as (l9 & h9 & E9) end.
  rewrite (js_bind_some _ _ _ _ _ E9).
  match goal with |- context [newVector3 ?v ≫= _] =>
    destruct (newVector3_defined v h9) as (l10 & h10 & E10) end.
  rewrite (js_bind_some _ _ _ _ _ E10).
  match goal with |- context [holder ?v ≫= _] =>
    destruct (holder_defined v h10) as (l11 & h11 & E11) end.
  rewrite (js_bind_some _ _ _ _ _ E11).
  match goal with |- context [holder ?v ≫= _] =>
    destruct (holder_defined v h11) as (l12 & h12 & E12) end.
  rewrite (js_bind_some _ _ _ _ _ E12).
  match goal with |- context [holder ?v ≫= _] =>
    destruct (holder_defined v h12) as (l13 & h13 & E13) end.
  rewrite (js_bind_some _ _ _ _ _ E13).
  match goal with |- context [holder ?v ≫= _] =>
    destruct (holder_defined v h13) as (l14 & h14 & E14) end.
  rewrite (js_bind_some _ _ _ _ _ E14).
  match goal with |- context [holder ?v ≫= _] =>
    destruct (holder_defined v h14) as (l15 & h15 & E15) end.
  rewrite (js_bind_some _ _ _ _ _ E15).
  match goal with |- context [holder ?v ≫= _] =>
    destruct (holder_defined v h15) as (l16 & h16 & E16) end.
  rewrite (js_bind_some _ _ _ _ _ E16).
  match goal with |- context [holder ?v ≫= _] =>
    destruct (holder_defined v h16) as (l17 & h17 & E17) end.
  rewrite (js_bind_some _ _ _ _ _ E17).
  eexists _, _. reflexivity.
Qed.

Lemma createEarthMaterial_clone_defined (textures : Textures)
    (options : Options) (h0 : gmap loc object) :
  ∃ m h c h',
    createEarthMaterial textures options h0 = Some (m, h) ∧
    clone_uniforms m = uniforms m ∧
    clone m h = Some (c, h').
Proof.
  destruct (createEarthMaterial_defined textures options h0) as (m & h & Hm).
  destruct (createEarthMaterial_inv _ _ _ _ _ Hm)
    as (_ & Hcu & _ & _ & Hscalar & Hvec).
  destruct (clone_defined m h) as (c & h' & Hc).
  - intros k Hk. rewrite Hcu.
    unfold copied_uniforms, shared_uniforms in Hk. simpl in Hk.
    rewrite !elem_of_cons, elem_of_nil in Hk.
    destruct Hk as [-> | [-> | [-> | [-> | [-> | [-> | [-> | [-> | []]]]]]]]].
    + destruct (Hscalar "dayTexture" _ ltac:(in_list)) as (l & Hl & _ & Hv); eauto.
    + destruct (Hscalar "nightTexture" _ ltac:(in_list)) as (l & Hl & _ & Hv); eauto.
    + destruct (Hscalar "bumpRoughnessCloudsTexture" _ ltac:(in_list))
        as (l & Hl & _ & Hv); eauto.
    + destruct (Hscalar "roughnessLow" _ ltac:(in_list)) as (l & Hl & _ & Hv); eauto.
    + destruct (Hscalar "roughnessHigh" _ ltac:(in_list)) as (l & Hl & _ & Hv); eauto.
    + destruct (Hvec "sunDirection" _ ltac:(in_list)) as (l & lv & Hl & _ & Hv & _); eauto.
    + destruct (Hvec "atmosphereDayColor" _ ltac:(in_list))
        as (l & lv & Hl & _ & Hv & _); eauto.
    + destruct (Hvec "atmosphereTwilightColor" _ ltac:(in_list))
        as (l & lv & Hl & _ & Hv & _); eauto.
  - exists m, h, c, h'. split; [exact Hm | split; [exact Hcu | exact Hc]].
Qed.

(** ** Base material and clone *)

(** C7, as stated, fails on the code: [roughnessLow] is a shading
    parameter that the clone does not share by reference.  After
    [updateEarthMaterialUniforms(base, { roughnessLow: 0.9 })] the base
    reads 0.9 and its clone still reads the 0.25 it copied. *)
Lemma clone_not_fully_shared :
  "roughnessLow" ∈ shading_parameters ∧
  fst <$> roughnessScenario ∅ = Some (Num 0.9, Num 0.25) ∧
  Num 0.9 ≠ Num 0.25.
Proof.
  split; [unfold shading_parameters; in_list |].
  split; [vm_compute; reflexivity |].
  intros [= H]. lra.
Qed.

(** The sun direction written by the base material's [onBeforeRender]
    is what its clone reads. *)
Lemma sun_seen_through_clone (p : vec3) :
  fst <$> sunScenario p ∅ = Some (SunCalculator.normalize3 p).
Proof. vm_compute. reflexivity. Qed.

(** An imagery texture set on the clone stays on the clone. *)
Lemma overlay_is_per_tile :
  fst <$> overlayScenario ∅
    = Some (Null, Tex "tile_12_654_1583.png", Num 0, Num 1).
Proof. vm_compute. reflexivity. Qed.

(** C7, amended.  [clone()] of a material produced by
    [createEarthMaterial] returns a material.  The clone shares by
    reference exactly the [sunDirection], [atmosphereDayColor] and
    [atmosphereTwilightColor] uniform holders of the base, so in every
    later store both read the same value for them.  The three texture
    handles and the two roughness values are copied into new holders of
    the clone, distinct from the base's and with the same content at
    clone time; the overlay slot is a new holder too, empty, with
    [useImagery = 0].  Nothing that existed before the call is changed. *)
Theorem clone_sharing :
  (∀ textures options h0,
     ∃ m h c h',
       createEarthMaterial textures options h0 = Some (m, h) ∧
       clone_uniforms m = uniforms m ∧
       clone m h = Some (c, h')) ∧
  (∀ m h c h',
     clone_uniforms m = uniforms m →
     clone m h = Some (c, h') →
     h ⊆ h' ∧
     (∀ k, k ∈ shared_uniforms →
        is_Some (uniforms c !! k) ∧
        uniforms c !! k = uniforms m !! k ∧
        ∀ h'', uniform_value c k h'' = uniform_value m k h'') ∧
     (∀ k, k ∈ copied_uniforms →
        ∃ l0 l v, uniforms m !! k = Some l0 ∧ uniforms c !! k = Some l ∧
                  l ≠ l0 ∧ h !! l = None ∧
                  h' !! l0 = Some (Holder v) ∧ h' !! l = Some (Holder v)) ∧
     (∃ l, uniforms c !! "imageryTexture" = Some l ∧ h !! l = None ∧
           h' !! l = Some (Holder Null)) ∧
     (∃ l, uniforms c !! "useImagery" = Some l ∧ h !! l = None ∧
           h' !! l = Some (Holder (Num 0)))).
Proof.
  split.
  - apply createEarthMaterial_clone_defined.
  - intros m h c h' Hbase Hc.
    destruct (clone_inv m c h h' Hc)
      as (Hsub & _ & _ & _ & Hshared & Hcopied & Himg & Huse & _).
    rewrite Hbase in Hshared, Hcopied.
    split; [exact Hsub |].
    split; [| split; [exact Hcopied | split; [exact Himg | exact Huse]]].
    intros k Hk. destruct (Hshared k Hk) as [Hsome Heq].
    split; [exact Hsome | split; [exact Heq |]].
    intros h''. unfold uniform_value, prop, mbind, JS_bind.
    rewrite Heq. reflexivity.
Qed.

Lemma clone_sharing_witness :
  ∃ m h c h',
    createEarthMaterial sampleTextures sampleOptions ∅ = Some (m, h) ∧
    clone m h = Some (c, h') ∧
    h ⊆ h' ∧
    uniforms c !! "sunDirection" = uniforms m !! "sunDirection" ∧
    (∃ l, uniforms c !! "imageryTexture" = Some l ∧ h !! l = None ∧
          h' !! l = Some (Holder Null)).
Proof.
  destruct (createEarthMaterial_clone_defined sampleTextures sampleOptions ∅)
    as (m & h & c & h' & Hm & Hbase & Hc).
  exists m, h, c, h'.
  split; [exact Hm | split; [exact Hc |]].
  destruct clone_sharing as [_ Hshare].
  destruct (Hshare m h c h' Hbase Hc) as (Hsub & Hshared & _ & Himg & _).
  split; [exact Hsub | split; [| exact Himg]].
  apply (Hshared "sunDirection"). in_list.
Defined.

(** * Further properties of the modelled code *)

(** ** Unit vectors *)

Lemma normalize_unit (v n : vec3) : normalize v = Some n → dot n n = 1.
Proof.
  unfold normalize, vdiv.
  destruct (Req_EM_T (length v) 0) as [| Hl]; [discriminate |].
  intros [= <-].
  assert (Hsq : length v * length v = dot v v)
    by (apply sqrt_sqrt, dot_self_nonneg).
  set (k := length v) in *. unfold dot in *. simpl.
  assert (Hk : k * k ≠ 0) by (intros H0; apply Hl; nra).
  replace (vx v / k * (vx v / k) + vy v / k * (vy v / k) + vz v / k * (vz v / k))
    with ((vx v * vx v + vy v * vy v + vz v * vz v) / (k * k))
    by (field; exact Hl).
  rewrite <- Hsq. field. exact Hl.
Qed.

Lemma unit_flip (n : vec3) :
  dot n n = 1 → dot (vscale (-1) n) (vscale (-1) n) = 1.
Proof. unfold dot, vscale. simpl. intros H. rewrite <- H. ring. Qed.

Lemma dot_unit_bounds (a b : vec3) :
  dot a a = 1 → dot b b = 1 → -1 <= dot a b <= 1.
Proof.
  unfold dot. intros Ha Hb.
  pose proof (Rle_0_sqr (vx a - vx b)) as X1.
  pose proof (Rle_0_sqr (vy a - vy b)) as Y1.
  pose proof (Rle_0_sqr (vz a - vz b)) as Z1.
  pose proof (Rle_0_sqr (vx a + vx b)) as X2.
  pose proof (Rle_0_sqr (vy a + vy b)) as Y2.
  pose proof (Rle_0_sqr (vz a + vz b)) as Z2.
  unfold Rsqr in *. split; lra.
Qed.

Lemma pow_unit_interval (x y r : R) :
  0 <= x <= 1 → 0 < y → pow x y = Some r → 0 <= r <= 1.
Proof.
  intros [H0 H1] Hy. unfold pow.
  destruct (Rlt_dec x 0); [lra |].
  destruct (Req_EM_T x 0).
  - destruct (Rlt_dec 0 y); [| contradiction]. intros [= <-]. lra.
  - intros [= <-]. unfold Rpower. split; [left; apply exp_pos |].
    assert (Hln : ln x <= 0).
    { destruct (Req_dec x 1) as [-> | Hne]; [rewrite ln_1; lra |].
      rewrite <- ln_1. left. apply ln_increasing; lra. }
    assert (Hle : y * ln x <= 0) by nra.
    destruct Hle as [Hlt | Heq].
    + assert (Hexp : exp (y * ln x) < exp 0) by (apply exp_increasing, Hlt).
      rewrite exp_0 in Hexp. lra.
    + rewrite Heq, exp_0. lra.
Qed.

(** ** The surface shader: all of a run *)

Lemma earth_run_inv (u : EarthMaterial.Uniforms) (f : EarthMaterial.Fragment)
    (l : EarthMaterial.Locals) :
  EarthMaterial.run u f = Some l →
  (∃ N0, normalize (EarthMaterial.vWorldNormal f) = Some N0 ∧
         EarthMaterial.N l =
           if EarthMaterial.gl_FrontFacing f then N0 else vscale (-1) N0) ∧
  normalize (EarthMaterial.sunDirection u) = Some (EarthMaterial.sunDir l) ∧
  EarthMaterial.sunOrientation l =
    dot (EarthMaterial.N l) (EarthMaterial.sunDir l) ∧
  EarthMaterial.cloudsStrength l =
    smoothstep 0.2 1 (cb (EarthMaterial.brcTexel f)) ∧
  EarthMaterial.baseColor l =
    vmix (vmix (EarthMaterial.dayTexel f) (EarthMaterial.imageryTexel f)
               (EarthMaterial.useImagery u))
         (Vec3 1 1 1) (EarthMaterial.cloudsStrength l * 2) ∧
  EarthMaterial.atmosphereColor l =
    vmix (EarthMaterial.atmosphereTwilightColor u)
         (EarthMaterial.atmosphereDayColor u)
         (smoothstep (-0.25) 0.75 (EarthMaterial.sunOrientation l)) ∧
  EarthMaterial.tSurface l =
    length (vsub (EarthMaterial.vWorldPosition f) (EarthMaterial.cameraPosition u)) ∧
  EarthMaterial.atmR l =
    length (EarthMaterial.vWorldPosition f) * EarthMaterial.atmosphereScale u ∧
  EarthMaterial.raySphereEntryT (EarthMaterial.cameraPosition u)
    (EarthMaterial.rd l) (EarthMaterial.atmR l) = Some (EarthMaterial.tEntry l) ∧
  EarthMaterial.pathLen l =
    Rmax 0 (EarthMaterial.tSurface l - EarthMaterial.tEntry l) ∧
  normalize (vsub (EarthMaterial.cameraPosition u) (EarthMaterial.vWorldPosition f))
    = Some (EarthMaterial.viewDir l) ∧
  EarthMaterial.mu l =
    clamp (dot (EarthMaterial.N l) (EarthMaterial.viewDir l)) 0 1 ∧
  pow (1 - EarthMaterial.mu l) 2 = Some (EarthMaterial.horizon l) ∧
  EarthMaterial.finalColor l =
    vadd (vmix (vmix (EarthMaterial.nightTexel f) (EarthMaterial.baseColor l)
                     (EarthMaterial.dayStrength l))
               (EarthMaterial.atmosphereColor l) (EarthMaterial.haze l))
         (vscale (0.08 * EarthMaterial.horizon l * EarthMaterial.haze l)
                 (EarthMaterial.atmosphereColor l)) ∧
  EarthMaterial.gl_FragColor l =
    Vec4 (vx (EarthMaterial.finalColor l)) (vy (EarthMaterial.finalColor l))
         (vz (EarthMaterial.finalColor l)) 1.
Proof.
  intros H. unfold EarthMaterial.run in H. bind_inv H.
  injection H as <-. simpl.
  split; [eexists; split; reflexivity |].
  repeat (split; [first [assumption | reflexivity] |]).
  reflexivity.
Qed.

(** ** Surface shader: geometry, haze and colour *)

(** X1. In every run of the surface shader the normal is a unit vector, the
    sun orientation lies in [-1, 1], the entry distance is not negative,
    the path length inside the atmosphere lies between 0 and the
    camera-to-surface distance, and [mu] and [horizon] lie in [0, 1]. *)
Theorem earth_run_ranges (u : EarthMaterial.Uniforms)
    (f : EarthMaterial.Fragment) (l : EarthMaterial.Locals) :
  EarthMaterial.run u f = Some l →
  dot (EarthMaterial.N l) (EarthMaterial.N l) = 1 ∧
  -1 <= EarthMaterial.sunOrientation l <= 1 ∧
  0 <= EarthMaterial.tEntry l ∧
  0 <= EarthMaterial.pathLen l <= EarthMaterial.tSurface l ∧
  0 <= EarthMaterial.mu l <= 1 ∧
  0 <= EarthMaterial.horizon l <= 1.
Proof.
  intros H.
  destruct (earth_run_inv u f l H)
    as ((N0 & HN0 & HN) & HS & HO & _ & _ & _ & HT & _ & HE & HP & HV & HM & HH & _).
  assert (HNu : dot (EarthMaterial.N l) (EarthMaterial.N l) = 1).
  { rewrite HN. pose proof (normalize_unit _ _ HN0) as H1.
    destruct (EarthMaterial.gl_FrontFacing f); [exact H1 | apply unit_flip, H1]. }
  assert (HEn : 0 <= EarthMaterial.tEntry l).
  { destruct (raySphereEntryT_defined (EarthMaterial.cameraPosition u)
                (EarthMaterial.rd l) (EarthMaterial.atmR l)) as (t & Ht & Hpos).
    rewrite HE in Ht. injection Ht as ->. exact Hpos. }
  assert (HTs : 0 <= EarthMaterial.tSurface l) by (rewrite HT; apply length_nonneg).
  assert (Hmu : 0 <= EarthMaterial.mu l <= 1)
    by (rewrite HM; apply clamp_bounds; lra).
  split; [exact HNu |].
  split; [rewrite HO; apply dot_unit_bounds;
          [exact HNu | exact (normalize_unit _ _ HS)] |].
  split; [exact HEn |].
  split.
  { rewrite HP. split; [apply Rmax_l |]. apply Rmax_lub; lra. }
  split; [exact Hmu |].
  apply (pow_unit_interval (1 - EarthMaterial.mu l) 2); [lra | lra | exact HH].
Qed.

Lemma earth_run_ranges_witness :
  ∃ l, EarthMaterial.run
         (EarthMaterial.set_hazeFalloff 900000 EarthMaterial.zenithUniforms)
         EarthMaterial.zenithFragment = Some l ∧
       -1 <= EarthMaterial.sunOrientation l <= 1 ∧
       0 <= EarthMaterial.pathLen l <= EarthMaterial.tSurface l.
Proof.
  destruct (zenith_run_defined 900000) as [l Hl].
  exists l. split; [exact Hl |].
  destruct (earth_run_ranges _ _ l Hl) as (_ & Hs & _ & Hp & _).
  split; [exact Hs | exact Hp].
Defined.

(** X2. For a unit ray direction, a positive entry distance is reached only
    from outside the sphere with the ray heading toward it, and the
    point at that distance along the ray lies on the sphere. *)
Theorem raySphereEntryT_on_sphere (ro rd : vec3) (r t : R) :
  dot rd rd = 1 →
  EarthMaterial.raySphereEntryT ro rd r = Some t →
  0 < t →
  dot ro rd < 0 ∧ r * r < dot ro ro ∧
  dot (vadd ro (vscale t rd)) (vadd ro (vscale t rd)) = r * r.
Proof.
  intros Hu. unfold EarthMaterial.raySphereEntryT.
  destruct (Rle_dec _ 0) as [Hh | Hh]; [intros [= <-]; lra |].
  rewrite gsqrt_pos by lra. simpl. intros [= <-] Hpos.
  set (b := dot ro rd) in *. set (c := dot ro ro - r * r) in *.
  set (s := sqrt (b * b - c)) in *.
  assert (Hs : s * s = b * b - c) by (apply sqrt_sqrt; lra).
  assert (Hs0 : 0 <= s) by apply sqrt_pos.
  assert (Ht : Rmax (- b - s) 0 = - b - s).
  { unfold Rmax in *. destruct (Rle_dec (- b - s) 0); lra. }
  rewrite Ht in *.
  assert (Hb : b < 0) by lra.
  assert (Hc : 0 < c) by nra.
  split; [exact Hb | split; [unfold c in Hc; lra |]].
  replace (dot (vadd ro (vscale (- b - s) rd)) (vadd ro (vscale (- b - s) rd)))
    with (dot ro ro + 2 * (- b - s) * dot ro rd
          + (- b - s) * (- b - s) * dot rd rd)
    by (unfold dot, vadd, vscale; simpl; ring).
  rewrite Hu. fold b. unfold c in Hs. nra.
Qed.

Lemma raySphereEntryT_on_sphere_witness :
  dot (vadd (Vec3 0 0 7371000) (vscale 745160 (Vec3 0 0 (-1))))
      (vadd (Vec3 0 0 7371000) (vscale 745160 (Vec3 0 0 (-1))))
    = 6625840 * 6625840.
Proof.
  apply (raySphereEntryT_on_sphere (Vec3 0 0 7371000) (Vec3 0 0 (-1))
           6625840 745160).
  - unfold dot; simpl; lra.
  - rewrite (raySphereEntryT_eval _ _ _ 6625840);
      [| lra | unfold dot; simpl; lra].
    f_equal. unfold dot. simpl. rewrite Rmax_left; lra.
  - lra.
Defined.

(** X3. The haze never vanishes in shadow: with a positive path length,
    [hazeStrength] and [hazeMax] it is positive whatever the sun
    orientation; with a zero path length it is 0. *)
Theorem haze_floor (u : EarthMaterial.Uniforms) (f : EarthMaterial.Fragment)
    (l : EarthMaterial.Locals) :
  EarthMaterial.run u f = Some l →
  (0 < EarthMaterial.pathLen l → 0 < EarthMaterial.hazeStrength u →
   0 < EarthMaterial.hazeMax u → 0 < EarthMaterial.haze l) ∧
  (EarthMaterial.pathLen l = 0 → 0 <= EarthMaterial.hazeMax u →
   EarthMaterial.haze l = 0).
Proof.
  intros H. destruct (earth_run_shading u f l H) as (Hp & _ & Hh).
  pose proof (sunFactor_bounds (EarthMaterial.sunOrientation l)) as Hsf.
  pose proof (guard_one (EarthMaterial.hazeFalloff u)) as Hg.
  rewrite Hh. split.
  - intros Hpos Hhs Hm.
    assert (He : exp (- EarthMaterial.pathLen l / Rmax (EarthMaterial.hazeFalloff u) 1) < 1).
    { assert (Hlt : exp (- EarthMaterial.pathLen l
                         / Rmax (EarthMaterial.hazeFalloff u) 1) < exp 0).
      { apply exp_increasing. unfold Rdiv.
        assert (0 < / Rmax (EarthMaterial.hazeFalloff u) 1)
          by (apply Rinv_0_lt_compat; lra).
        nra. }
      rewrite exp_0 in Hlt. exact Hlt. }
    set (e := exp _) in *.
    assert (Hx : 0 < (1 - e) * EarthMaterial.sunFactor (EarthMaterial.sunOrientation l)
                     * EarthMaterial.hazeStrength u).
    { apply Rmult_lt_0_compat; [apply Rmult_lt_0_compat |]; lra. }
    unfold clamp, Rmin, Rmax.
    destruct (Rle_dec _ 0); destruct (Rle_dec _ (EarthMaterial.hazeMax u)); lra.
  - intros H0 Hm. rewrite H0.
    replace (- 0 / Rmax (EarthMaterial.hazeFalloff u) 1) with 0
      by (unfold Rdiv; ring).
    rewrite exp_0. apply clamp_low; [exact Hm | lra].
Qed.

Lemma haze_floor_witness :
  ∃ l, EarthMaterial.run
         (EarthMaterial.set_hazeFalloff 900000 EarthMaterial.zenithUniforms)
         EarthMaterial.zenithFragment = Some l ∧
       0 < EarthMaterial.haze l.
Proof.
  destruct (zenith_run_defined 900000) as [l Hl].
  exists l. split; [exact Hl |].
  destruct (haze_floor _ _ l Hl) as [Hpos _].
  apply Hpos.
  - destruct (zenith_run_geometry _ _ Hl) as [-> _]. lra.
  - simpl. lra.
  - simpl. lra.
Defined.



(** X5. With [hazeStrength] 0 and a non-negative [hazeMax] the haze is 0 and
    the fragment colour is the plain day/night blend
    [mix(nightColor, baseColor, dayStrength)]. *)
Theorem haze_off_plain_blend (u : EarthMaterial.Uniforms)
    (f : EarthMaterial.Fragment) (l : EarthMaterial.Locals) :
  EarthMaterial.run u f = Some l →
  EarthMaterial.hazeStrength u = 0 →
  0 <= EarthMaterial.hazeMax u →
  EarthMaterial.haze l = 0 ∧
  EarthMaterial.finalColor l =
    vmix (EarthMaterial.nightTexel f) (EarthMaterial.baseColor l)
         (EarthMaterial.dayStrength l).
Proof.
  intros H Hs Hm.
  destruct (earth_run_shading _ _ _ H) as (_ & _ & Hh).
  destruct (earth_run_inv _ _ _ H)
    as (_ & _ & _ & _ & _ & _ & _ & _ & _ & _ & _ & _ & _ & HF & _).
  assert (H0 : EarthMaterial.haze l = 0).
  { rewrite Hh, Hs, Rmult_0_r. apply clamp_low; lra. }
  split; [exact H0 |].
  rewrite HF, H0. unfold vadd, vscale, vmix, mix. simpl. f_equal; ring.
Qed.

Lemma haze_off_plain_blend_witness :
  ∃ l, EarthMaterial.run Views.hazelessUniforms EarthMaterial.zenithFragment
         = Some l ∧
       EarthMaterial.haze l = 0.
Proof.
  destruct (earth_run_defined Views.hazelessUniforms
              EarthMaterial.zenithFragment) as [l Hl];
    try (apply Rgt_not_eq, length_pos; unfold dot; simpl; lra).
  exists l. split; [exact Hl |].
  apply (haze_off_plain_blend _ _ l Hl); simpl; lra.
Defined.

(** X6. The cloud channel acts on the base colour only above 0.2: up to
    there the base colour is [mix(dayColor, imageryColor, useImagery)];
    at full cover (channel 1 or more) the mix factor is 2, so each
    component is 2 minus the day component, not white. *)
Theorem baseColor_clouds (u : EarthMaterial.Uniforms)
    (f : EarthMaterial.Fragment) (l : EarthMaterial.Locals) :
  EarthMaterial.run u f = Some l →
  let day := vmix (EarthMaterial.dayTexel f) (EarthMaterial.imageryTexel f)
                  (EarthMaterial.useImagery u) in
  (cb (EarthMaterial.brcTexel f) <= 0.2 → EarthMaterial.baseColor l = day) ∧
  (1 <= cb (EarthMaterial.brcTexel f) →
   EarthMaterial.baseColor l = Vec3 (2 - vx day) (2 - vy day) (2 - vz day)).
Proof.
  intros H day.
  destruct (earth_run_inv _ _ _ H) as (_ & _ & _ & HC & HB & _).
  rewrite HB, HC. fold day. split; intros Hc.
  - rewrite smoothstep_below by lra.
    destruct day; unfold vmix, mix; simpl; f_equal; ring.
  - rewrite smoothstep_above by lra.
    destruct day; unfold vmix, mix; simpl; f_equal; ring.
Qed.

Lemma baseColor_clouds_witness :
  ∃ l, EarthMaterial.run Views.hazelessUniforms Views.overcastFragment
         = Some l ∧
       EarthMaterial.baseColor l = Vec3 1.8 1.6 1.4.
Proof.
  destruct (earth_run_defined Views.hazelessUniforms Views.overcastFragment)
    as [l Hl];
    try (apply Rgt_not_eq, length_pos; unfold dot; simpl; lra).
  exists l. split; [exact Hl |].
  destruct (baseColor_clouds _ _ l Hl) as [_ Hfull].
  rewrite Hfull by (simpl; lra).
  unfold vmix, mix; simpl; f_equal; lra.
Defined.

(** ** Shell shader: ranges, density and alpha *)

Lemma exp_nonpos_le_1 (x : R) : x <= 0 → 0 < exp x <= 1.
Proof.
  intros Hx. split; [apply exp_pos |].
  destruct Hx as [Hlt | ->]; [| rewrite exp_0; lra].
  assert (H : exp x < exp 0) by (apply exp_increasing, Hlt).
  rewrite exp_0 in H. lra.
Qed.

Lemma exp_le_mono (x y : R) : x <= y → exp x <= exp y.
Proof.
  intros [Hlt | ->]; [left; apply exp_increasing, Hlt | lra].
Qed.

Lemma shell_unit_vectors (u : AtmosphereMaterial.Uniforms)
    (f : AtmosphereMaterial.Fragment) (l : AtmosphereMaterial.Locals) :
  AtmosphereMaterial.run u f = Some l →
  dot (AtmosphereMaterial.N l) (AtmosphereMaterial.N l) = 1 ∧
  dot (AtmosphereMaterial.viewDir l) (AtmosphereMaterial.viewDir l) = 1 ∧
  dot (AtmosphereMaterial.sunDir l) (AtmosphereMaterial.sunDir l) = 1.
Proof.
  intros H.
  destruct (shell_run_inv _ _ _ H) as ((N0 & HN0 & HN) & HV & HS & _).
  split; [| split; eapply normalize_unit; eassumption].
  rewrite HN. pose proof (normalize_unit _ _ HN0) as H1.
  destruct (AtmosphereMaterial.gl_FrontFacing f);
    [exact H1 | apply unit_flip, H1].
Qed.

(** Density and forward-scatter spot of a run. *)
Lemma shell_density_spot (u : AtmosphereMaterial.Uniforms)
    (f : AtmosphereMaterial.Fragment) (l : AtmosphereMaterial.Locals) :
  AtmosphereMaterial.run u f = Some l →
  0 < AtmosphereMaterial.altFactor l <= 1 ∧
  AtmosphereMaterial.density l = 0.18 + 0.82 * AtmosphereMaterial.altFactor l ∧
  0 <= AtmosphereMaterial.sunSpot l <= 1.
Proof.
  intros H.
  destruct (shell_unit_vectors _ _ _ H) as (_ & HVu & HSu).
  destruct (shell_run_inv _ _ _ H)
    as (_ & _ & _ & _ & _ & _ & _ & _ & HH & HAF & HD & HSp & _).
  assert (Ha : 0 < AtmosphereMaterial.altFactor l <= 1).
  { rewrite HAF. apply exp_nonpos_le_1.
    pose proof (guard_one (AtmosphereMaterial.heightFade u)) as Hg.
    assert (0 < / Rmax (AtmosphereMaterial.heightFade u) 1)
      by (apply Rinv_0_lt_compat; lra).
    assert (0 <= AtmosphereMaterial.height l) by (rewrite HH; apply Rmax_l).
    unfold Rdiv. nra. }
  split; [exact Ha |]. split.
  - rewrite HD, clamp_id by lra. unfold mix. lra.
  - apply (pow_unit_interval _ 10 _) in HSp; [exact HSp | | lra].
    split; [apply Rmax_r |].
    apply Rmax_lub; [| lra].
    assert (Hneg : dot (vneg (AtmosphereMaterial.viewDir l))
                       (vneg (AtmosphereMaterial.viewDir l)) = 1).
    { rewrite <- HVu. unfold dot, vneg. simpl. ring. }
    apply (dot_unit_bounds _ _ Hneg HSu).
Qed.

(** X7. In every run of the shell shader the sun orientation lies in
    [-1, 1]; [fresnel] and [altFactor] already lie in [0, 1], so their
    clamps change nothing and the density is
    [0.18 + 0.82 * exp(-height / max(heightFade, 1))], between 0.18 and
    1; the camera height is not negative; the forward-scatter spot lies
    in [0, 1]; and for a positive [haloPower] so does the ring. *)
Theorem shell_run_ranges (u : AtmosphereMaterial.Uniforms)
    (f : AtmosphereMaterial.Fragment) (l : AtmosphereMaterial.Locals) :
  AtmosphereMaterial.run u f = Some l →
  -1 <= AtmosphereMaterial.sunOrientation l <= 1 ∧
  0 <= AtmosphereMaterial.fresnel l <= 1 ∧
  0 <= AtmosphereMaterial.height l ∧
  0 < AtmosphereMaterial.altFactor l <= 1 ∧
  AtmosphereMaterial.density l = 0.18 + 0.82 * AtmosphereMaterial.altFactor l ∧
  0.18 < AtmosphereMaterial.density l <= 1 ∧
  0 <= AtmosphereMaterial.sunSpot l <= 1 ∧
  (0 < AtmosphereMaterial.haloPower u → 0 <= AtmosphereMaterial.ring l <= 1).
Proof.
  intros H.
  destruct (shell_unit_vectors _ _ _ H) as (HNu & HVu & HSu).
  destruct (shell_density_spot _ _ _ H) as (Ha & Hd & Hspot).
  destruct (shell_run_inv _ _ _ H)
    as (_ & _ & _ & HO & HF & HR & _ & _ & HH & _).
  split; [rewrite HO; apply dot_unit_bounds; assumption |].
  split.
  { rewrite HF. pose proof (dot_unit_bounds _ _ HVu HNu) as Hdot.
    pose proof (Rabs_pos (dot (AtmosphereMaterial.viewDir l)
                              (AtmosphereMaterial.N l))).
    assert (Rabs (dot (AtmosphereMaterial.viewDir l)
                      (AtmosphereMaterial.N l)) <= 1)
      by (apply Rabs_le; lra).
    lra. }
  split; [rewrite HH; apply Rmax_l |].
  split; [exact Ha |].
  split; [exact Hd |].
  split; [lra |].
  split; [exact Hspot |].
  intros Hp. apply (pow_unit_interval _ _ _) in HR; [exact HR | | exact Hp].
  apply clamp_bounds. lra.
Qed.

Lemma shell_run_ranges_witness :
  ∃ l, AtmosphereMaterial.run AtmosphereMaterial.overheadUniforms
         AtmosphereMaterial.shellFragment = Some l ∧
       0.18 < AtmosphereMaterial.density l <= 1.
Proof.
  destruct overhead_run as (l & Hl & _).
  exists l. split; [exact Hl |].
  destruct (shell_run_ranges _ _ l Hl) as (_ & _ & _ & _ & _ & Hd & _).
  exact Hd.
Defined.

(** X8. The halo never vanishes at night: with a positive [haloStrength] the
    alpha is positive wherever the ring is, whatever the sun
    orientation; where the ring is 0 the alpha is 0. *)
Theorem halo_alpha_floor (u : AtmosphereMaterial.Uniforms)
    (f : AtmosphereMaterial.Fragment) (l : AtmosphereMaterial.Locals) :
  AtmosphereMaterial.run u f = Some l →
  (0 < AtmosphereMaterial.haloStrength u → 0 < AtmosphereMaterial.ring l →
   0 < AtmosphereMaterial.alpha l) ∧
  (AtmosphereMaterial.ring l = 0 → AtmosphereMaterial.alpha l = 0).
Proof.
  intros H.
  destruct (shell_density_spot _ _ _ H) as (Haf & Hdf & Hs).
  assert (Hd : 0.18 < AtmosphereMaterial.density l <= 1) by lra.
  destruct (shell_run_inv _ _ _ H)
    as (_ & _ & _ & _ & _ & _ & _ & _ & _ & _ & _ & _ & HA & HAl & _).
  pose proof (nightFactor_bounds (AtmosphereMaterial.sunOrientation l)) as Hn.
  rewrite HAl, HA. split.
  - intros Hhs Hr.
    assert (Hx : 0 < AtmosphereMaterial.haloStrength u
                     * AtmosphereMaterial.density l * AtmosphereMaterial.ring l).
    { apply Rmult_lt_0_compat; [apply Rmult_lt_0_compat |]; lra. }
    assert (Hy : 0 <= 0.35 * AtmosphereMaterial.sunSpot l
                      * AtmosphereMaterial.ring l).
    { apply Rmult_le_pos; [apply Rmult_le_pos |]; lra. }
    assert (Hz : 0 < (AtmosphereMaterial.haloStrength u
                        * AtmosphereMaterial.density l * AtmosphereMaterial.ring l
                      + 0.35 * AtmosphereMaterial.sunSpot l
                        * AtmosphereMaterial.ring l)
                     * AtmosphereMaterial.nightFactor
                         (AtmosphereMaterial.sunOrientation l)).
    { apply Rmult_lt_0_compat; lra. }
    unfold clamp, Rmin, Rmax.
    destruct (Rle_dec _ 0); destruct (Rle_dec _ 1); lra.
  - intros ->. rewrite !Rmult_0_r, Rplus_0_r, Rmult_0_l.
    apply clamp_id. lra.
Qed.

Lemma halo_alpha_floor_witness :
  ∃ l, AtmosphereMaterial.run
         (AtmosphereMaterial.limbUniforms (Vec3 0 0 1))
         AtmosphereMaterial.shellFragment = Some l ∧
       0 < AtmosphereMaterial.alpha l.
Proof.
  destruct (limb_run (Vec3 0 0 1)) as (l & Hl & _ & Hr & _);
    [unfold dot; simpl; lra | reflexivity |].
  exists l. split; [exact Hl |].
  destruct (halo_alpha_floor _ _ l Hl) as [Hpos _].
  apply Hpos; [simpl; lra | rewrite Hr; lra].
Defined.

(** X9. The shell density falls with the camera height: it is 1 at height 0
    (camera on or below the ground sphere), and with the same
    [heightFade] the higher camera sees the lower density. *)
Theorem shell_density_height (u1 u2 : AtmosphereMaterial.Uniforms)
    (f1 f2 : AtmosphereMaterial.Fragment)
    (l1 l2 : AtmosphereMaterial.Locals) :
  AtmosphereMaterial.run u1 f1 = Some l1 →
  AtmosphereMaterial.run u2 f2 = Some l2 →
  AtmosphereMaterial.heightFade u1 = AtmosphereMaterial.heightFade u2 →
  (AtmosphereMaterial.height l1 = 0 → AtmosphereMaterial.density l1 = 1) ∧
  (AtmosphereMaterial.height l1 <= AtmosphereMaterial.height l2 →
   AtmosphereMaterial.density l2 <= AtmosphereMaterial.density l1).
Proof.
  intros H1 H2 Hf.
  destruct (shell_density_spot _ _ _ H1) as (_ & Hd1 & _).
  destruct (shell_density_spot _ _ _ H2) as (_ & Hd2 & _).
  destruct (shell_run_inv _ _ _ H1)
    as (_ & _ & _ & _ & _ & _ & _ & _ & _ & HA1 & _).
  destruct (shell_run_inv _ _ _ H2)
    as (_ & _ & _ & _ & _ & _ & _ & _ & _ & HA2 & _).
  rewrite Hd1, Hd2, HA1, HA2, <- Hf.
  pose proof (guard_one (AtmosphereMaterial.heightFade u1)) as Hg.
  assert (Hi : 0 < / Rmax (AtmosphereMaterial.heightFade u1) 1)
    by (apply Rinv_0_lt_compat; lra).
  split.
  - intros ->. replace (- 0 / Rmax (AtmosphereMaterial.heightFade u1) 1)
      with 0 by (unfold Rdiv; ring).
    rewrite exp_0. lra.
  - intros Hle.
    assert (exp (- AtmosphereMaterial.height l2
                 / Rmax (AtmosphereMaterial.heightFade u1) 1)
            <= exp (- AtmosphereMaterial.height l1
                    / Rmax (AtmosphereMaterial.heightFade u1) 1)).
    { apply exp_le_mono. unfold Rdiv. nra. }
    lra.
Qed.

Lemma shell_density_height_witness :
  ∃ l1 l2,
    AtmosphereMaterial.run AtmosphereMaterial.overheadUniforms
      AtmosphereMaterial.shellFragment = Some l1 ∧
    AtmosphereMaterial.run (AtmosphereMaterial.limbUniforms (Vec3 0 0 1))
      AtmosphereMaterial.shellFragment = Some l2 ∧
    AtmosphereMaterial.density l2 <= AtmosphereMaterial.density l1.
Proof.
  destruct overhead_run as (l1 & Hl1 & _).
  destruct (limb_run (Vec3 0 0 1)) as (l2 & Hl2 & _ & _ & _ & Hh2 & _);
    [unfold dot; simpl; lra | reflexivity |].
  exists l1, l2. split; [exact Hl1 | split; [exact Hl2 |]].
  destruct (shell_density_height _ _ _ _ l1 l2 Hl1 Hl2 eq_refl) as [_ Hmono].
  apply Hmono. rewrite Hh2.
  destruct (shell_run_inv _ _ _ Hl1)
    as (_ & _ & _ & _ & _ & _ & HT & HP & HH & _).
  simpl in *.
  rewrite HT in HP.
  rewrite (length_unit_multiple (Vec3 0 0 1) _ 6625840) in HP;
    [| unfold dot; simpl; lra | lra | unfold vscale; simpl; f_equal; lra].
  rewrite (Rmax_left 1.04 1e-6) in HP by lra.
  rewrite fdiv_some in HP by lra. injection HP as HP.
  rewrite HH, <- HP.
  rewrite (length_unit_multiple (Vec3 0 0 1) _ 6400000);
    [| unfold dot; simpl; lra | lra | unfold vscale; simpl; f_equal; lra].
  apply Rmax_lub; lra.
Defined.

(** ** Sun calculator *)




Lemma atan2_range (y x : R) : - PI < Js.atan2 y x <= PI.
Proof.
  unfold Js.atan2. pose proof PI_RGT_0 as Hpi.
  destruct (Rlt_dec 0 x) as [Hx | Hx].
  - pose proof (atan_bound (y / x)). lra.
  - destruct (Rlt_dec x 0) as [Hx' | Hx'].
    + assert (Hi : / x < 0) by (apply Rinv_lt_0_compat, Hx').
      destruct (Rle_dec 0 y) as [Hy | Hy].
      * assert (Hq : y / x <= 0) by (unfold Rdiv; nra).
        assert (Ha : atan (y / x) <= 0).
        { rewrite <- atan_0. destruct Hq as [Hq | ->];
            [left; apply atan_increasing, Hq | lra]. }
        pose proof (atan_bound (y / x)). lra.
      * assert (Hq : 0 < y / x) by (unfold Rdiv; nra).
        assert (Ha : 0 < atan (y / x))
          by (rewrite <- atan_0; apply atan_increasing, Hq).
        pose proof (atan_bound (y / x)). lra.
    + destruct (Rlt_dec 0 y); [lra |].
      destruct (Rlt_dec y 0); lra.
Qed.




(** [normalize] undoes a positive scaling of a unit vector. *)
Lemma normalize3_scaled_unit (v : vec3) (k : R) :
  dot v v = 1 → 0 < k → SunCalculator.normalize3 (vscale k v) = v.
Proof.
  intros H Hk. unfold SunCalculator.normalize3.
  rewrite (length_unit_multiple v (vscale k v) k) by auto with real.
  destruct (Req_EM_T k 0); [lra |].
  destruct v; unfold vscale; simpl; f_equal; field; lra.
Qed.

Lemma toDays_valid (t : Z) :
  SunCalculator.toDays (Some t)
    = Some (IZR t / 86400000 - 0.5 + SunCalculator.J1970 - SunCalculator.J2000).
Proof. reflexivity. Qed.





(** ** Lighting controller: clock and direction *)

Lemma trunc_range (x : R) (n : Z) :
  0 <= x < IZR n → (0 <= Js.trunc x < n)%Z.
Proof.
  intros [H0 H1]. unfold Js.trunc.
  destruct (Rle_dec 0 x); [| contradiction].
  destruct (base_Int_part x) as [Hlo Hhi].
  split.
  - assert (H : (-1 < Int_part x)%Z) by (apply lt_IZR; lra). lia.
  - apply lt_IZR. lra.
Qed.

Lemma date_range_IZR (z : Z) :
  (-8640000000000000 <= z <= 8640000000000000)%Z → Rabs (IZR z) <= 8.64e15.
Proof.
  intros [H0 H1]. apply IZR_le in H0, H1. apply Rabs_le. lra.
Qed.

Lemma hour_of_day (d H M : Z) :
  (0 <= H < 24)%Z → (0 <= M < 60)%Z →
  (((d * 86400000 + (H * 3600000 + M * 60000 + 0 * 1000 + 0)) / 3600000) mod 24
   = H)%Z.
Proof.
  intros HH HM.
  rewrite <- (Z.div_unique _ 3600000 (d * 24 + H) (M * 60000)) by lia.
  symmetry. apply (Z.mod_unique _ 24 d H); lia.
Qed.

Lemma minute_of_hour (d H M : Z) :
  (0 <= H < 24)%Z → (0 <= M < 60)%Z →
  (((d * 86400000 + (H * 3600000 + M * 60000 + 0 * 1000 + 0)) / 60000) mod 60
   = M)%Z.
Proof.
  intros HH HM.
  rewrite <- (Z.div_unique _ 60000 (d * 1440 + H * 60 + M) 0) by lia.
  symmetry. apply (Z.mod_unique _ 60 (d * 24 + H) M); lia.
Qed.

(** X12. [setTimeOfDay(hours, minutes)] followed by [getTimeInfo()]: for a
    valid date inside the [Date] range, hours in [0, 24) and minutes in
    [0, 60), the time info reports the whole parts of the two arguments
    (fractions are dropped), the UTC day is the one before the call,
    seconds and milliseconds are cleared, and the sun position is the
    one of the new instant. *)
Theorem setTimeOfDay_getTimeInfo (st : LightingSystem.t) (t : Z)
    (hours minutes : R) :
  LightingSystem.currentDate st = Some t →
  (-8640000000000000 <= t < 8640000000000000)%Z →
  0 <= hours < 24 → 0 <= minutes < 60 →
  let st' := LightingSystem.setTimeOfDay hours minutes st in
  let info := LightingSystem.getTimeInfo st' in
  LightingSystem.currentDate st'
    = Some (t / Js.msPerDay * Js.msPerDay + Js.trunc hours * Js.msPerHour
            + Js.trunc minutes * Js.msPerMinute)%Z ∧
  LightingSystem.hours info = Some (Js.trunc hours) ∧
  LightingSystem.minutes info = Some (Js.trunc minutes) ∧
  LightingSystem.timeOfDay info
    = Some (IZR (Js.trunc hours) + IZR (Js.trunc minutes) / 60) ∧
  LightingSystem.sun_position st'
    = vscale (LightingSystem.sunDistance st) <$> LightingSystem.direction st'.
Proof.
  intros Ht Hr Hh Hm st' info.
  pose proof (trunc_range hours 24 Hh) as HH.
  pose proof (trunc_range minutes 60 Hm) as HM.
  assert (Hd : LightingSystem.currentDate st'
               = Some (t / Js.msPerDay * Js.msPerDay
                       + (Js.trunc hours * Js.msPerHour
                          + Js.trunc minutes * Js.msPerMinute
                          + 0 * Js.msPerSecond + 0))%Z).
  { unfold st', LightingSystem.setTimeOfDay. simpl.
    rewrite Ht. simpl. rewrite (trunc_IZR 0).
    apply TimeClip_IZR, date_range_IZR.
    unfold Js.msPerDay, Js.msPerHour, Js.msPerMinute, Js.msPerSecond.
    pose proof (Z.div_mod t 86400000 ltac:(lia)) as Hdm.
    pose proof (Z.mod_pos_bound t 86400000 ltac:(lia)) as Hmb.
    lia. }
  assert (Hhours : Js.getUTCHours (LightingSystem.currentDate st')
                   = Some (Js.trunc hours)).
  { rewrite Hd. simpl. f_equal.
    unfold Js.msPerDay, Js.msPerHour, Js.msPerMinute, Js.msPerSecond.
    apply hour_of_day; assumption. }
  assert (Hmins : Js.getUTCMinutes (LightingSystem.currentDate st')
                  = Some (Js.trunc minutes)).
  { rewrite Hd. simpl. f_equal.
    unfold Js.msPerDay, Js.msPerHour, Js.msPerMinute, Js.msPerSecond.
    apply minute_of_hour; assumption. }
  split; [rewrite Hd; f_equal; lia |].
  split; [exact Hhours |]. split; [exact Hmins |].
  split; [| reflexivity].
  change (LightingSystem.timeOfDay info)
    with (h ← Js.getUTCHours (LightingSystem.currentDate st');
          m ← Js.getUTCMinutes (LightingSystem.currentDate st');
          Some (IZR h + IZR m / 60)).
  rewrite Hhours, Hmins. reflexivity.
Qed.

Lemma setTimeOfDay_getTimeInfo_witness :
  let st := LightingSystem.constructor 6371000 149597870700
              (Some 1700000000000%Z) 0 in
  LightingSystem.hours
    (LightingSystem.getTimeInfo (LightingSystem.setTimeOfDay 18 30 st))
    = Some (Js.trunc 18).
Proof.
  simpl.
  apply (setTimeOfDay_getTimeInfo
           (LightingSystem.constructor 6371000 149597870700
              (Some 1700000000000%Z) 0) 1700000000000 18 30).
  - reflexivity.
  - lia.
  - lra.
  - lra.
Defined.

(** X13. [getTimeInfo()] on a valid date, also before 1970: hours in
    [0, 24), minutes in [0, 60), [timeOfDay] is hours plus minutes / 60
    and lies in [0, 24); seconds play no part.  On an Invalid Date the
    three readings are undefined. *)
Theorem getTimeInfo_ranges (st : LightingSystem.t) :
  (∀ t, LightingSystem.currentDate st = Some t →
     ∃ h m, LightingSystem.hours (LightingSystem.getTimeInfo st) = Some h ∧
            LightingSystem.minutes (LightingSystem.getTimeInfo st) = Some m ∧
            LightingSystem.timeOfDay (LightingSystem.getTimeInfo st)
              = Some (IZR h + IZR m / 60) ∧
            (0 <= h < 24)%Z ∧ (0 <= m < 60)%Z ∧
            0 <= IZR h + IZR m / 60 < 24) ∧
  (LightingSystem.currentDate st = None →
     LightingSystem.hours (LightingSystem.getTimeInfo st) = None ∧
     LightingSystem.minutes (LightingSystem.getTimeInfo st) = None ∧
     LightingSystem.timeOfDay (LightingSystem.getTimeInfo st) = None).
Proof.
  split.
  - intros t Ht. unfold LightingSystem.getTimeInfo. simpl. rewrite Ht. simpl.
    pose proof (Z.mod_pos_bound (t / Js.msPerHour) 24 ltac:(lia)) as Hh.
    pose proof (Z.mod_pos_bound (t / Js.msPerMinute) 60 ltac:(lia)) as Hm.
    eexists _, _. repeat (split; [reflexivity |]).
    split; [exact Hh |]. split; [exact Hm |].
    destruct Hh as [Hh0 Hh1], Hm as [Hm0 Hm1].
    assert (Hh2 : (((t / Js.msPerHour) mod 24) <= 23)%Z) by lia.
    assert (Hm2 : (((t / Js.msPerMinute) mod 60) <= 59)%Z) by lia.
    apply IZR_le in Hh0, Hh2, Hm0, Hm2. lra.
  - intros Hn. unfold LightingSystem.getTimeInfo. simpl. rewrite Hn.
    repeat split.
Qed.

Lemma getTimeInfo_ranges_witness :
  ∃ h m,
    LightingSystem.hours
      (LightingSystem.getTimeInfo
         (LightingSystem.constructor 6371000 149597870700 (Some (-1)%Z) 0))
      = Some h ∧
    LightingSystem.minutes
      (LightingSystem.getTimeInfo
         (LightingSystem.constructor 6371000 149597870700 (Some (-1)%Z) 0))
      = Some m ∧
    (0 <= h < 24)%Z ∧ (0 <= m < 60)%Z.
Proof.
  destruct (getTimeInfo_ranges
              (LightingSystem.constructor 6371000 149597870700
                 (Some (-1)%Z) 0)) as [Hvalid _].
  destruct (Hvalid (-1)%Z eq_refl) as (h & m & Hh & Hm & _ & Hhr & Hmr & _).
  exists h, m. repeat split; try assumption; lia.
Defined.










(** X17. The constructor does not compute the sun position: for a positive
    [sunDistance] the sun starts on the +z axis whatever the date, the
    clock is paused, and [update] changes nothing until a setter is
    called. *)
Theorem constructor_sun_fixed (planetRadius sunDistance perf : R)
    (now : Js.Date) :
  0 < sunDistance →
  let st := LightingSystem.constructor planetRadius sunDistance now perf in
  LightingSystem.getSunDirection st = Some (Vec3 0 0 1) ∧
  LightingSystem.useSimplified st = true ∧
  (∀ d, LightingSystem.update d st = st).
Proof.
  intros Hd st. split; [| split; [reflexivity |]].
  - unfold LightingSystem.getSunDirection. simpl. f_equal.
    replace (Vec3 0 0 sunDistance) with (vscale sunDistance (Vec3 0 0 1))
      by (unfold vscale; simpl; f_equal; ring).
    apply normalize3_scaled_unit; [unfold dot; simpl; ring | exact Hd].
  - intros d. apply update_paused. reflexivity.
Qed.

Lemma constructor_sun_fixed_witness :
  LightingSystem.getSunDirection
    (LightingSystem.constructor 6371000 149597870700
       (Some 1718971200000%Z) 0) = Some (Vec3 0 0 1).
Proof.
  apply (constructor_sun_fixed 6371000 149597870700 0
           (Some 1718971200000%Z)).
  lra.
Defined.

(** ** Solar noon *)

Lemma noonOffset_split (days lng : R) :
  (SunCalculator.rightAscension days
   - SunCalculator.siderealTime days (- lng * SunCalculator.RAD)) / (2 * PI)
  = SunCalculator.rightAscension days / (2 * PI)
    - (280.16 + 360.9856235 * days + lng) / 360.
Proof.
  unfold SunCalculator.siderealTime, SunCalculator.RAD.
  pose proof PI_RGT_0. field. lra.
Qed.

Lemma rightAscension_turns (days : R) :
  -1 / 2 < SunCalculator.rightAscension days / (2 * PI) <= 1 / 2.
Proof.
  unfold SunCalculator.rightAscension.
  set (ra := Js.atan2 _ _). pose proof (atan2_range
    (sin (SunCalculator.eclipticLongitude (SunCalculator.solarMeanAnomaly days))
     * cos SunCalculator.EARTH_OBLIQUITY)
    (cos (SunCalculator.eclipticLongitude (SunCalculator.solarMeanAnomaly days))))
    as Hr.
  fold ra in Hr. pose proof PI_RGT_0 as Hpi.
  assert (Heq : ra = ra / (2 * PI) * (2 * PI)) by (field; lra).
  set (A := ra / (2 * PI)) in *.
  split; nra.
Qed.

(** X18. [getSolarNoon] subtracts the whole sidereal time, which is not
    reduced to one turn and grows by about one turn per day since
    J2000: for every date from 2000-01-01 00:00 UTC on and every
    longitude in [-180, 180] the returned instant lies before
    2000-01-03 00:00 UTC, whatever the date. *)
Theorem getSolarNoon_near_J2000 (t : Z) (lng : R) :
  (946684800000 <= t < 8640000000000000)%Z →
  -180 <= lng <= 180 →
  ∃ r, SunCalculator.getSolarNoon (Some t) lng = Some r ∧
       (r < 946857600000)%Z.
Proof.
  intros Ht Hlng. unfold SunCalculator.getSolarNoon.
  rewrite toDays_valid. simpl.
  set (days := IZR t / 86400000 - 0.5 + SunCalculator.J1970
               - SunCalculator.J2000).
  rewrite noonOffset_split.
  pose proof (rightAscension_turns days) as Hra.
  set (A := SunCalculator.rightAscension days / (2 * PI)) in *.
  rewrite (trunc_IZR 12), (trunc_IZR 0).
  set (q := (t / Js.msPerDay)%Z).
  assert (Hq : (t = 86400000 * q + t mod 86400000)%Z)
    by (apply Z.div_mod; lia).
  pose proof (Z.mod_pos_bound t 86400000 ltac:(lia)) as Hm.
  assert (Hq0 : (10957 <= q)%Z) by (unfold q, Js.msPerDay in *; lia).
  assert (Hq1 : (q < 100000000)%Z) by (unfold q, Js.msPerDay in *; lia).
  set (noon := (q * Js.msPerDay
                + (12 * Js.msPerHour + 0 * Js.msPerMinute
                   + 0 * Js.msPerSecond + 0))%Z).
  assert (Hnoon : IZR noon = 86400000 * IZR q + 43200000).
  { unfold noon, Js.msPerDay, Js.msPerHour, Js.msPerMinute, Js.msPerSecond.
    rewrite !plus_IZR, !mult_IZR. lra. }
  rewrite TimeClip_IZR.
  2:{ apply date_range_IZR.
      unfold noon, Js.msPerDay, Js.msPerHour, Js.msPerMinute, Js.msPerSecond.
      lia. }
  simpl. rewrite Hnoon.
  assert (HtR : 86400000 * IZR q <= IZR t < 86400000 * IZR q + 86400000).
  { destruct Hm as [Hm0 Hm1].
    assert (H1 : (86400000 * q <= t)%Z) by lia.
    assert (H2 : (t < 86400000 * q + 86400000)%Z) by lia.
    apply IZR_le in H1. apply IZR_lt in H2.
    rewrite mult_IZR in H1. rewrite plus_IZR, mult_IZR in H2. lra. }
  apply IZR_le in Hq0. apply IZR_lt in Hq1.
  set (x := 86400000 * IZR q + 43200000
            + (A - (280.16 + 360.9856235 * days + lng) / 360)
              * 24 * 60 * 60 * 1000).
  assert (Hx : -8.64e15 <= x ∧ x + 1 < 946857600000).
  { unfold x, days, SunCalculator.J1970, SunCalculator.J2000. split; lra. }
  rewrite TimeClip_in_range by (apply Rabs_le; lra).
  exists (Js.trunc x). split; [reflexivity |].
  apply lt_IZR.
  pose proof (trunc_close x) as Hc. apply Rabs_def2 in Hc. lra.
Qed.

Lemma getSolarNoon_near_J2000_witness :
  ∃ r, SunCalculator.getSolarNoon (Some 1718971200000%Z) 0 = Some r ∧
       (r < 946857600000)%Z.
Proof.
  apply (getSolarNoon_near_J2000 1718971200000 0); [lia | lra].
Defined.

(** ** Materials: accessors, updates and clones *)

Lemma set_value_live (l : loc) (v v0 : value) (h : gmap loc object) :
  h !! l = Some (Holder v0) →
  set_value l v h = Some ((), <[l := Holder v]> h).
Proof. intros H. unfold set_value. rewrite H. reflexivity. Qed.

Lemma get_value_live (l : loc) (v : value) (h : gmap loc object) :
  h !! l = Some (Holder v) → get_value l h = Some (v, h).
Proof. intros H. unfold get_value. rewrite H. reflexivity. Qed.

Lemma prop_live (U : gmap string loc) (k : string) (l : loc)
    (h : gmap loc object) :
  U !! k = Some l → prop U k h = Some (l, h).
Proof. intros H. unfold prop. rewrite H. reflexivity. Qed.

Lemma uniform_value_live (m : Material) (k : string) (l : loc) (v : value)
    (h : gmap loc object) :
  uniforms m !! k = Some l → h !! l = Some (Holder v) →
  uniform_value m k h = Some (v, h).
Proof.
  intros HU Hv. unfold uniform_value.
  rewrite (js_bind_some _ _ _ _ _ (prop_live _ _ _ h HU)).
  apply get_value_live, Hv.
Qed.

(** X19. The [map] accessor pair: after [material.map = texture] the getter
    returns that texture and [useImagery] is 1 for a texture and 0 for
    [null]; no other object of the store changes. *)
Theorem map_round_trip (m : Material) (h : gmap loc object) (texture : value)
    (li lu : loc) (vi vu : value) :
  uniforms m !! "imageryTexture" = Some li →
  uniforms m !! "useImagery" = Some lu →
  h !! li = Some (Holder vi) → h !! lu = Some (Holder vu) → li ≠ lu →
  ∃ h', set_map m texture h = Some ((), h') ∧
        get_map m h' = Some (texture, h') ∧
        uniform_value m "useImagery" h'
          = Some (Num (if truthy texture then 1 else 0), h') ∧
        (∀ l, l ≠ li → l ≠ lu → h' !! l = h !! l).
Proof.
  intros Hi Hu Hvi Hvu Hne.
  set (h1 := <[li := Holder texture]> h).
  set (h2 := <[lu := Holder (Num (if truthy texture then 1 else 0))]> h1).
  assert (H1u : h1 !! lu = Some (Holder vu)).
  { unfold h1. rewrite lookup_insert_ne by exact Hne. exact Hvu. }
  exists h2. split; [| split; [| split]].
  - unfold set_map.
    rewrite (js_bind_some _ _ _ _ _ (prop_live _ _ _ h Hi)).
    rewrite (js_bind_some _ _ _ _ _ (set_value_live li texture vi h Hvi)).
    rewrite (js_bind_some _ _ _ _ _ (prop_live _ _ _ _ Hu)).
    apply (set_value_live lu _ vu), H1u.
  - unfold get_map.
    rewrite (js_bind_some _ _ _ _ _ (prop_live _ _ _ h2 Hi)).
    apply get_value_live. unfold h2, h1.
    rewrite lookup_insert_ne by (intros E; apply Hne; symmetry; exact E).
    apply lookup_insert_eq.
  - apply (uniform_value_live m _ lu); [exact Hu |].
    unfold h2. apply lookup_insert_eq.
  - intros l Hli Hlu. unfold h2, h1.
    rewrite lookup_insert_ne by (intros E; apply Hlu; symmetry; exact E).
    rewrite lookup_insert_ne by (intros E; apply Hli; symmetry; exact E).
    reflexivity.
Qed.

Lemma map_round_trip_witness :
  ∃ m h h',
    createEarthMaterial sampleTextures sampleOptions ∅ = Some (m, h) ∧
    set_map m (Tex "tile_12_654_1583.png") h = Some ((), h') ∧
    get_map m h' = Some (Tex "tile_12_654_1583.png", h').
Proof.
  destruct (createEarthMaterial_defined sampleTextures sampleOptions ∅)
    as (m & h & Hm).
  destruct (createEarthMaterial_inv _ _ _ _ _ Hm)
    as (_ & _ & _ & _ & Hscalar & _).
  destruct (Hscalar "imageryTexture" Null ltac:(in_list))
    as (li & Hi & _ & Hvi).
  destruct (Hscalar "useImagery" (Num 0) ltac:(in_list))
    as (lu & Hu & _ & Hvu).
  destruct (map_round_trip m h (Tex "tile_12_654_1583.png") li lu _ _
              Hi Hu Hvi Hvu) as (h' & Hset & Hget & _).
  { intros ->. rewrite Hvi in Hvu. discriminate Hvu. }
  exists m, h, h'. split; [exact Hm | split; [exact Hset | exact Hget]].
Defined.

(** X20. [onBeforeRender] of the base material writes the normalised sun
    position into the one vector that the base and its clone both read;
    [onBeforeRender] of the clone does nothing. *)
Theorem onBeforeRender_base_and_clone (textures : Textures)
    (options : Options) (h0 h h' : gmap loc object) (m c : Material)
    (p : vec3) :
  createEarthMaterial textures options h0 = Some (m, h) →
  clone m h = Some (c, h') →
  onBeforeRender c p h' = Some ((), h') ∧
  ∃ h'', onBeforeRender m p h' = Some ((), h'') ∧
         (uniform_value m "sunDirection" ≫= get_vector) h''
           = Some (SunCalculator.normalize3 p, h'') ∧
         (uniform_value c "sunDirection" ≫= get_vector) h''
           = Some (SunCalculator.normalize3 p, h'').
Proof.
  intros Hm Hc.
  destruct (createEarthMaterial_inv _ _ _ _ _ Hm)
    as (_ & Hcu & Hru & _ & _ & Hvec).
  destruct (clone_inv m c h h' Hc) as (Hsub & _ & _ & Hcr & Hshared & _).
  destruct (Hvec "sunDirection" _ ltac:(in_list))
    as (l & lv & Hl & _ & Hh & Hv).
  assert (Hh' : h' !! l = Some (Holder (Ref lv)))
    by (eapply lookup_weaken; eassumption).
  assert (Hv' : h' !! lv = Some (Vector3 (Vec3 0 0 0)))
    by (eapply lookup_weaken; eassumption).
  assert (Hne : lv ≠ l) by (intros ->; rewrite Hh' in Hv'; discriminate Hv').
  split; [unfold onBeforeRender; rewrite Hcr; reflexivity |].
  set (h'' := <[lv := Vector3 (SunCalculator.normalize3 p)]> h').
  assert (Hh'' : h'' !! l = Some (Holder (Ref lv))).
  { unfold h''. rewrite lookup_insert_ne by exact Hne. exact Hh'. }
  assert (Hread : ∀ x : Material, uniforms x !! "sunDirection" = Some l →
            (uniform_value x "sunDirection" ≫= get_vector) h''
            = Some (SunCalculator.normalize3 p, h'')).
  { intros x Hx.
    rewrite (js_bind_some _ _ _ _ _ (uniform_value_live x _ l _ h'' Hx Hh'')).
    unfold get_vector, h''. rewrite lookup_insert_eq. reflexivity. }
  exists h''. split; [| split].
  - unfold onBeforeRender. rewrite Hru.
    rewrite (js_bind_some _ _ _ _ _ (prop_live _ _ _ h' Hl)).
    rewrite (js_bind_some _ _ _ _ _ (get_value_live _ _ _ Hh')).
    unfold copy_normalize. rewrite Hv'. reflexivity.
  - apply Hread, Hl.
  - apply Hread.
    destruct (Hshared "sunDirection" ltac:(in_list)) as [_ ->].
    rewrite Hcu. exact Hl.
Qed.

Lemma onBeforeRender_base_and_clone_witness :
  ∃ m h c h' h'',
    createEarthMaterial sampleTextures sampleOptions ∅ = Some (m, h) ∧
    clone m h = Some (c, h') ∧
    onBeforeRender m (Vec3 0 0 149597870700) h' = Some ((), h'') ∧
    (uniform_value c "sunDirection" ≫= get_vector) h''
      = Some (SunCalculator.normalize3 (Vec3 0 0 149597870700), h'').
Proof.
  destruct (createEarthMaterial_clone_defined sampleTextures sampleOptions ∅)
    as (m & h & c & h' & Hm & _ & Hc).
  destruct (onBeforeRender_base_and_clone _ _ _ _ _ _ _
              (Vec3 0 0 149597870700) Hm Hc)
    as (_ & h'' & Hr & _ & Hread).
  exists m, h, c, h', h''.
  split; [exact Hm | split; [exact Hc | split; [exact Hr | exact Hread]]].
Defined.

Lemma assign_fails (U : gmap string loc) (k : string) (x : R)
    (h : gmap loc object) :
  U !! k = None → assign U k (Some x) h = None.
Proof.
  intros H. unfold assign, prop, mbind, JS_bind. rewrite H. reflexivity.
Qed.

Lemma assign_live (U : gmap string loc) (k : string) (x : option R)
    (h : gmap loc object) :
  (∃ l v, U !! k = Some l ∧ h !! l = Some (Holder v)) →
  ∃ h1, assign U k x h = Some ((), h1) ∧
        (∀ l v, h !! l = Some (Holder v) → ∃ v', h1 !! l = Some (Holder v')) ∧
        (∀ y, x = Some y →
           ∃ l, U !! k = Some l ∧ h1 !! l = Some (Holder (Num y))).
Proof.
  intros (l & v & HU & Hv). destruct x as [y |].
  - exists (<[l := Holder (Num y)]> h). split; [| split].
    + unfold assign.
      rewrite (js_bind_some _ _ _ _ _ (prop_live _ _ _ h HU)).
      apply (set_value_live l _ v), Hv.
    + intros l' v' Hl'. destruct (decide (l' = l)) as [-> | Hne].
      * eexists. apply lookup_insert_eq.
      * exists v'. rewrite lookup_insert_ne by (intros E; apply Hne; symmetry; exact E).
        exact Hl'.
    + intros y' [= <-]. exists l. split; [exact HU | apply lookup_insert_eq].
  - exists h. split; [reflexivity | split].
    + intros l' v' Hl'. exists v'. exact Hl'.
    + intros y [=].
Qed.

Lemma live_after (U : gmap string loc) (k : string) (h h1 : gmap loc object) :
  (∀ l v, h !! l = Some (Holder v) → ∃ v', h1 !! l = Some (Holder v')) →
  (∃ l v, U !! k = Some l ∧ h !! l = Some (Holder v)) →
  ∃ l v, U !! k = Some l ∧ h1 !! l = Some (Holder v).
Proof.
  intros Hkeep (l & v & HU & Hv). destruct (Hkeep l v Hv) as [v' Hv'].
  exists l, v'. split; assumption.
Qed.

(** X21. [updateEarthMaterialUniforms] with the haze controls reaches the
    base material only.  On a material made by [createEarthMaterial]
    every update goes through, and a given [hazeMax] is what the
    material reads afterwards.  A clone has no [atmosphereScale],
    [hazeStrength], [hazeFalloff] or [hazeMax] uniform: an update that
    carries one of them throws on it, in every store. *)
Theorem haze_updates_base_only (textures : Textures) (options : Options)
    (h0 h h' : gmap loc object) (m c : Material) (updates : Updates) :
  createEarthMaterial textures options h0 = Some (m, h) →
  clone m h = Some (c, h') →
  (∃ h1, updateEarthMaterialUniforms m updates h' = Some ((), h1) ∧
         ∀ x, upd_hazeMax updates = Some x →
              uniform_value m "hazeMax" h1 = Some (Num x, h1)) ∧
  (is_Some (upd_atmosphereScale updates) ∨ is_Some (upd_hazeStrength updates) ∨
   is_Some (upd_hazeFalloff updates) ∨ is_Some (upd_hazeMax updates) →
   ∀ h2, updateEarthMaterialUniforms c updates h2 = None).
Proof.
  intros Hm Hc.
  destruct (createEarthMaterial_inv _ _ _ _ _ Hm)
    as (_ & _ & _ & _ & Hscalar & _).
  destruct (clone_inv m c h h' Hc)
    as (Hsub & _ & _ & _ & _ & _ & _ & _ & Hmissing).
  assert (Hlive : ∀ k v,
            (k, v) ∈ [("roughnessLow", Num (default 0.25 (roughnessLow options)));
                       ("roughnessHigh", Num (default 0.35 (roughnessHigh options)));
                       ("atmosphereScale", Num (default 1.04 (atmosphereScale options)));
                       ("hazeStrength", Num (default 0.85 (hazeStrength options)));
                       ("hazeFalloff", Num (default 900000 (hazeFalloff options)));
                       ("hazeMax", Num (default 0.85 (hazeMax options)))] →
            ∃ l v', uniforms m !! k = Some l ∧ h' !! l = Some (Holder v')).
  { intros k v Hin. destruct (Hscalar k v) as (l & Hl & _ & Hv).
    - rewrite !elem_of_cons in Hin. rewrite !elem_of_cons.
      tauto.
    - exists l, v. split; [exact Hl | eapply lookup_weaken; eassumption]. }
  split.
  - unfold updateEarthMaterialUniforms.
    destruct (assign_live (uniforms m) "roughnessLow"
                (upd_roughnessLow updates) h') as (h1 & E1 & K1 & _);
      [eapply Hlive; in_list |].
    rewrite (js_bind_some _ _ _ _ _ E1).
    destruct (assign_live (uniforms m) "roughnessHigh"
                (upd_roughnessHigh updates) h1) as (h2 & E2 & K2 & _);
      [apply (live_after _ _ h'); [exact K1 | eapply Hlive; in_list] |].
    rewrite (js_bind_some _ _ _ _ _ E2).
    assert (K02 : ∀ l v, h' !! l = Some (Holder v) →
                         ∃ v', h2 !! l = Some (Holder v')).
    { intros l v Hl. destruct (K1 l v Hl) as [v1 H1]. exact (K2 l v1 H1). }
    destruct (assign_live (uniforms m) "atmosphereScale"
                (upd_atmosphereScale updates) h2) as (h3 & E3 & K3 & _);
      [apply (live_after _ _ h'); [exact K02 | eapply Hlive; in_list] |].
    rewrite (js_bind_some _ _ _ _ _ E3).
    assert (K03 : ∀ l v, h' !! l = Some (Holder v) →
                         ∃ v', h3 !! l = Some (Holder v')).
    { intros l v Hl. destruct (K02 l v Hl) as [v1 H1]. exact (K3 l v1 H1). }
    destruct (assign_live (uniforms m) "hazeStrength"
                (upd_hazeStrength updates) h3) as (h4 & E4 & K4 & _);
      [apply (live_after _ _ h'); [exact K03 | eapply Hlive; in_list] |].
    rewrite (js_bind_some _ _ _ _ _ E4).
    assert (K04 : ∀ l v, h' !! l = Some (Holder v) →
                         ∃ v', h4 !! l = Some (Holder v')).
    { intros l v Hl. destruct (K03 l v Hl) as [v1 H1]. exact (K4 l v1 H1). }
    destruct (assign_live (uniforms m) "hazeFalloff"
                (upd_hazeFalloff updates) h4) as (h5 & E5 & K5 & _);
      [apply (live_after _ _ h'); [exact K04 | eapply Hlive; in_list] |].
    rewrite (js_bind_some _ _ _ _ _ E5).
    assert (K05 : ∀ l v, h' !! l = Some (Holder v) →
                         ∃ v', h5 !! l = Some (Holder v')).
    { intros l v Hl. destruct (K04 l v Hl) as [v1 H1]. exact (K5 l v1 H1). }
    destruct (assign_live (uniforms m) "hazeMax"
                (upd_hazeMax updates) h5) as (h6 & E6 & _ & R6);
      [apply (live_after _ _ h'); [exact K05 | eapply Hlive; in_list] |].
    exists h6. split; [exact E6 |].
    intros x Hx. destruct (R6 x Hx) as (l & Hl & Hv).
    apply (uniform_value_live m _ l); assumption.
  - intros Hany h2. unfold updateEarthMaterialUniforms, mbind, JS_bind.
    destruct (assign _ "roughnessLow" _ h2) as [[[] s1] |]; [| reflexivity].
    destruct (assign _ "roughnessHigh" _ s1) as [[[] s2] |]; [| reflexivity].
    destruct (upd_atmosphereScale updates) as [x3 |].
    { rewrite assign_fails; [reflexivity | apply Hmissing; in_list]. }
    destruct (assign _ "atmosphereScale" _ s2) as [[[] s3] |]; [| reflexivity].
    destruct (upd_hazeStrength updates) as [x4 |].
    { rewrite assign_fails; [reflexivity | apply Hmissing; in_list]. }
    destruct (assign _ "hazeStrength" _ s3) as [[[] s4] |]; [| reflexivity].
    destruct (upd_hazeFalloff updates) as [x5 |].
    { rewrite assign_fails; [reflexivity | apply Hmissing; in_list]. }
    destruct (assign _ "hazeFalloff" _ s4) as [[[] s5] |]; [| reflexivity].
    destruct (upd_hazeMax updates) as [x6 |].
    { apply assign_fails, Hmissing. in_list. }
    exfalso. destruct Hany as [[? [=]] | [[? [=]] | [[? [=]] | [? [=]]]]].
Qed.

Lemma haze_updates_base_only_witness :
  ∃ m h c h' h1,
    createEarthMaterial sampleTextures sampleOptions ∅ = Some (m, h) ∧
    clone m h = Some (c, h') ∧
    updateEarthMaterialUniforms m
      {| upd_roughnessLow := None; upd_roughnessHigh := None;
         upd_atmosphereScale := None; upd_hazeStrength := None;
         upd_hazeFalloff := None; upd_hazeMax := Some 0.5 |} h'
      = Some ((), h1) ∧
    uniform_value m "hazeMax" h1 = Some (Num 0.5, h1) ∧
    updateEarthMaterialUniforms c
      {| upd_roughnessLow := None; upd_roughnessHigh := None;
         upd_atmosphereScale := None; upd_hazeStrength := None;
         upd_hazeFalloff := None; upd_hazeMax := Some 0.5 |} h'
      = None.
Proof.
  destruct (createEarthMaterial_clone_defined sampleTextures sampleOptions ∅)
    as (m & h & c & h' & Hm & _ & Hc).
  destruct (haze_updates_base_only _ _ _ _ _ _ _
              {| upd_roughnessLow := None; upd_roughnessHigh := None;
                 upd_atmosphereScale := None; upd_hazeStrength := None;
                 upd_hazeFalloff := None; upd_hazeMax := Some 0.5 |} Hm Hc)
    as ((h1 & Hupd & Hread) & Hthrow).
  exists m, h, c, h', h1.
  split; [exact Hm | split; [exact Hc | split; [exact Hupd |]]].
  split; [apply Hread; reflexivity |].
  apply Hthrow. right. right. right. eexists. reflexivity.
Defined.

(** X22. A clone of a clone is a clone of the base: [clone] keeps copying
    from the uniform table of the material the factory made, so the
    values a tile got since (its roughness, its imagery) are not
    handed on; the copies of the second clone hold what the base holds
    at that time. *)
Theorem clone_of_clone (m c : Material) (h h' : gmap loc object) :
  clone_uniforms m = uniforms m →
  clone m h = Some (c, h') →
  (∀ s, clone c s = clone m s) ∧
  (∀ s c2 s2, clone c s = Some (c2, s2) →
     (∀ k, k ∈ copied_uniforms →
        ∃ l0 l v, uniforms m !! k = Some l0 ∧ uniforms c2 !! k = Some l ∧
                  s2 !! l0 = Some (Holder v) ∧ s2 !! l = Some (Holder v)) ∧
     (∃ l, uniforms c2 !! "imageryTexture" = Some l ∧
           s2 !! l = Some (Holder Null))).
Proof.
  intros Hbase Hc.
  destruct (clone_inv m c h h' Hc) as (_ & Hcu & Hside & _).
  assert (Hsame : ∀ s, clone c s = clone m s).
  { intros s. unfold clone. rewrite Hcu, Hside. reflexivity. }
  split; [exact Hsame |].
  intros s c2 s2 Hc2. rewrite Hsame in Hc2.
  destruct (clone_inv m c2 s s2 Hc2)
    as (_ & _ & _ & _ & _ & Hcopied & (li & Hi & _ & Hvi) & _).
  rewrite Hbase in Hcopied. split.
  - intros k Hk.
    destruct (Hcopied k Hk) as (l0 & l & v & H0 & Hl & _ & _ & Hv0 & Hv).
    exists l0, l, v. repeat split; assumption.
  - exists li. split; assumption.
Qed.

Lemma clone_of_clone_witness :
  ∃ m h c h',
    createEarthMaterial sampleTextures sampleOptions ∅ = Some (m, h) ∧
    clone m h = Some (c, h') ∧
    clone c h' = clone m h'.
Proof.
  destruct (createEarthMaterial_clone_defined sampleTextures sampleOptions ∅)
    as (m & h & c & h' & Hm & Hbase & Hc).
  exists m, h, c, h'.
  split; [exact Hm | split; [exact Hc |]].
  destruct (clone_of_clone m c h h' Hbase Hc) as [Hsame _].
  apply Hsame.
Defined.

(** ** Texture loader *)

Lemma configure_colorSpace_anisotropy (t : TextureLoader.Texture) :
  TextureLoader.colorSpace (TextureLoader.configure TextureLoader.srgb8 t)
    = TextureLoader.SRGBColorSpace ∧
  TextureLoader.colorSpace (TextureLoader.configure TextureLoader.linear8 t)
    = TextureLoader.LinearSRGBColorSpace ∧
  TextureLoader.anisotropy (TextureLoader.configure TextureLoader.srgb8 t) = 8%Z ∧
  TextureLoader.anisotropy (TextureLoader.configure TextureLoader.linear8 t) = 8%Z ∧
  TextureLoader.image (TextureLoader.configure TextureLoader.srgb8 t)
    = TextureLoader.image t ∧
  TextureLoader.image (TextureLoader.configure TextureLoader.linear8 t)
    = TextureLoader.image t.
Proof. repeat split. Qed.

Lemma loadEarthTextures_inv (fetch : string → option TextureLoader.Texture)
    (basePath resolution : string) (t : TextureLoader.EarthTextures) :
  TextureLoader.loadEarthTextures fetch basePath resolution = Some t →
  ∃ d n b,
    fetch (TextureLoader.dayUrl basePath resolution) = Some d ∧
    fetch (TextureLoader.nightUrl basePath resolution) = Some n ∧
    fetch (TextureLoader.bumpUrl basePath resolution) = Some b ∧
    t = {| TextureLoader.day := TextureLoader.configure TextureLoader.srgb8 d;
           TextureLoader.night := TextureLoader.configure TextureLoader.srgb8 n;
           TextureLoader.bumpRoughnessClouds :=
             TextureLoader.configure TextureLoader.linear8 b |}.
Proof.
  unfold TextureLoader.loadEarthTextures, TextureLoader.loadTexture.
  destruct (fetch (TextureLoader.dayUrl basePath resolution)) as [d |];
    [| discriminate].
  destruct (fetch (TextureLoader.nightUrl basePath resolution)) as [n |];
    [| discriminate].
  destruct (fetch (TextureLoader.bumpUrl basePath resolution)) as [b |];
    [| discriminate].
  simpl. intros [= <-]. exists d, n, b. repeat split.
Qed.

(** X23. [loadEarthTexturesWithFallback] is all or nothing: it reports no
    fallback exactly when the three files load, and then the day and
    night textures are sRGB, the bump/roughness/clouds texture is
    linear, all three with anisotropy 8 and the loaded image; as soon as
    one file fails, all three textures are the placeholders, also those
    whose file did load. *)
Theorem fallback_all_or_nothing
    (newTexture : TextureLoader.Image → TextureLoader.Texture)
    (fetch : string → option TextureLoader.Texture)
    (basePath resolution : string) :
  let r := TextureLoader.loadEarthTexturesWithFallback newTexture fetch
             basePath resolution in
  (TextureLoader.usingFallback r = false ↔
     is_Some (fetch (TextureLoader.dayUrl basePath resolution)) ∧
     is_Some (fetch (TextureLoader.nightUrl basePath resolution)) ∧
     is_Some (fetch (TextureLoader.bumpUrl basePath resolution))) ∧
  (TextureLoader.usingFallback r = true →
     TextureLoader.textures r = TextureLoader.createFallbackTextures newTexture) ∧
  (TextureLoader.usingFallback r = false →
     ∃ d n b,
       fetch (TextureLoader.dayUrl basePath resolution) = Some d ∧
       fetch (TextureLoader.nightUrl basePath resolution) = Some n ∧
       fetch (TextureLoader.bumpUrl basePath resolution) = Some b ∧
       TextureLoader.image (TextureLoader.day (TextureLoader.textures r))
         = TextureLoader.image d ∧
       TextureLoader.image (TextureLoader.night (TextureLoader.textures r))
         = TextureLoader.image n ∧
       TextureLoader.image
         (TextureLoader.bumpRoughnessClouds (TextureLoader.textures r))
         = TextureLoader.image b ∧
       TextureLoader.colorSpace (TextureLoader.day (TextureLoader.textures r))
         = TextureLoader.SRGBColorSpace ∧
       TextureLoader.colorSpace (TextureLoader.night (TextureLoader.textures r))
         = TextureLoader.SRGBColorSpace ∧
       TextureLoader.colorSpace
         (TextureLoader.bumpRoughnessClouds (TextureLoader.textures r))
         = TextureLoader.LinearSRGBColorSpace ∧
       TextureLoader.anisotropy (TextureLoader.day (TextureLoader.textures r))
         = 8%Z ∧
       TextureLoader.anisotropy (TextureLoader.night (TextureLoader.textures r))
         = 8%Z ∧
       TextureLoader.anisotropy
         (TextureLoader.bumpRoughnessClouds (TextureLoader.textures r))
         = 8%Z).
Proof.
  intros r. subst r. unfold TextureLoader.loadEarthTexturesWithFallback.
  destruct (TextureLoader.loadEarthTextures fetch basePath resolution)
    as [t |] eqn:E.
  - apply loadEarthTextures_inv in E as (d & n & b & Hd & Hn & Hb & ->).
    simpl. rewrite Hd, Hn, Hb. split; [| split].
    + split; [intros _; repeat split; eexists; reflexivity | reflexivity].
    + discriminate.
    + intros _. exists d, n, b. repeat split.
  - cbn [TextureLoader.usingFallback TextureLoader.textures].
    split; [| split].
    + split; [discriminate |].
      intros ([d Hd] & [n Hn] & [b Hb]). exfalso.
      unfold TextureLoader.loadEarthTextures, TextureLoader.loadTexture in E.
      rewrite Hd, Hn, Hb in E. discriminate E.
    + reflexivity.
    + discriminate.
Qed.

Lemma fallback_all_or_nothing_witness :
  TextureLoader.textures
    (TextureLoader.loadEarthTexturesWithFallback Views.plainTexture
       (λ _, None) "./textures/" "4096")
  = TextureLoader.createFallbackTextures Views.plainTexture.
Proof.
  apply (fallback_all_or_nothing Views.plainTexture (λ _, None)
           "./textures/" "4096").
  reflexivity.
Defined.

Lemma fillRGB_pixels (r g b : Z) (k : nat) :
  ∀ (fuel : nat) (pre : list Z),
    (k <= fuel)%nat →
    TextureLoader.fillRGB fuel (List.length pre) r g b
      (pre ++ replicate (3 * k) 0%Z)
    = pre ++ concat (replicate k [(r mod 256)%Z; (g mod 256)%Z; (b mod 256)%Z]).
Proof.
  induction k as [| k IH]; intros fuel pre Hf.
  - simpl. rewrite app_nil_r. destruct fuel as [| fuel]; [reflexivity |].
    simpl. rewrite Nat.ltb_irrefl. reflexivity.
  - destruct fuel as [| fuel]; [lia |].
    replace (3 * S k)%nat with (S (S (S (3 * k)))) by lia.
    cbn [TextureLoader.fillRGB replicate concat].
    assert (Hlt : Nat.ltb (List.length pre)
                    (List.length
                       (pre ++ 0%Z :: 0%Z :: 0%Z :: replicate (3 * k) 0%Z))
                  = true).
    { apply Nat.ltb_lt. rewrite length_app. simpl. lia. }
    rewrite Hlt.
    set (px := [(r mod 256)%Z; (g mod 256)%Z; (b mod 256)%Z]).
    assert (Hset :
      <[(List.length pre + 2)%nat := (b mod 256)%Z]>
        (<[(List.length pre + 1)%nat := (g mod 256)%Z]>
           (<[List.length pre := (r mod 256)%Z]>
              (pre ++ 0%Z :: 0%Z :: 0%Z :: replicate (3 * k) 0%Z)))
      = (pre ++ px) ++ replicate (3 * k) 0%Z).
    { rewrite (insert_app_r_alt pre _ (List.length pre)) by lia.
      rewrite (insert_app_r_alt pre _ (List.length pre + 1)) by lia.
      rewrite (insert_app_r_alt pre _ (List.length pre + 2)) by lia.
      replace (List.length pre - List.length pre)%nat with 0%nat by lia.
      replace (List.length pre + 1 - List.length pre)%nat with 1%nat by lia.
      replace (List.length pre + 2 - List.length pre)%nat with 2%nat by lia.
      simpl. rewrite <- app_assoc. reflexivity. }
    rewrite Hset.
    replace (List.length pre + 3)%nat with (List.length (pre ++ px))
      by (rewrite length_app; simpl; lia).
    rewrite IH by lia.
    rewrite <- app_assoc. reflexivity.
Qed.

Lemma rgbData_fill (k : nat) (r g b : Z) :
  TextureLoader.rgbData (3 * k) r g b
    = concat (replicate k [(r mod 256)%Z; (g mod 256)%Z; (b mod 256)%Z]) ∧
  List.length (TextureLoader.rgbData (3 * k) r g b) = (3 * k)%nat.
Proof.
  assert (H : TextureLoader.rgbData (3 * k) r g b
              = concat (replicate k [(r mod 256)%Z; (g mod 256)%Z;
                                     (b mod 256)%Z])).
  { unfold TextureLoader.rgbData.
    apply (fillRGB_pixels r g b k (3 * k) []). lia. }
  split; [exact H |].
  rewrite H. clear H. induction k as [| k IH]; [reflexivity |].
  cbn [replicate concat]. rewrite length_app, IH. simpl. lia.
Qed.

(** X24. The loop of [createDataTexture] writes every pixel: an array of
    [3 * k] bytes ends up as [k] copies of the three channel values
    (each reduced modulo 256, as a [Uint8Array] stores them) and keeps
    its length.  So the placeholder bump/roughness/clouds texture is
    512 x 512 pixels of (128, 180, 0), flagged for upload, and the
    placeholder day and night textures are sRGB canvases of
    512 x 512. *)
Theorem fallback_textures_content
    (newTexture : TextureLoader.Image → TextureLoader.Texture) :
  (∀ (k : nat) (r g b : Z),
     TextureLoader.rgbData (3 * k) r g b
       = concat (replicate k [(r mod 256)%Z; (g mod 256)%Z; (b mod 256)%Z]) ∧
     List.length (TextureLoader.rgbData (3 * k) r g b) = (3 * k)%nat) ∧
  TextureLoader.bumpRoughnessClouds
    (TextureLoader.createFallbackTextures newTexture)
  = (let texture :=
       newTexture
         (TextureLoader.DataArray
            (concat (replicate (512 * 512) [128%Z; 180%Z; 0%Z])) 512 512) in
     {| TextureLoader.image := TextureLoader.image texture;
        TextureLoader.colorSpace := TextureLoader.colorSpace texture;
        TextureLoader.anisotropy := TextureLoader.anisotropy texture;
        TextureLoader.wrapS := TextureLoader.wrapS texture;
        TextureLoader.wrapT := TextureLoader.wrapT texture;
        TextureLoader.minFilter := TextureLoader.minFilter texture;
        TextureLoader.magFilter := TextureLoader.magFilter texture;
        TextureLoader.needsUpdate := true |}) ∧
  TextureLoader.day (TextureLoader.createFallbackTextures newTexture)
    = TextureLoader.createColorTexture newTexture "#4488aa" ∧
  TextureLoader.night (TextureLoader.createFallbackTextures newTexture)
    = TextureLoader.createColorTexture newTexture "#0a0a0a" ∧
  (∀ color,
     TextureLoader.colorSpace (TextureLoader.createColorTexture newTexture color)
       = TextureLoader.SRGBColorSpace ∧
     TextureLoader.image (TextureLoader.createColorTexture newTexture color)
       = TextureLoader.image (newTexture (TextureLoader.Canvas 512 512 color))).
Proof.
  split; [intros k r g b; apply rgbData_fill |].
  split; [| split; [reflexivity | split; [reflexivity |]]].
  - unfold TextureLoader.createFallbackTextures.
    cbn [TextureLoader.bumpRoughnessClouds].
    unfold TextureLoader.createDataTexture.
    rewrite (Nat.mul_comm (512 * 512) 3).
    rewrite (proj1 (rgbData_fill (512 * 512) 128 180 0)).
    reflexivity.
  - intros color. split; reflexivity.
Qed.

Lemma configure_noOptions (t : TextureLoader.Texture) :
  TextureLoader.configure TextureLoader.noOptions t = t.
Proof. destruct t. reflexivity. Qed.

(** X25. [preloadTextures] resolves exactly when every URL loads, and then
    with the loaded textures untouched, one per URL, in the order of
    the URLs. *)
Theorem preloadTextures_all (fetch : string → option TextureLoader.Texture)
    (urls : list string) (ts : list TextureLoader.Texture) :
  (TextureLoader.preloadTextures fetch urls = Some ts ↔
     Forall2 (λ url t, fetch url = Some t) urls ts) ∧
  (TextureLoader.preloadTextures fetch urls = Some ts →
     List.length ts = List.length urls) ∧
  (TextureLoader.preloadTextures fetch urls = None ↔
     ∃ url, url ∈ urls ∧ fetch url = None).
Proof.
  assert (Hload : ∀ url, TextureLoader.loadTexture fetch url
                           TextureLoader.noOptions = fetch url).
  { intros url. unfold TextureLoader.loadTexture.
    destruct (fetch url) as [t |]; [| reflexivity].
    simpl. rewrite configure_noOptions. reflexivity. }
  assert (Hiff : TextureLoader.preloadTextures fetch urls = Some ts ↔
                 Forall2 (λ url t, fetch url = Some t) urls ts).
  { unfold TextureLoader.preloadTextures. rewrite mapM_Some.
    split; intros HF; eapply Forall2_impl; try exact HF;
      intros url t; simpl; rewrite Hload; auto. }
  split; [exact Hiff |]. split.
  - intros H. apply Hiff in H. symmetry. eapply Forall2_length, H.
  - unfold TextureLoader.preloadTextures. rewrite mapM_None, Exists_exists.
    split; intros (url & Hin & Hn); exists url; split; try exact Hin.
    + rewrite <- Hload. exact Hn.
    + rewrite Hload. exact Hn.
Qed.

Lemma preloadTextures_all_witness :
  TextureLoader.preloadTextures (λ _, None) ["a.jpg"; "b.jpg"] = None.
Proof.
  apply (preloadTextures_all (λ _, None) ["a.jpg"; "b.jpg"] []).
  exists "a.jpg". split; [apply list_elem_of_here | reflexivity].
Defined.

Lemma orDefault_at_least (x : option R) (d lim : R) :
  0 < lim → d < lim →
  (lim <= TextureLoader.orDefault x d ↔ ∃ s, x = Some s ∧ lim <= s).
Proof.
  intros Hl Hd. unfold TextureLoader.orDefault.
  destruct x as [s |]; [destruct (Req_EM_T s 0) as [-> | Hs] |]; split.
  - intros H. lra.
  - intros (s & [= <-] & H). lra.
  - intros H. exists s. split; [reflexivity | exact H].
  - intros (s' & [= <-] & H). exact H.
  - intros H. lra.
  - intros (s & [=] & _).
Qed.

Lemma orDefault_below (x : option R) (d : R) :
  0 < d →
  (TextureLoader.orDefault x d < d ↔ ∃ s, x = Some s ∧ s ≠ 0 ∧ s < d).
Proof.
  intros Hd. unfold TextureLoader.orDefault.
  destruct x as [s |]; [destruct (Req_EM_T s 0) as [-> | Hs] |]; split.
  - intros H. lra.
  - intros (s & [= <-] & Hs & _). contradiction.
  - intros H. exists s. split; [reflexivity | split; assumption].
  - intros (s' & [= <-] & _ & H). exact H.
  - intros H. lra.
  - intros (s & [=] & _).
Qed.

(** X26. [getRecommendedResolution]: 8k needs both a texture limit of 8192
    or more and a pixel ratio of 2 or more; a renderer that reports no
    limit (or 0) is treated as one with limit 4096 and never gets 8k or
    2k; 2k is returned exactly for a reported non-zero limit below
    4096. *)
Theorem getRecommendedResolution_cases (maxTextureSize devicePixelRatio : option R) :
  let r := TextureLoader.getRecommendedResolution maxTextureSize
             devicePixelRatio in
  (r = "8k" ∨ r = "4096" ∨ r = "2k") ∧
  (r = "8k" ↔
     (∃ s, maxTextureSize = Some s ∧ 8192 <= s) ∧
     (∃ p, devicePixelRatio = Some p ∧ 2 <= p)) ∧
  (r = "2k" ↔ ∃ s, maxTextureSize = Some s ∧ s ≠ 0 ∧ s < 4096) ∧
  (maxTextureSize = None ∨ maxTextureSize = Some 0 → r = "4096").
Proof.
  intros r. subst r. unfold TextureLoader.getRecommendedResolution.
  pose proof (orDefault_at_least maxTextureSize 4096 8192 ltac:(lra) ltac:(lra)) as H8.
  pose proof (orDefault_at_least devicePixelRatio 1 2 ltac:(lra) ltac:(lra)) as H2.
  pose proof (orDefault_below maxTextureSize 4096 ltac:(lra)) as Hlow.
  assert (Hdef : maxTextureSize = None ∨ maxTextureSize = Some 0 →
                 TextureLoader.orDefault maxTextureSize 4096 = 4096).
  { intros [-> | ->]; unfold TextureLoader.orDefault; [reflexivity |].
    destruct (Req_EM_T 0 0); [reflexivity | contradiction]. }
  set (s0 := TextureLoader.orDefault maxTextureSize 4096) in *.
  set (p0 := TextureLoader.orDefault devicePixelRatio 1) in *.
  unfold TextureLoader.geb.
  destruct (Rle_dec 8192 s0) as [Hs8 | Hs8];
    destruct (Rle_dec 2 p0) as [Hp2 | Hp2];
    destruct (Rle_dec 4096 s0) as [Hs4 | Hs4]; simpl;
    try (exfalso; lra);
    (split; [tauto |]);
    (split; [split; [try discriminate; intros _; tauto
                    | intros [Ha Hb]; try reflexivity;
                      apply H8 in Ha; apply H2 in Hb; contradiction] |]);
    (split; [split; [try discriminate; intros _; apply Hlow; lra
                    | intros Ha; try reflexivity; apply Hlow in Ha; lra] |]);
    intros Hn; try reflexivity; apply Hdef in Hn; lra.
Qed.

Lemma getRecommendedResolution_cases_witness :
  TextureLoader.getRecommendedResolution None (Some 3) = "4096".
Proof.
  apply (getRecommendedResolution_cases None (Some 3)).
  left. reflexivity.
Defined.

(** ** The earlier shaders *)

Lemma legacy_earth_run_inv (u : LegacyEarthMaterial.Uniforms)
    (f : EarthMaterial.Fragment) (l : LegacyEarthMaterial.Locals) :
  LegacyEarthMaterial.run u f = Some l →
  ∃ sd N0,
    normalize (LegacyEarthMaterial.sunDirection u) = Some sd ∧
    normalize (EarthMaterial.vWorldNormal f) = Some N0 ∧
    LegacyEarthMaterial.finalColor l =
      vmix (EarthMaterial.nightTexel f)
           (vmix (vmix (EarthMaterial.dayTexel f) (EarthMaterial.imageryTexel f)
                       (LegacyEarthMaterial.useImagery u))
                 (Vec3 1 1 1)
                 (smoothstep 0.2 1 (cb (EarthMaterial.brcTexel f)) * 2))
           (smoothstep (-0.25) 0.5
              (dot (if EarthMaterial.gl_FrontFacing f then N0
                    else vscale (-1) N0) sd)) ∧
    LegacyEarthMaterial.gl_FragColor l =
      Vec4 (vx (LegacyEarthMaterial.finalColor l))
           (vy (LegacyEarthMaterial.finalColor l))
           (vz (LegacyEarthMaterial.finalColor l)) 1.
Proof.
  intros H. unfold LegacyEarthMaterial.run in H. bind_inv H.
  injection H as <-. simpl. eexists _, _.
  repeat (split; [first [eassumption | reflexivity] |]). reflexivity.
Qed.

Lemma legacy_earth_run_defined (u : LegacyEarthMaterial.Uniforms)
    (f : EarthMaterial.Fragment) :
  length (EarthMaterial.vWorldNormal f) ≠ 0 →
  length (LegacyEarthMaterial.sunDirection u) ≠ 0 →
  ∃ l, LegacyEarthMaterial.run u f = Some l.
Proof.
  intros HN HS. unfold LegacyEarthMaterial.run.
  rewrite (normalize_some _ HS). simpl.
  rewrite (normalize_some _ HN). simpl.
  eexists. reflexivity.
Qed.

(** X27. The haze version extends the earlier surface shader.  The earlier
    one runs whenever normal and sun direction are not null, wherever the
    camera is; on every fragment where the later one runs, so does the
    earlier one, its colour is the later one's plain day/night blend,
    and with [hazeStrength] 0 and a non-negative [hazeMax] both write
    the same fragment colour. *)
Theorem legacy_surface_agrees (u : EarthMaterial.Uniforms)
    (f : EarthMaterial.Fragment) :
  (length (EarthMaterial.vWorldNormal f) ≠ 0 →
   length (EarthMaterial.sunDirection u) ≠ 0 →
   ∃ l0, LegacyEarthMaterial.run (LegacyEarthMaterial.common u) f = Some l0) ∧
  (∀ l, EarthMaterial.run u f = Some l →
     ∃ l0, LegacyEarthMaterial.run (LegacyEarthMaterial.common u) f = Some l0 ∧
           LegacyEarthMaterial.finalColor l0 =
             vmix (EarthMaterial.nightTexel f) (EarthMaterial.baseColor l)
                  (EarthMaterial.dayStrength l) ∧
           (EarthMaterial.hazeStrength u = 0 → 0 <= EarthMaterial.hazeMax u →
            LegacyEarthMaterial.main (LegacyEarthMaterial.common u) f
              = EarthMaterial.main u f)).
Proof.
  split; [intros HN HS;
          exact (legacy_earth_run_defined (LegacyEarthMaterial.common u) f HN HS) |].
  intros l H.
  destruct (earth_run_lengths _ _ _ H) as (HN & HS & _).
  destruct (legacy_earth_run_defined (LegacyEarthMaterial.common u) f HN HS)
    as [l0 Hl0].
  exists l0. split; [exact Hl0 |].
  destruct (legacy_earth_run_inv _ _ _ Hl0) as (sd & N0 & Hsd & HN0 & HF & HC).
  destruct (earth_run_inv _ _ _ H)
    as ((N1 & HN1 & HNl) & HSl & HO & HCl & HB & _ & _ & _ & _ & _ & _ & _ & _
        & HFl & HGl).
  destruct (earth_run_shading _ _ _ H) as (_ & HD & Hh).
  simpl in Hsd. rewrite HN0 in HN1. injection HN1 as <-.
  rewrite Hsd in HSl. injection HSl as HSl.
  assert (Hcol : LegacyEarthMaterial.finalColor l0 =
                 vmix (EarthMaterial.nightTexel f) (EarthMaterial.baseColor l)
                      (EarthMaterial.dayStrength l)).
  { rewrite HF, HB, HCl, HD, HO, HNl, <- HSl. reflexivity. }
  split; [exact Hcol |].
  intros Hs Hm.
  unfold LegacyEarthMaterial.main, EarthMaterial.main. rewrite Hl0, H. simpl.
  f_equal. rewrite HC, HGl, Hcol.
  assert (H0 : EarthMaterial.haze l = 0).
  { rewrite Hh, Hs, Rmult_0_r. apply clamp_low; lra. }
  rewrite HFl, H0. unfold vadd, vscale, vmix, mix. simpl. f_equal; ring.
Qed.

Lemma legacy_surface_agrees_witness :
  LegacyEarthMaterial.main (LegacyEarthMaterial.common Views.hazelessUniforms)
    EarthMaterial.zenithFragment
  = EarthMaterial.main Views.hazelessUniforms EarthMaterial.zenithFragment.
Proof.
  destruct (earth_run_defined Views.hazelessUniforms
              EarthMaterial.zenithFragment) as [l Hl];
    try (apply Rgt_not_eq, length_pos; unfold dot; simpl; lra).
  destruct (legacy_surface_agrees Views.hazelessUniforms
              EarthMaterial.zenithFragment) as [_ Hagree].
  destruct (Hagree l Hl) as (l0 & _ & _ & Hsame).
  apply Hsame; simpl; lra.
Defined.

Lemma legacy_shell_run_inv (u : LegacyAtmosphereMaterial.Uniforms)
    (f : AtmosphereMaterial.Fragment) (l : LegacyAtmosphereMaterial.Locals) :
  LegacyAtmosphereMaterial.run u f = Some l →
  (∃ N0, normalize (AtmosphereMaterial.vWorldNormal f) = Some N0 ∧
         LegacyAtmosphereMaterial.N l =
           if AtmosphereMaterial.gl_FrontFacing f then N0
           else vscale (-1) N0) ∧
  normalize (LegacyAtmosphereMaterial.sunDirection u)
    = Some (LegacyAtmosphereMaterial.normalizedSunDir l) ∧
  normalize (vsub (LegacyAtmosphereMaterial.cameraPosition u)
                  (AtmosphereMaterial.vWorldPosition f))
    = Some (LegacyAtmosphereMaterial.viewDirection l) ∧
  LegacyAtmosphereMaterial.sunOrientation l =
    dot (LegacyAtmosphereMaterial.N l)
        (LegacyAtmosphereMaterial.normalizedSunDir l) ∧
  LegacyAtmosphereMaterial.fresnel l =
    1 - Rabs (dot (LegacyAtmosphereMaterial.viewDirection l)
                  (LegacyAtmosphereMaterial.N l)) ∧
  LegacyAtmosphereMaterial.fresnelRemapped l =
    clamp (1 - (LegacyAtmosphereMaterial.fresnel l - 0.73) / (1 - 0.73)) 0 1 ∧
  (∃ a0, pow (LegacyAtmosphereMaterial.fresnelRemapped l) 3 = Some a0 ∧
         LegacyAtmosphereMaterial.alpha l =
           a0 * smoothstep (-0.5) 1 (LegacyAtmosphereMaterial.sunOrientation l)) ∧
  ca (LegacyAtmosphereMaterial.gl_FragColor l) = LegacyAtmosphereMaterial.alpha l.
Proof.
  intros H. unfold LegacyAtmosphereMaterial.run in H. bind_inv H.
  injection H as <-. simpl.
  split; [eexists; split; reflexivity |].
  repeat (split; [first [assumption | reflexivity] |]).
  split; [| reflexivity].
  eexists. split; [eassumption | reflexivity].
Qed.

(** X28. The earlier shell shader runs whenever normal, sun direction and
    camera-to-fragment vector are not null.  Its alpha lies in [0, 1];
    it is 0 on the whole night side from sun orientation -0.5 down and
    at grazing view ([fresnel] 1), and it is
    [smoothstep(-0.5, 1, sunOrientation)] wherever [fresnel] is at most
    0.73. *)
Theorem legacy_halo_alpha (u : LegacyAtmosphereMaterial.Uniforms)
    (f : AtmosphereMaterial.Fragment) :
  (length (AtmosphereMaterial.vWorldNormal f) ≠ 0 →
   length (LegacyAtmosphereMaterial.sunDirection u) ≠ 0 →
   length (vsub (LegacyAtmosphereMaterial.cameraPosition u)
                (AtmosphereMaterial.vWorldPosition f)) ≠ 0 →
   ∃ l, LegacyAtmosphereMaterial.run u f = Some l) ∧
  (∀ l, LegacyAtmosphereMaterial.run u f = Some l →
     0 <= LegacyAtmosphereMaterial.alpha l <= 1 ∧
     (LegacyAtmosphereMaterial.sunOrientation l <= -0.5 →
      LegacyAtmosphereMaterial.alpha l = 0) ∧
     (LegacyAtmosphereMaterial.fresnel l = 1 →
      LegacyAtmosphereMaterial.alpha l = 0) ∧
     (LegacyAtmosphereMaterial.fresnel l <= 0.73 →
      LegacyAtmosphereMaterial.alpha l =
        smoothstep (-0.5) 1 (LegacyAtmosphereMaterial.sunOrientation l))).
Proof.
  split.
  - intros HN HS HV. unfold LegacyAtmosphereMaterial.run.
    rewrite (normalize_some _ HN). simpl.
    rewrite (normalize_some _ HS). simpl.
    rewrite (normalize_some _ HV). simpl.
    match goal with
    | |- context [pow (clamp ?a 0 1) 3] =>
        destruct (pow_defined (clamp a 0 1) 3) as (a0 & -> & _);
          [pose proof (clamp_bounds a 0 1); lra | lra |]
    end.
    simpl. eexists. reflexivity.
  - intros l H.
    destruct (legacy_shell_run_inv _ _ _ H)
      as (_ & _ & _ & _ & _ & HR & (a0 & Hpow & HA) & _).
    pose proof (smoothstep_bounds (-0.5) 1
                  (LegacyAtmosphereMaterial.sunOrientation l)) as Hs.
    assert (Hc : 0 <= LegacyAtmosphereMaterial.fresnelRemapped l <= 1)
      by (rewrite HR; apply clamp_bounds; lra).
    pose proof (pow_unit_interval _ 3 _ Hc ltac:(lra) Hpow) as Ha0.
    rewrite HA. split; [split; nra |]. split; [| split].
    + intros Hn. rewrite smoothstep_below by lra. ring.
    + intros Hf. rewrite HR, Hf in Hpow.
      rewrite clamp_low in Hpow by lra.
      rewrite pow_zero in Hpow by lra. injection Hpow as <-. ring.
    + intros Hf. rewrite HR in Hpow.
      rewrite clamp_high in Hpow by lra.
      rewrite pow_one in Hpow. injection Hpow as <-. ring.
Qed.

Lemma legacy_halo_alpha_witness :
  ∃ l, LegacyAtmosphereMaterial.run
         (LegacyAtmosphereMaterial.common AtmosphereMaterial.overheadUniforms)
         AtmosphereMaterial.shellFragment = Some l ∧
       0 <= LegacyAtmosphereMaterial.alpha l <= 1.
Proof.
  destruct (legacy_halo_alpha
              (LegacyAtmosphereMaterial.common AtmosphereMaterial.overheadUniforms)
              AtmosphereMaterial.shellFragment) as [Hdef Hprop].
  destruct Hdef as [l Hl];
    try (apply Rgt_not_eq, length_pos; unfold dot; simpl; lra).
  exists l. split; [exact Hl |].
  apply (Hprop l Hl).
Defined.
